(** * ai-router: provider registry, shared adapter contract, SSE decoding
      and the pre-flight cost guard

    A shallow embedding of the TypeScript sources

      - [src/utils/pricing.ts]            (module [Pricing])
      - [src/providers/base.ts]           (module [Base])
      - [src/providers/index.ts]          (module [Registry])
      - [src/providers/openai/index.ts],
        [src/providers/google/index.ts],
        [src/providers/openrouter/index.ts] (modules [Adapters], [SSE], [Images])
      - [src/utils/file.ts]               (module [Images])
      - [generateText], [generateTextStream] and [listAvailableModels]
        of the providers                  (modules [TextGeneration],
                                           [OpenRouterModels])
      - [src/cli/index.ts], [src/cli/commands/generate-text.ts],
        [src/cli/commands/generate-video.ts], and [resolveEnvVars] of
        [src/config/index.ts]             (module [Cli])
      - [src/cli/output.ts]               (module [Output])

    and of the built-in [JSON.parse] the decoders call (module [Json]).

    Conventions.  Optional fields and [undefined] arguments are [option]s.
    Text is a [string], read as the UTF-8 encoding of the JavaScript
    string, so that a byte chunk and its decoded text coincide.  Prices and
    costs are IEEE binary64 numbers (Rocq's primitive [float]s, the very
    arithmetic JavaScript performs); millisecond timestamps, hour counts,
    retry counts and token counts are integers ([Z]), on which JavaScript's
    arithmetic is exact below 2^53.  A thrown exception is the [Throw]
    branch of [Result]; what a function does to the outside world is the
    list of effects it returns.  What the platform decides (the network,
    the tokenizer, the file system, the environment, [path.join], the
    clock) is a parameter.

    Part I holds the definitions: the embedding of the sources, then the
    notions the statements need and the example data.  Part II holds the
    lemmas. *)

From Stdlib Require Import ZArith Floats Uint63 Ascii List Bool Lia.
From stdpp Require Import base option list gmap strings pretty.

Local Open Scope Z_scope.

(* Decimal prices such as 0.0005 denote the nearest binary64 number. *)
#[local] Set Warnings "-inexact-float,-register-all".

(* ================================================================== *)
(** * Part I: definitions                                              *)
(* ================================================================== *)

(** ** JavaScript preliminaries *)

(** The outcome of a call that may throw. *)
Inductive Result (E A : Type) : Type :=
| Ok (a : A)
| Throw (e : E).
Arguments Ok {E A} a.
Arguments Throw {E A} e.

Module JS.

(** [s.startsWith(p)] *)
Fixpoint startsWith (s p : string) : bool :=
  match p with
  | EmptyString => true
  | String c p' =>
      match s with
      | EmptyString => false
      | String d s' => if Ascii.eqb d c then startsWith s' p' else false
      end
  end.

(** [s.includes(sub)] *)
Fixpoint includes (s sub : string) : bool :=
  startsWith s sub
  || match s with
     | EmptyString => false
     | String _ s' => includes s' sub
     end.

(** [s.slice(n)] for [0 <= n]. *)
Fixpoint slice (n : nat) (s : string) : string :=
  match n, s with
  | O, _ => s
  | S n', String _ s' => slice n' s'
  | S _, EmptyString => EmptyString
  end.

(** [s.slice(0, n)] for [0 <= n]. *)
Fixpoint take (n : nat) (s : string) : string :=
  match n, s with
  | S n', String c s' => String c (take n' s')
  | _, _ => EmptyString
  end.

(** [s.split(sep)] for a separator [sep] of one character. *)
Fixpoint split (sep : ascii) (s : string) : list string :=
  match s with
  | EmptyString => [EmptyString]
  | String c r =>
      if Ascii.eqb c sep then EmptyString :: split sep r
      else
        match split sep r with
        | h :: t => String c h :: t
        | [] => [String c EmptyString]
        end
  end.

(** [s.length], the number of UTF-16 code units of the text that [s]
    encodes: a byte that continues a sequence counts for nothing, and the
    first byte of a sequence of four, which encodes a code point above
    U+FFFF, counts for two. *)
Fixpoint length (s : string) : nat :=
  match s with
  | EmptyString => 0%nat
  | String c r =>
      let n := Ascii.nat_of_ascii c in
      ((if (128 <=? n)%nat && (n <? 192)%nat then 0
        else if (240 <=? n)%nat then 2 else 1)
       + length r)%nat
  end.

(** Truthiness of a string: only the empty string is falsy. *)
Definition truthy_string (s : string) : bool :=
  match s with EmptyString => false | String _ _ => true end.

(** [Some s] when the optional string is truthy: neither [undefined] nor
    the empty string. *)
Definition truthy (o : option string) : option string :=
  match o with
  | Some (String c s) => Some (String c s)
  | _ => None
  end.

(** Truthiness of an optional string ([undefined] is falsy). *)
Definition truthy_opt_string (o : option string) : bool :=
  match o with Some s => truthy_string s | None => false end.

(** Truthiness of an optional integer ([undefined] and [0] are falsy). *)
Definition truthy_opt_Z (o : option Z) : bool :=
  match o with Some z => negb (z =? 0) | None => false end.

(** A non-negative integer as a binary64 number (exact below 2^53). *)
Definition number_of_Z (z : Z) : float := PrimFloat.of_uint63 (Uint63.of_Z z).

(** Truthiness of a number: [0], [-0] and [NaN] are falsy. *)
Definition truthy_number (x : float) : bool :=
  negb (PrimFloat.eqb x 0 || negb (PrimFloat.eqb x x)).

End JS.

(** ** [src/utils/pricing.ts] *)

Module Pricing.

(** Pricing per 1M tokens (in USD). *)
Record ModelPricing : Type := { input : float; output : float }.

(** Fallback pricing for unknown models. *)
Definition DEFAULT_PRICING : ModelPricing := {| input := 10; output := 30 |}.

Definition DEFAULT_CACHE_TTL_HOURS : Z := 24.

(** [PricingCache]; the three fields are optional because the code
    guards each of them ([!cache.lastUpdated], [cache.ttlHours ?? ...],
    [cache?.models?.[model]]). *)
Record PricingCache : Type := {
  lastUpdated : option Z;
  ttlHours : option Z;
  models : option (gmap string ModelPricing)
}.

(** The part of [RouterConfig] the pricing code reads and writes. *)
Record RouterConfig : Type := {
  version : string;
  defaultProvider : string;
  pricing : option PricingCache
}.

(** [isPricingCacheValid(cache)], with [Date.now()] passed as [now]. *)
Definition isPricingCacheValid (now : Z) (cache : option PricingCache) : bool :=
  match cache with
  | None => false
  | Some c =>
      if negb (JS.truthy_opt_Z (lastUpdated c)) then false
      else
        let ttlMs := default DEFAULT_CACHE_TTL_HOURS (ttlHours c) * 60 * 60 * 1000 in
        now - default 0 (lastUpdated c) <? ttlMs
  end.

(** The entry that [cache.models] itself holds for [model]. *)
Definition cache_entry (model : string) (cache : option PricingCache)
  : option ModelPricing :=
  c ← cache; m ← models c; m !! model.

(** The names that [cache.models], a plain object, inherits from
    [Object.prototype]. *)
Definition Object_prototype_names : list string :=
  [ "constructor"; "__defineGetter__"; "__defineSetter__"; "hasOwnProperty";
    "__lookupGetter__"; "__lookupSetter__"; "isPrototypeOf";
    "propertyIsEnumerable"; "toString"; "valueOf"; "__proto__";
    "toLocaleString" ].

(** What a member access on [cache.models] finds: an entry of its own, or
    a member inherited from [Object.prototype], which is a function or
    that prototype, truthy and with neither [input] nor [output]. *)
Inductive Member : Type :=
| Own (p : ModelPricing)
| Inherited.

(** [cache?.models?.[model]], for a [models] whose prototype is
    [Object.prototype], as [JSON.parse] and an object literal make it. *)
Definition cache_member (model : string) (cache : option PricingCache)
  : option Member :=
  c ← cache; m ← models c;
  match m !! model with
  | Some p => Some (Own p)
  | None =>
      if bool_decide (model ∈ Object_prototype_names) then Some Inherited
      else None
  end.

(** [pricing.input] and [pricing.output] as they enter the arithmetic:
    [undefined] becomes NaN. *)
Definition Member_input (x : Member) : float :=
  match x with Own p => input p | Inherited => nan end.

Definition Member_output (x : Member) : float :=
  match x with Own p => output p | Inherited => nan end.

(** [getCachedPricing(config, model)] *)
Definition getCachedPricing (config : RouterConfig) (model : string)
  : option Member :=
  cache_member model (pricing config).

(** [getModelPricing(model, cache)] *)
Definition getModelPricing (model : string) (cache : option PricingCache)
  : Member :=
  match cache_member model cache with
  | Some x => x
  | None => Own DEFAULT_PRICING
  end.

(** The two tiktoken encodings the code asks for. *)
Inductive Encoding : Type := o200k_base | cl100k_base.

(** [getEncoderForModel(model)]: which encoding is selected. *)
Definition getEncoderForModel (model : string) : Encoding :=
  if JS.includes model "gpt-4o" || JS.includes model "gpt-5"
     || JS.includes model "o1-" || JS.includes model "o3-"
  then o200k_base
  else cl100k_base.

Record CostEstimate : Type := {
  model : string;
  inputTokens : Z;
  estimatedOutputTokens : float;
  inputCost : float;
  outputCost : float;
  totalCost : float;
  isEstimate : bool
}.

(** [CostLimitExceededError]: carries the estimate and the ceiling. *)
Inductive CostLimitExceededError : Type :=
| CostLimitExceeded (estimate : CostEstimate) (maxCost : float).

(** [checkCostLimit(estimate, maxCost)] *)
Definition checkCostLimit (estimate : CostEstimate) (maxCost : float)
  : Result CostLimitExceededError unit :=
  if PrimFloat.ltb 0 maxCost && PrimFloat.ltb maxCost (totalCost estimate)
  then Throw (CostLimitExceeded estimate maxCost)
  else Ok tt.

(** What the pricing code does to the outside world. *)
Inductive Effect : Type :=
| FetchModels (apiKey : string)
| LoadConfig
| SaveConfig (config : RouterConfig).

(** One entry of the models listing: id and the two per-token prices,
    still as the strings the service sends. *)
Record OpenRouterModel : Type := {
  or_id : string;
  or_prompt : string;
  or_completion : string
}.

(** How the request to the models endpoint ends: the request or the
    reading of its body fails, the response is not ok, or the listing
    arrives. *)
Inductive ModelsResponse : Type :=
| ModelsRejected (e : string)
| ModelsNotOk (status : Z)
| ModelsOk (data : list OpenRouterModel).

Section WithEnvironment.

(** The js-tiktoken library: the token ids of a text under an encoding,
    or [None] when loading the encoding or encoding the text throws. *)
Variable tiktoken_encode : Encoding -> string -> option (list Z).

(** The built-in [parseFloat]. *)
Variable parseFloat : string -> float.

(** [estimateTokens(text, model)] *)
Definition estimateTokens (text : string) (model : option string) : Z :=
  match tiktoken_encode (getEncoderForModel (default "" model)) text with
  | Some tokens => Z.of_nat (List.length tokens)
  | None => (Z.of_nat (JS.length text) + 3) / 4
  end.

(** [estimateCost(model, prompt, systemPrompt, expectedOutputTokens, cache)] *)
Definition estimateCost (model : string) (prompt : string)
    (systemPrompt : option string) (expectedOutputTokens : option float)
    (cache : option PricingCache) : CostEstimate :=
  let expectedOutputTokens := default 1000%float expectedOutputTokens in
  let pricing := getModelPricing model cache in
  let inputText := default "" systemPrompt +:+ prompt in
  let inputTokens := estimateTokens inputText (Some model) in
  let inputCost :=
    (JS.number_of_Z inputTokens / 1000000 * Member_input pricing)%float in
  let outputCost :=
    (expectedOutputTokens / 1000000 * Member_output pricing)%float in
  let totalCost := (inputCost + outputCost)%float in
  let isEstimate := negb (bool_decide (is_Some (cache_member model cache))) in
  {| model := model;
     inputTokens := inputTokens;
     estimatedOutputTokens := expectedOutputTokens;
     inputCost := inputCost;
     outputCost := outputCost;
     totalCost := totalCost;
     isEstimate := isEstimate |}.

(** [parseFloat(s) || 0] *)
Definition parseFloat_or_0 (s : string) : float :=
  let x := parseFloat s in
  if JS.truthy_number x then x else 0%float.

(** The loop of [fetchAndCachePricing] that converts per-token prices
    to per-1M-token prices; a later entry overwrites an earlier one
    with the same id.  The ids are those of a listing of models: an id
    [__proto__], for which the assignment sets the prototype of [models]
    and adds no entry, is left aside. *)
Definition convert_models (data : list OpenRouterModel)
  : gmap string ModelPricing :=
  foldl (fun models m =>
           <[ or_id m :=
                {| input := (parseFloat_or_0 (or_prompt m) * 1000000)%float;
                   output := (parseFloat_or_0 (or_completion m) * 1000000)%float |} ]>
             models)
        ∅ data.

(** The answers of the outside world to one run of
    [fetchAndCachePricing]: how the request to the models endpoint ends,
    the configuration that [loadConfig] reads or the error it throws, and
    whether [saveConfig] throws. *)
Record World : Type := {
  models_response : ModelsResponse;
  stored_config : Result string RouterConfig;
  save_outcome : Result string unit
}.

(** [fetchAndCachePricing(apiKey)], with [Date.now()] passed as [now];
    the result comes with the effects performed, oldest first, and an
    error is given by its message. *)
Definition fetchAndCachePricing (w : World) (now : Z) (apiKey : string)
  : Result string PricingCache * list Effect :=
  match models_response w with
  | ModelsRejected e => (Throw e, [FetchModels apiKey])
  | ModelsNotOk status =>
      (Throw ("Failed to fetch models: " +:+ pretty status), [FetchModels apiKey])
  | ModelsOk data =>
      let cache :=
        {| lastUpdated := Some now;
           ttlHours := Some DEFAULT_CACHE_TTL_HOURS;
           models := Some (convert_models data) |} in
      match stored_config w with
      | Throw e => (Throw e, [FetchModels apiKey; LoadConfig])
      | Ok config =>
          let config' :=
            {| version := version config;
               defaultProvider := defaultProvider config;
               pricing := Some cache |} in
          let effects := [FetchModels apiKey; LoadConfig; SaveConfig config'] in
          match save_outcome w with
          | Throw e => (Throw e, effects)
          | Ok _ => (Ok cache, effects)
          end
      end
  end.

(** [ensurePricingAvailable(config, apiKey)] *)
Definition ensurePricingAvailable (w : World) (now : Z)
    (config : RouterConfig) (apiKey : string)
  : Result string PricingCache * list Effect :=
  if isPricingCacheValid now (pricing config)
  then
    match pricing config with
    | Some c => (Ok c, [])
    | None => (Throw "TypeError", [])
    end
  else fetchAndCachePricing w now apiKey.

End WithEnvironment.

End Pricing.

(** ** [src/providers/types.ts], [src/config/types.ts], [src/utils/errors.ts] *)

Inductive Capability : Type := text | image | audio | video | embedding.

#[global] Instance Capability_eq_dec : EqDecision Capability.
Proof. solve_decision. Defined.

(** The string a capability is in the source. *)
Definition Capability_name (c : Capability) : string :=
  match c with
  | text => "text"
  | image => "image"
  | audio => "audio"
  | video => "video"
  | embedding => "embedding"
  end.

Record ProviderMeta : Type := {
  id : string;
  name : string;
  version : string;
  capabilities : list Capability
}.

(** [ProviderConfig.models] *)
Record ModelsConfig : Type := {
  models_text : option string;
  models_image : option string;
  models_audio : option string;
  models_tts : option string;
  models_video : option string
}.

Record ProviderConfig : Type := {
  apiKey : string;
  baseUrl : option string;
  timeout : option Z;
  maxRetries : option Z;
  organization : option string;
  projectId : option string;
  region : option string;
  models : option ModelsConfig
}.

(** What can be thrown: the [ProviderError] of [src/utils/errors.ts]
    (message, provider, status code), the run time's [TypeError], and any
    other error a called function throws (a network failure, an aborted
    request). *)
Inductive Error : Type :=
| ProviderError (message : string) (provider : option string) (statusCode : option Z)
| TypeError (message : string)
| OtherError (name message : string).

(** ** [src/providers/base.ts] *)

Module Base.

(** What a concrete provider class fixes: its [meta] and its table of
    built-in models, [getModels]. *)
Record Adapter : Type := {
  meta : ProviderMeta;
  getModels : Capability -> list string
}.

(** The mutable fields of a [BaseProvider] object. *)
Record Provider : Type := {
  adapter : Adapter;
  config : option ProviderConfig;
  initialized : bool
}.

(** [new X()]: [config] unset, [initialized = false]. *)
Definition new (a : Adapter) : Provider :=
  {| adapter := a; config := None; initialized := false |}.

(** [initialize(config)] *)
Definition initialize (p : Provider) (c : ProviderConfig) : Provider :=
  {| adapter := adapter p; config := Some c; initialized := true |}.

(** [supports(capability)] *)
Definition supports (p : Provider) (c : Capability) : bool :=
  bool_decide (c ∈ capabilities (meta (adapter p))).

(** [ensureInitialized()] *)
Definition ensureInitialized (p : Provider) : Result Error unit :=
  if negb (initialized p)
  then Throw (ProviderError (name (meta (adapter p)) +:+ " provider not initialized")
                (Some (id (meta (adapter p)))) None)
  else Ok tt.

(** [ensureCapability(capability)] *)
Definition ensureCapability (p : Provider) (c : Capability) : Result Error unit :=
  if negb (supports p c)
  then Throw (ProviderError
                (name (meta (adapter p)) +:+ " does not support "
                 +:+ Capability_name c +:+ " generation")
                (Some (id (meta (adapter p)))) None)
  else Ok tt.

(** [configModels[modelKey]]: the keys [text], [image], [audio] and
    [video] of [ProviderConfig.models]. *)
Definition configModels_get (cm : ModelsConfig) (modelKey : Capability)
  : option string :=
  match modelKey with
  | text => models_text cm
  | image => models_image cm
  | audio => models_audio cm
  | video => models_video cm
  | embedding => None
  end.

(** [getModel(capability, requestModel)].  Both [if (requestModel)] and
    [if (configModels[modelKey])] are truthiness tests, which an empty
    string fails; reading [this.config.models] before [initialize] is a
    [TypeError]. *)
Definition getModel (p : Provider) (capability : Capability)
    (requestModel : option string) : Result Error string :=
  match JS.truthy requestModel with
  | Some m => Ok m
  | None =>
      match config p with
      | None => Throw (TypeError "this.config is undefined")
      | Some cfg =>
          let modelKey :=
            if decide (capability = embedding) then text else capability in
          match
            configModels ← models cfg;
            JS.truthy (configModels_get configModels modelKey)
          with
          | Some m => Ok m
          | None =>
              match getModels (adapter p) capability with
              | m :: _ => Ok m
              | [] =>
                  Throw (ProviderError
                           ("No model available for " +:+ Capability_name capability)
                           (Some (id (meta (adapter p)))) None)
              end
          end
      end
  end.

(** A [Response] as far as the code looks at it: [ok], [status], and the
    outcome of [text()]. *)
Record Response : Type := {
  ok : bool;
  status : Z;
  body : Result Error string
}.

Record RequestInit : Type := {
  method : string;
  headers : list (string * string);
  request_body : option string
}.

(** How a call of [fetch] ends: the promise resolves with a response or
    rejects with an error (network failure, timeout abort). *)
Inductive FetchOutcome : Type :=
| Resolved (r : Response)
| Rejected (e : Error).

(** What [fetchWithRetry] does to the outside world, in order. *)
Inductive Event : Type :=
| EvFetch (url : string) (options : RequestInit) (timeoutMs : Z)
| EvSleep (ms : Z).

Section Retry.

(** The network: how the [fetch] issued by iteration [i] of the loop
    ends. *)
Variable network : nat -> FetchOutcome.

(** The body of the [try] block in iteration [i]: the error caught, or
    the response returned, and the [fetch] issued if any. *)
Definition attempt (p : Provider) (url : string) (options : RequestInit)
    (i : nat) : Result Error Response * list Event :=
  match config p with
  | None => (Throw (TypeError "this.config is undefined"), [])
  | Some cfg =>
      let ev := EvFetch url options (default 60000 (timeout cfg)) in
      match network i with
      | Rejected e => (Throw e, [ev])
      | Resolved response =>
          if negb (ok response) then
            match body response with
            | Throw e => (Throw e, [ev])
            | Ok error =>
                (Throw (ProviderError
                          ("API error: " +:+ pretty (status response)
                           +:+ " - " +:+ error)
                          (Some (id (meta (adapter p))))
                          (Some (status response))),
                 [ev])
            end
          else (Ok response, [ev])
      end
  end.

(** The [for] loop of [fetchWithRetry], from iteration [i] on. [fuel]
    bounds the number of iterations; [None] means it ran out. *)
Fixpoint retry_loop (fuel : nat) (p : Provider) (url : string)
    (options : RequestInit) (maxRetries : Z) (i : nat)
    (lastError : option Error)
  : option (Result Error Response * list Event) :=
  if Z.of_nat i <? maxRetries then
    match fuel with
    | O => None
    | S fuel' =>
        match attempt p url options i with
        | (Ok response, evs) => Some (Ok response, evs)
        | (Throw error, evs) =>
            let sleep :=
              if Z.of_nat i <? maxRetries - 1
              then [EvSleep (1000 * (Z.of_nat i + 1))]
              else [] in
            match retry_loop fuel' p url options maxRetries (S i) (Some error) with
            | Some (res, evs') => Some (res, evs ++ sleep ++ evs')
            | None => None
            end
        end
    end
  else
    Some (Throw (default (ProviderError "Unknown error"
                            (Some (id (meta (adapter p)))) None)
                         lastError),
          []).

(** [fetchWithRetry(url, options, retries)] *)
Definition fetchWithRetry (p : Provider) (url : string)
    (options : RequestInit) (retries : option Z)
  : option (Result Error Response * list Event) :=
  match retries with
  | Some maxRetries =>
      retry_loop (Z.to_nat maxRetries) p url options maxRetries 0 None
  | None =>
      match config p with
      | None => Some (Throw (TypeError "this.config is undefined"), [])
      | Some cfg =>
          let maxRetries := default 3 (maxRetries cfg) in
          retry_loop (Z.to_nat maxRetries) p url options maxRetries 0 None
      end
  end.

End Retry.

End Base.

(** ** The three provider classes: [meta] and [getModels] *)

Module Adapters.

Definition OpenAIProvider : Base.Adapter :=
  {| Base.meta :=
       {| id := "openai"; name := "OpenAI"; version := "1.0.0";
          capabilities := [text; image; audio; embedding] |};
     Base.getModels := fun capability =>
       match capability with
       | text => ["gpt-4o"; "gpt-4o-mini"; "gpt-4-turbo"; "gpt-3.5-turbo"]
       | image => ["dall-e-3"; "dall-e-2"]
       | audio => ["tts-1"; "tts-1-hd"; "whisper-1"]
       | video => []
       | embedding => ["text-embedding-3-large"; "text-embedding-3-small"]
       end |}.

Definition GoogleProvider : Base.Adapter :=
  {| Base.meta :=
       {| id := "google"; name := "Google AI"; version := "1.0.0";
          capabilities := [text; image; video; embedding] |};
     Base.getModels := fun capability =>
       match capability with
       | text => ["gemini-1.5-pro"; "gemini-1.5-flash"; "gemini-pro"]
       | image => ["imagen-3.0-generate-001"]
       | audio => []
       | video => ["veo-001"]
       | embedding => ["text-embedding-004"]
       end |}.

Definition OpenRouterProvider : Base.Adapter :=
  {| Base.meta :=
       {| id := "openrouter"; name := "OpenRouter"; version := "1.0.0";
          capabilities := [text; image] |};
     Base.getModels := fun capability =>
       match capability with
       | text =>
           ["anthropic/claude-sonnet-4"; "anthropic/claude-4.5-haiku";
            "openai/gpt-5.1"; "openai/gpt-5"; "openai/gpt-5-mini";
            "google/gemini-3-pro-preview"; "google/gemini-3-flash-preview";
            "google/gemini-2.5-flash"; "meta-llama/llama-3.1-405b-instruct";
            "meta-llama/llama-3.1-70b-instruct"; "mistralai/mistral-large";
            "deepseek/deepseek-chat"]
       | image =>
           ["openai/dall-e-3"; "google/gemini-2.5-flash-image";
            "stability/stable-diffusion-xl"]
       | audio => []
       | video => []
       | embedding =>
           ["openai/text-embedding-3-large"; "openai/text-embedding-3-small"]
       end |}.

End Adapters.

(** ** [src/providers/index.ts]: the provider registry *)

Module Registry.

(** A [ProviderFactory] is [() => new X()] for a provider class [X]; it
    is represented by the class. *)
Definition ProviderFactory : Type := Base.Adapter.

(** A reference to a provider object: its index in the heap. *)
Definition ref : Type := nat.

(** The registry and the provider objects allocated so far.  [providers]
    is only ever looked up by key; [factories] is also iterated, in
    insertion order, hence a list of entries. *)
Record State : Type := {
  heap : list Base.Provider;
  providers : gmap string ref;
  factories : list (string * ProviderFactory)
}.

(** [Map.prototype.get] on [factories]. *)
Fixpoint factories_get (fs : list (string * ProviderFactory)) (id : string)
  : option ProviderFactory :=
  match fs with
  | [] => None
  | (k, f) :: fs' => if decide (k = id) then Some f else factories_get fs' id
  end.

(** [Map.prototype.set] on [factories]: an existing key keeps its place,
    a new key goes last. *)
Fixpoint factories_set (fs : list (string * ProviderFactory)) (id : string)
    (factory : ProviderFactory) : list (string * ProviderFactory) :=
  match fs with
  | [] => [(id, factory)]
  | (k, f) :: fs' =>
      if decide (k = id) then (k, factory) :: fs'
      else (k, f) :: factories_set fs' id factory
  end.

(** [registerFactory(id, factory)] *)
Definition registerFactory (st : State) (id : string) (factory : ProviderFactory)
  : State :=
  {| heap := heap st;
     providers := providers st;
     factories := factories_set (factories st) id factory |}.

(** The constructor. *)
Definition init : State :=
  let st := {| heap := []; providers := ∅; factories := [] |} in
  let st := registerFactory st "openai" Adapters.OpenAIProvider in
  let st := registerFactory st "google" Adapters.GoogleProvider in
  registerFactory st "openrouter" Adapters.OpenRouterProvider.

(** [getProvider(id, config)], run to completion. *)
Definition getProvider (st : State) (id : string) (config : option ProviderConfig)
  : Result Error ref * State :=
  match providers st !! id with
  | Some cached => (Ok cached, st)
  | None =>
      match factories_get (factories st) id with
      | None => (Throw (ProviderError ("Unknown provider: " +:+ id) (Some id) None), st)
      | Some factory =>
          let provider := Base.new factory in
          let provider :=
            match config with
            | Some c => Base.initialize provider c
            | None => provider
            end in
          let r := length (heap st) in
          (Ok r,
           {| heap := heap st ++ [provider];
              providers := <[id := r]> (providers st);
              factories := factories st |})
      end
  end.

(** [getProvider] is an [async] function: when the provider is not cached
    and a configuration is passed, it stops at
    [await provider.initialize(config)], and other calls may run before it
    goes on.  [getProvider_start] is the part before the [await]: either the
    call is over, or the new provider, already initialized, waits to be
    cached.  [getProvider_resume] is the part after the [await]. *)
Inductive Started : Type :=
| Returned (res : Result Error ref)
| Suspended (provider : ref).

Definition getProvider_start (st : State) (id : string)
    (config : option ProviderConfig) : Started * State :=
  match providers st !! id with
  | Some cached => (Returned (Ok cached), st)
  | None =>
      match factories_get (factories st) id with
      | None =>
          (Returned (Throw (ProviderError ("Unknown provider: " +:+ id) (Some id) None)),
           st)
      | Some factory =>
          let r := length (heap st) in
          match config with
          | Some c =>
              (Suspended r,
               {| heap := heap st ++ [Base.initialize (Base.new factory) c];
                  providers := providers st;
                  factories := factories st |})
          | None =>
              (Returned (Ok r),
               {| heap := heap st ++ [Base.new factory];
                  providers := <[id := r]> (providers st);
                  factories := factories st |})
          end
      end
  end.

Definition getProvider_resume (st : State) (id : string) (provider : ref)
  : Result Error ref * State :=
  (Ok provider,
   {| heap := heap st;
      providers := <[id := provider]> (providers st);
      factories := factories st |}).

(** [listProviders()] *)
Definition listProviders (st : State) : list string :=
  map fst (factories st).

(** [getProviderInfo(id)]; the provider built to read [meta] stays on
    the heap, unreferenced. *)
Definition getProviderInfo (st : State) (id : string)
  : option ProviderMeta * State :=
  match factories_get (factories st) id with
  | None => (None, st)
  | Some factory =>
      let provider := Base.new factory in
      (Some (Base.meta (Base.adapter provider)),
       {| heap := heap st ++ [provider];
          providers := providers st;
          factories := factories st |})
  end.

(** [findProvidersForCapability(capability)] *)
Definition findProvidersForCapability (st : State) (capability : Capability)
  : list string * State :=
  let built := map (fun e => (fst e, Base.new (snd e))) (factories st) in
  (map fst (filter (fun e => Base.supports (snd e) capability = true) built),
   {| heap := heap st ++ map snd built;
      providers := providers st;
      factories := factories st |}).

(** A call of a method of the registry. *)
Inductive Call : Type :=
| CallRegisterFactory (id : string) (factory : ProviderFactory)
| CallGetProvider (id : string) (config : option ProviderConfig)
| CallListProviders
| CallGetProviderInfo (id : string)
| CallFindProvidersForCapability (capability : Capability).

Definition step (st : State) (c : Call) : State :=
  match c with
  | CallRegisterFactory id factory => registerFactory st id factory
  | CallGetProvider id config => snd (getProvider st id config)
  | CallListProviders => st
  | CallGetProviderInfo id => snd (getProviderInfo st id)
  | CallFindProvidersForCapability capability =>
      snd (findProvidersForCapability st capability)
  end.

(** A sequence of calls, each run to completion before the next. *)
Definition run (st : State) (calls : list Call) : State :=
  foldl step st calls.

End Registry.

(** ** The built-in [JSON.parse] *)

Module Json.

(** A parsed JSON text.  A number keeps its sign, the integer [mantissa]
    made of all its digits, and the decimal [exponent]: its value is
    [mantissa * 10 ^ exponent].  An object keeps its members as written. *)
Inductive json : Type :=
| JNull
| JBool (b : bool)
| JNumber (negative : bool) (mantissa : Z) (exponent : Z)
| JString (s : string)
| JArray (elements : list json)
| JObject (members : list (string * json)).

Inductive token : Type :=
| TLBrace | TRBrace | TLBracket | TRBracket | TColon | TComma
| TValue (v : json).

Definition code (c : ascii) : Z := Z.of_N (Ascii.N_of_ascii c).

Definition char_of (z : Z) : ascii := Ascii.ascii_of_N (Z.to_N z).

Definition is_digit (c : ascii) : bool := (48 <=? code c) && (code c <=? 57).

Definition digit_value (c : ascii) : Z := code c - 48.

(** The value of a hexadecimal digit. *)
Definition hex_value (c : ascii) : option Z :=
  let n := code c in
  if (48 <=? n) && (n <=? 57) then Some (n - 48)
  else if (65 <=? n) && (n <=? 70) then Some (n - 55)
  else if (97 <=? n) && (n <=? 102) then Some (n - 87)
  else None.

(** The UTF-8 encoding of a code point (a lone surrogate is encoded like
    any other code point below 0x10000). *)
Definition utf8 (cp : Z) : string :=
  if cp <? 128 then String (char_of cp) ""
  else if cp <? 2048 then
    String (char_of (192 + cp / 64)) (String (char_of (128 + cp mod 64)) "")
  else if cp <? 65536 then
    String (char_of (224 + cp / 4096))
      (String (char_of (128 + (cp / 64) mod 64))
         (String (char_of (128 + cp mod 64)) ""))
  else
    String (char_of (240 + cp / 262144))
      (String (char_of (128 + (cp / 4096) mod 64))
         (String (char_of (128 + (cp / 64) mod 64))
            (String (char_of (128 + cp mod 64)) ""))).

(** What a string literal contributes: a character of the text, or the
    code unit of a [\uXXXX] escape. *)
Inductive unit16 : Type :=
| Plain (c : ascii)
| Escaped (u : Z).

Definition is_high_surrogate (u : Z) : bool := (55296 <=? u) && (u <=? 56319).
Definition is_low_surrogate (u : Z) : bool := (56320 <=? u) && (u <=? 57343).

(** The text of a string literal; two escapes that form a surrogate pair
    denote one code point. *)
Fixpoint decode_units (l : list unit16) : string :=
  match l with
  | [] => ""
  | Plain c :: r => String c (decode_units r)
  | Escaped hi :: r =>
      match r with
      | Escaped lo :: r' =>
          if is_high_surrogate hi && is_low_surrogate lo
          then utf8 (65536 + (hi - 55296) * 1024 + (lo - 56320)) +:+ decode_units r'
          else utf8 hi +:+ decode_units r
      | _ => utf8 hi +:+ decode_units r
      end
  end.

(** Where the scanner is inside a number. *)
Inductive num_state : Type :=
| NMinus | NZero | NInt | NDot | NFrac | NE | NESign | NExp.

Record num : Type := {
  n_state : num_state;
  n_negative : bool;
  n_mantissa : Z;
  n_fraction : Z;
  n_exp_negative : bool;
  n_exp : Z
}.

(** Where the scanner is inside a string literal. *)
Inductive str_state : Type :=
| SPlain
| SEscape
| SHex (count : nat) (value : Z).

Inductive lstate : Type :=
| LStart
| LString (acc : list unit16) (st : str_state)
| LNumber (n : num)
| LLiteral (rest : string) (v : json).

Definition num_start (st : num_state) (negative : bool) (mantissa : Z) : lstate :=
  LNumber {| n_state := st; n_negative := negative; n_mantissa := mantissa;
             n_fraction := 0; n_exp_negative := false; n_exp := 0 |}.

Definition num_with (n : num) (st : num_state) : num :=
  {| n_state := st; n_negative := n_negative n; n_mantissa := n_mantissa n;
     n_fraction := n_fraction n; n_exp_negative := n_exp_negative n;
     n_exp := n_exp n |}.

Definition num_value (n : num) : json :=
  JNumber (n_negative n) (n_mantissa n)
    ((if n_exp_negative n then - n_exp n else n_exp n) - n_fraction n).

(** The scanner at the start of a token. *)
Definition start_char (c : ascii) : option (lstate * list token) :=
  match c with
  | " "%char | "009"%char | "010"%char | "013"%char => Some (LStart, [])
  | "{"%char => Some (LStart, [TLBrace])
  | "}"%char => Some (LStart, [TRBrace])
  | "["%char => Some (LStart, [TLBracket])
  | "]"%char => Some (LStart, [TRBracket])
  | ":"%char => Some (LStart, [TColon])
  | ","%char => Some (LStart, [TComma])
  | "034"%char => Some (LString [] SPlain, [])
  | "-"%char => Some (num_start NMinus true 0, [])
  | "0"%char => Some (num_start NZero false 0, [])
  | "t"%char => Some (LLiteral "rue" (JBool true), [])
  | "f"%char => Some (LLiteral "alse" (JBool false), [])
  | "n"%char => Some (LLiteral "ull" JNull, [])
  | _ =>
      if is_digit c then Some (num_start NInt false (digit_value c), [])
      else None
  end.

(** A number ends before [c]: emit it and scan [c] afresh. *)
Definition num_finish (n : num) (c : ascii) : option (lstate * list token) :=
  match start_char c with
  | Some (st, toks) => Some (st, TValue (num_value n) :: toks)
  | None => None
  end.

Definition is_e (c : ascii) : bool :=
  Ascii.eqb c "e"%char || Ascii.eqb c "E"%char.

Definition num_char (n : num) (c : ascii) : option (lstate * list token) :=
  let digit st :=
    Some (LNumber {| n_state := st; n_negative := n_negative n;
                     n_mantissa := n_mantissa n * 10 + digit_value c;
                     n_fraction := n_fraction n
                                   + (match st with NFrac => 1 | _ => 0 end);
                     n_exp_negative := n_exp_negative n; n_exp := n_exp n |}, [])
  in
  let exp_digit :=
    Some (LNumber {| n_state := NExp; n_negative := n_negative n;
                     n_mantissa := n_mantissa n; n_fraction := n_fraction n;
                     n_exp_negative := n_exp_negative n;
                     n_exp := n_exp n * 10 + digit_value c |}, [])
  in
  match n_state n with
  | NMinus =>
      if Ascii.eqb c "0"%char then Some (LNumber (num_with n NZero), [])
      else if is_digit c then digit NInt
      else None
  | NZero =>
      if Ascii.eqb c "."%char then Some (LNumber (num_with n NDot), [])
      else if is_e c then Some (LNumber (num_with n NE), [])
      else num_finish n c
  | NInt =>
      if is_digit c then digit NInt
      else if Ascii.eqb c "."%char then Some (LNumber (num_with n NDot), [])
      else if is_e c then Some (LNumber (num_with n NE), [])
      else num_finish n c
  | NDot => if is_digit c then digit NFrac else None
  | NFrac =>
      if is_digit c then digit NFrac
      else if is_e c then Some (LNumber (num_with n NE), [])
      else num_finish n c
  | NE =>
      if Ascii.eqb c "+"%char then Some (LNumber (num_with n NESign), [])
      else if Ascii.eqb c "-"%char then
        Some (LNumber {| n_state := NESign; n_negative := n_negative n;
                         n_mantissa := n_mantissa n; n_fraction := n_fraction n;
                         n_exp_negative := true; n_exp := n_exp n |}, [])
      else if is_digit c then exp_digit
      else None
  | NESign => if is_digit c then exp_digit else None
  | NExp => if is_digit c then exp_digit else num_finish n c
  end.

Definition str_char (acc : list unit16) (st : str_state) (c : ascii)
  : option (lstate * list token) :=
  match st with
  | SPlain =>
      if Ascii.eqb c "034"%char then
        Some (LStart, [TValue (JString (decode_units (rev acc)))])
      else if Ascii.eqb c "\"%char then Some (LString acc SEscape, [])
      else if code c <? 32 then None
      else Some (LString (Plain c :: acc) SPlain, [])
  | SEscape =>
      let plain d := Some (LString (Plain d :: acc) SPlain, []) in
      match c with
      | "034"%char => plain "034"%char
      | "\"%char => plain "\"%char
      | "/"%char => plain "/"%char
      | "b"%char => plain "008"%char
      | "f"%char => plain "012"%char
      | "n"%char => plain "010"%char
      | "r"%char => plain "013"%char
      | "t"%char => plain "009"%char
      | "u"%char => Some (LString acc (SHex 0 0), [])
      | _ => None
      end
  | SHex count value =>
      match hex_value c with
      | None => None
      | Some h =>
          let value := value * 16 + h in
          if (count =? 3)%nat
          then Some (LString (Escaped value :: acc) SPlain, [])
          else Some (LString acc (SHex (S count) value), [])
      end
  end.

Definition lit_char (rest : string) (v : json) (c : ascii)
  : option (lstate * list token) :=
  match rest with
  | String d r =>
      if Ascii.eqb c d then
        match r with
        | EmptyString => Some (LStart, [TValue v])
        | _ => Some (LLiteral r v, [])
        end
      else None
  | EmptyString => None
  end.

(** One character of the text: the next state and the tokens completed. *)
Definition lex_step (st : lstate) (c : ascii) : option (lstate * list token) :=
  match st with
  | LStart => start_char c
  | LString acc s => str_char acc s c
  | LNumber n => num_char n c
  | LLiteral rest v => lit_char rest v c
  end.

(** The end of the text. *)
Definition lex_end (st : lstate) : option (list token) :=
  match st with
  | LStart => Some []
  | LNumber n =>
      match n_state n with
      | NZero | NInt | NFrac | NExp => Some [TValue (num_value n)]
      | _ => None
      end
  | _ => None
  end.

Fixpoint lex (st : lstate) (s : string) : option (list token) :=
  match s with
  | EmptyString => lex_end st
  | String c r =>
      match lex_step st c with
      | None => None
      | Some (st', toks) =>
          match lex st' r with
          | Some rest => Some (toks ++ rest)
          | None => None
          end
      end
  end.

(** An array or object that is still open: the elements or members read
    so far, last first, and for an object the key whose value is being
    read. *)
Inductive frame : Type :=
| FArray (done : list json)
| FObject (done : list (string * json)) (key : string).

(** What the parser expects next. *)
Inductive mode : Type :=
| MValue (first : bool)
| MKey (first : bool) (done : list (string * json))
| MColon (done : list (string * json)) (key : string)
| MAfter (v : json).

Definition parse_step (st : mode * list frame) (t : token)
  : option (mode * list frame) :=
  let '(m, stack) := st in
  match m with
  | MValue first =>
      match t with
      | TValue v => Some (MAfter v, stack)
      | TLBracket => Some (MValue true, FArray [] :: stack)
      | TLBrace => Some (MKey true [], stack)
      | TRBracket =>
          match first, stack with
          | true, FArray [] :: stack' => Some (MAfter (JArray []), stack')
          | _, _ => None
          end
      | _ => None
      end
  | MKey first done =>
      match t with
      | TValue (JString k) => Some (MColon done k, stack)
      | TRBrace => if first then Some (MAfter (JObject []), stack) else None
      | _ => None
      end
  | MColon done k =>
      match t with
      | TColon => Some (MValue false, FObject done k :: stack)
      | _ => None
      end
  | MAfter v =>
      match stack with
      | FArray done :: stack' =>
          match t with
          | TComma => Some (MValue false, FArray (v :: done) :: stack')
          | TRBracket => Some (MAfter (JArray (rev (v :: done))), stack')
          | _ => None
          end
      | FObject done k :: stack' =>
          match t with
          | TComma => Some (MKey false ((k, v) :: done), stack')
          | TRBrace => Some (MAfter (JObject (rev ((k, v) :: done))), stack')
          | _ => None
          end
      | [] => None
      end
  end.

Fixpoint parse_tokens (st : mode * list frame) (ts : list token) : option json :=
  match ts with
  | [] =>
      match st with
      | (MAfter v, []) => Some v
      | _ => None
      end
  | t :: ts' =>
      match parse_step st t with
      | Some st' => parse_tokens st' ts'
      | None => None
      end
  end.

(** [JSON.parse(text)]; [None] stands for the [SyntaxError]. *)
Definition JSON_parse (text : string) : option json :=
  match lex LStart text with
  | Some ts => parse_tokens (MValue false, []) ts
  | None => None
  end.

(** The number is [0] once rounded to binary64: its digits are all 0, or
    its value is at most 2^-1075. *)
Definition number_is_zero (mantissa exponent : Z) : bool :=
  (mantissa =? 0)
  || ((exponent <? 0) && (mantissa * 2 ^ 1075 <=? 10 ^ (- exponent))).

(** Truthiness of a parsed value. *)
Definition truthy (v : json) : bool :=
  match v with
  | JNull => false
  | JBool b => b
  | JNumber _ m e => negb (number_is_zero m e)
  | JString s => JS.truthy_string s
  | JArray _ | JObject _ => true
  end.

(** The value of the member [k] of an object: the last one written. *)
Fixpoint member (k : string) (ms : list (string * json)) : option json :=
  match ms with
  | [] => None
  | (k', v) :: ms' =>
      match member k ms' with
      | Some v' => Some v'
      | None => if String.eqb k' k then Some v else None
      end
  end.

(** [v.k] for a value [v] that is neither [null] nor [undefined], and a
    key [k] that no prototype defines. *)
Definition get (k : string) (v : json) : option json :=
  match v with
  | JObject ms => member k ms
  | _ => None
  end.

(** [v[0]] for a value [v] that is neither [null] nor [undefined].  On a
    non-empty string it is its first character; only its being a string
    matters to the callers. *)
Definition get0 (v : json) : option json :=
  match v with
  | JArray (x :: _) => Some x
  | JObject ms => member "0" ms
  | JString (String c _) => Some (JString (String c ""))
  | _ => None
  end.

(** [o?.access]: [undefined] when [o] is [undefined] or [null]. *)
Definition chain (o : option json) (access : json -> option json) : option json :=
  match o with
  | None | Some JNull => None
  | Some v => access v
  end.

End Json.

(** ** The SSE decoders of the three providers *)

Module SSE.
Import Json.

(** How a call of [reader.read()] ends while the stream is not done: with
    a chunk of bytes, or with an error.  A stream is the list of these
    outcomes; after the last one the reader reports [done]. *)
Inductive ReadResult : Type :=
| Chunk (value : string)
| ReadError (e : Error).

(** What the generator does, in order. *)
Inductive StreamEvent : Type :=
| Yield (chunk : json)
| ReleaseLock.

(** [decoder.decode(value, { stream: true })]: text is represented by its
    UTF-8 encoding, so decoding well-formed input changes nothing. *)
Definition TextDecoder_decode (value : string) : string := value.

Definition newline : ascii := "010"%char.

(** [json.choices?.[0]?.delta?.content]; reading [choices] of [null]
    throws. *)
Definition openai_content (j : json) : Result Error (option json) :=
  match j with
  | JNull => Throw (TypeError "null is not an object (evaluating 'json.choices')")
  | _ => Ok (chain (chain (chain (get "choices" j) get0) (get "delta")) (get "content"))
  end.

(** [json.candidates?.[0]?.content?.parts?.[0]?.text] *)
Definition google_text (j : json) : Result Error (option json) :=
  match j with
  | JNull => Throw (TypeError "null is not an object (evaluating 'json.candidates')")
  | _ =>
      Ok (chain (chain (chain (chain (chain (get "candidates" j) get0)
                                 (get "content")) (get "parts")) get0)
            (get "text"))
  end.

(** The [try] block on a payload: what is yielded.  A [SyntaxError] of
    [JSON.parse] and a [TypeError] of the field access are caught and
    dropped. *)
Definition payload_chunks (extract : json -> Result Error (option json))
    (payload : string) : list json :=
  match JSON_parse payload with
  | None => []
  | Some j =>
      match extract j with
      | Throw _ => []
      | Ok None => []
      | Ok (Some content) => if truthy content then [content] else []
      end
  end.

(** The body of [for (const line of lines)] in [parseSSEStream] of the
    OpenAI and OpenRouter providers: what a line yields. *)
Definition openai_line (line : string) : list json :=
  if JS.startsWith line "data: " && negb (String.eqb line "data: [DONE]")
  then payload_chunks openai_content (JS.slice 6 line)
  else [].

(** The same in [parseGoogleSSEStream]. *)
Definition google_line (line : string) : list json :=
  if JS.startsWith line "data: "
  then payload_chunks google_text (JS.slice 6 line)
  else [].

(** The [while (true)] loop: the chunks yielded, in order, and how the
    loop ends. *)
Fixpoint read_loop (on_line : string -> list json) (reads : list ReadResult)
    (buffer : string) : list json * Result Error unit :=
  match reads with
  | [] => ([], Ok tt)
  | ReadError e :: _ => ([], Throw e)
  | Chunk value :: reads' =>
      let buffer := buffer +:+ TextDecoder_decode value in
      let lines := JS.split newline buffer in
      let buffer := List.last lines "" in
      let lines := removelast lines in
      let '(chunks, res) := read_loop on_line reads' buffer in
      (flat_map on_line lines ++ chunks, res)
  end.

(** The generator run to its end: [try { loop } finally { releaseLock }]. *)
Definition decode_stream (on_line : string -> list json) (reads : list ReadResult)
  : list StreamEvent * Result Error unit :=
  let '(chunks, res) := read_loop on_line reads "" in
  (map Yield chunks ++ [ReleaseLock], res).

(** [OpenAIProvider.parseSSEStream] and [OpenRouterProvider.parseSSEStream]
    (the same text), and [GoogleProvider.parseGoogleSSEStream]. *)
Definition OpenAI_parseSSEStream := decode_stream openai_line.
Definition OpenRouter_parseSSEStream := decode_stream openai_line.
Definition parseGoogleSSEStream := decode_stream google_line.

End SSE.

(** ** Saving the generated images ([src/utils/file.ts], [generateImage]) *)

Module Images.

Record SaveOptions : Type := {
  directory : string;
  filename : option string;
  type : string;
  format : string
}.

(** What [saveMedia] asks of the file system, in the order of the code;
    a request that fails is listed as well. *)
Inductive FsEffect : Type :=
| Mkdir (directory : string)
| Write (filepath : string) (data : option string).

Record ImageResult : Type := {
  url : option string;
  base64 : option string;
  filePath : option string;
  revisedPrompt : option string
}.

(** The text before the last dot and the text after it. *)
Fixpoint split_last_dot (s : string) : option (string * string) :=
  match s with
  | EmptyString => None
  | String c r =>
      match split_last_dot r with
      | Some (before, after) => Some (String c before, after)
      | None => if Ascii.eqb c "."%char then Some (EmptyString, r) else None
      end
  end.

(** [outputPath.replace(/(\.[^.]+)$/, `_${index}$1`)]: the pattern matches
    from the last dot to the end, when at least one character follows
    that dot. *)
Definition suffixed (outputPath : string) (index : nat) : string :=
  match split_last_dot outputPath with
  | Some (before, String c ext) =>
      before +:+ "_" +:+ pretty index +:+ "." +:+ String c ext
  | _ => outputPath
  end.

(** The file system: how [mkdir -p] of a directory and [Bun.write] to a
    path end.  It answers alike whenever it is asked the same. *)
Class FileSystem : Type := {
  Bun_mkdir : string -> Result Error unit;
  Bun_write : string -> Result Error unit
}.

(** [atob(data)] succeeds: once the ASCII white space is removed, and up
    to two [=] at the end when the length is a multiple of 4, the length
    is not 1 modulo 4 and every character is a letter, a digit, [+] or
    [/]. *)
Definition is_ascii_whitespace (c : ascii) : bool :=
  let n := Ascii.nat_of_ascii c in
  (n =? 9)%nat || (n =? 10)%nat || (n =? 12)%nat || (n =? 13)%nat || (n =? 32)%nat.

Definition is_base64_char (c : ascii) : bool :=
  let n := Ascii.nat_of_ascii c in
  ((65 <=? n)%nat && (n <=? 90)%nat) || ((97 <=? n)%nat && (n <=? 122)%nat)
  || ((48 <=? n)%nat && (n <=? 57)%nat) || (n =? 43)%nat || (n =? 47)%nat.

(** The characters left once up to [n] characters [=] are taken from the
    front of a reversed text. *)
Fixpoint drop_padding (n : nat) (reversed : list ascii) : list ascii :=
  match n, reversed with
  | S n', c :: r => if Ascii.eqb c "="%char then drop_padding n' r else reversed
  | _, _ => reversed
  end.

Definition atob_ok (data : string) : bool :=
  let text :=
    List.filter (fun c => negb (is_ascii_whitespace c)) (String.list_ascii_of_string data) in
  let text :=
    if (List.length text mod 4 =? 0)%nat then rev (drop_padding 2 (rev text))
    else text in
  negb (List.length text mod 4 =? 1)%nat && forallb is_base64_char text.

Section WithPlatform.

Context {fs : FileSystem}.

(** [path.join] and the value of [Date.now()]. *)
Variable join : string -> string -> string.
Variable timestamp : Z.

(** The two regular-expression searches of the OpenRouter provider in a
    text: the first group of [/data:image\/[^;]+;base64,([^"'\s]+)/], and
    the match of [/https?:\/\/[^\s"']+\.(png|jpg|jpeg|webp|gif)/i]. *)
Variable base64Match : string -> option string.
Variable urlMatch : string -> option string.

(** [saveMedia(data, options)] for a [data] that is a string or
    [undefined]: the path written, or the error thrown, and what was
    asked of the file system.  [atob] throws on a text that is not
    base64, and [Bun.write] on [undefined]. *)
Definition saveMedia (data : option string) (options : SaveOptions)
  : Result Error string * list FsEffect :=
  let filename :=
    default (type options +:+ "_" +:+ pretty timestamp +:+ "." +:+ format options)
            (filename options) in
  let filepath := join (directory options) filename in
  match Bun_mkdir (directory options) with
  | Throw e => (Throw e, [Mkdir (directory options)])
  | Ok _ =>
      match data with
      | None =>
          (Throw (TypeError "data must be a string, a Blob or a typed array"),
           [Mkdir (directory options)])
      | Some encoded =>
          if atob_ok encoded then
            match Bun_write filepath with
            | Throw e =>
                (Throw e, [Mkdir (directory options); Write filepath data])
            | Ok _ =>
                (Ok filepath, [Mkdir (directory options); Write filepath data])
            end
          else
            (Throw (OtherError "InvalidCharacterError"
                      "The string contains invalid characters."),
             [Mkdir (directory options)])
      end
  end.

Definition image_options (outputPath : string) : SaveOptions :=
  {| directory := "."; filename := Some outputPath; type := "image";
     format := "png" |}.

(** The callback of [data.data.map] in [OpenAIProvider.generateImage] and
    of [data.predictions.map] in [GoogleProvider.generateImage], for the
    item [index] of [count]; [revised] is the item's [revised_prompt]
    (OpenAI only). *)
Definition save_item (outputPath : option string) (count : nat) (index : nat)
    (b64 : string) (revised : option string)
  : Result Error ImageResult * list FsEffect :=
  match JS.truthy outputPath with
  | Some requested =>
      let outputPath :=
        if (1 <? count)%nat then suffixed requested index else requested in
      match saveMedia (Some b64) (image_options outputPath) with
      | (Ok filePath, effects) =>
          (Ok {| url := None; base64 := Some b64; filePath := Some filePath;
                 revisedPrompt := revised |}, effects)
      | (Throw e, effects) => (Throw e, effects)
      end
  | None =>
      (Ok {| url := None; base64 := Some b64; filePath := None;
             revisedPrompt := revised |}, [])
  end.

(** The callbacks of all the items: each runs whether or not another
    one throws.  The effects are listed callback by callback; in which
    order they happen is up to the scheduler, and so is, once a callback
    has thrown, whether the caller lets the others finish. *)
Fixpoint save_items (outputPath : option string) (count : nat) (index : nat)
    (items : list (string * option string))
  : list (Result Error ImageResult) * list FsEffect :=
  match items with
  | [] => ([], [])
  | (b64, revised) :: items' =>
      let '(r, e) := save_item outputPath count index b64 revised in
      let '(rs, es) := save_items outputPath count (S index) items' in
      (r :: rs, e ++ es)
  end.

(** [await Promise.all(promises)]: the values of all, or the error of one
    that rejects: the first to reject, for which the first in the list
    stands here. *)
Fixpoint Promise_all {A : Type} (outcomes : list (Result Error A))
  : Result Error (list A) :=
  match outcomes with
  | [] => Ok []
  | Throw e :: _ => Throw e
  | Ok a :: outcomes' =>
      match Promise_all outcomes' with
      | Ok l => Ok (a :: l)
      | Throw e => Throw e
      end
  end.

(** [OpenAIProvider.generateImage] from the parsed response on, for a
    response of the declared type: [data] holds [b64_json] and
    [revised_prompt] of each item. *)
Definition OpenAI_generateImage_results (outputPath : option string)
    (data : list (string * option string))
  : Result Error (list ImageResult) * list FsEffect :=
  let '(outcomes, effects) := save_items outputPath (length data) 0 data in
  (Promise_all outcomes, effects).

(** [GoogleProvider.generateImage] from the parsed response on, for a
    response of the declared type: [predictions] holds
    [bytesBase64Encoded] of each item. *)
Definition Google_generateImage_results (outputPath : option string)
    (predictions : list string)
  : Result Error (list ImageResult) * list FsEffect :=
  let '(outcomes, effects) :=
    save_items outputPath (length predictions) 0
      (map (fun b64 => (b64, None)) predictions) in
  (Promise_all outcomes, effects).

(** An element of [message.images] or of an array [message.content]:
    its [type] and its [image_url?.url]. *)
Record ImagePart : Type := {
  part_type : string;
  image_url : option string
}.

Inductive Content : Type :=
| ContentText (s : string)
| ContentParts (parts : list ImagePart).

Record Message : Type := {
  content : option Content;
  images : option (list ImagePart)
}.

(** What the OpenRouter provider does with one image URL. *)
Definition OpenRouter_image (outputPath : option string) (u : string)
  : Result Error ImageResult * list FsEffect :=
  if JS.startsWith u "data:image" then
    let base64Data := JS.split ","%char u !! 1%nat in
    match JS.truthy outputPath with
    | Some requested =>
        match saveMedia base64Data (image_options requested) with
        | (Ok filePath, effects) =>
            (Ok {| url := None; base64 := base64Data; filePath := Some filePath;
                   revisedPrompt := None |}, effects)
        | (Throw e, effects) => (Throw e, effects)
        end
    | None =>
        (Ok {| url := None; base64 := base64Data; filePath := None;
               revisedPrompt := None |}, [])
    end
  else
    (Ok {| url := Some u; base64 := None; filePath := None;
           revisedPrompt := None |}, []).

(** The two [for] loops over image parts, which stop at the first save
    that throws; [check_type] is the test [part.type === "image_url"] of
    the loop over [message.content]. *)
Fixpoint OpenRouter_parts (check_type : bool) (outputPath : option string)
    (parts : list ImagePart) : Result Error (list ImageResult) * list FsEffect :=
  match parts with
  | [] => (Ok [], [])
  | part :: parts' =>
      if (negb check_type || String.eqb (part_type part) "image_url")
      then
        match JS.truthy (image_url part) with
        | Some u =>
            match OpenRouter_image outputPath u with
            | (Throw e, es) => (Throw e, es)
            | (Ok r, es) =>
                match OpenRouter_parts check_type outputPath parts' with
                | (Ok rs, es') => (Ok (r :: rs), es ++ es')
                | (Throw e, es') => (Throw e, es ++ es')
                end
            end
        | None => OpenRouter_parts check_type outputPath parts'
        end
      else OpenRouter_parts check_type outputPath parts'
  end.

(** [OpenRouterProvider.generateImage] from [message] on; [raw] is
    [JSON.stringify(data)]. *)
Definition OpenRouter_generateImage_results (outputPath : option string)
    (message : Message) (raw : string)
  : Result Error (list ImageResult) * list FsEffect :=
  match
    match images message with
    | Some imgs => OpenRouter_parts false outputPath imgs
    | None => (Ok [], [])
    end
  with
  | (Throw e, effects) => (Throw e, effects)
  | (Ok results, effects) =>
      match
        match results, content message with
        | [], Some (ContentText (String c t)) =>
            let text := String c t in
            match base64Match text, urlMatch text with
            | Some base64Data, _ =>
                match JS.truthy outputPath with
                | Some requested =>
                    match saveMedia (Some base64Data) (image_options requested) with
                    | (Ok filePath, e) =>
                        (Ok [{| url := None; base64 := Some base64Data;
                                filePath := Some filePath;
                                revisedPrompt := None |}],
                         effects ++ e)
                    | (Throw err, e) => (Throw err, effects ++ e)
                    end
                | None =>
                    (Ok [{| url := None; base64 := Some base64Data;
                            filePath := None; revisedPrompt := None |}], effects)
                end
            | None, Some u =>
                (Ok [{| url := Some u; base64 := None; filePath := None;
                        revisedPrompt := None |}], effects)
            | None, None => (Ok [], effects)
            end
        | [], Some (ContentParts parts) =>
            let '(rs, es) := OpenRouter_parts true outputPath parts in
            (rs, effects ++ es)
        | _, _ => (Ok results, effects)
        end
      with
      | (Throw e, effects) => (Throw e, effects)
      | (Ok [], effects) =>
          (Throw (ProviderError ("No image found in response: " +:+ JS.take 500 raw)
                    (Some "openrouter") None),
           effects)
      | (Ok results, effects) => (Ok results, effects)
      end
  end.

End WithPlatform.

(** The file system that carries out whatever it is asked. *)
Definition reliable : FileSystem :=
  {| Bun_mkdir := fun _ => Ok tt; Bun_write := fun _ => Ok tt |}.

(** The file names a run of [generateImage] asked to write, in order. *)
Definition written (effects : list FsEffect) : list string :=
  omap (fun e => match e with Write f _ => Some f | Mkdir _ => None end) effects.

End Images.

(** ** Text generation: [generateText] and [generateTextStream] of the
    three providers *)

Module TextGeneration.
Import Base Json SSE.

(** [TextGenerationRequest]; its [stream] and [options] are read by no
    provider. *)
Record TextGenerationRequest : Type := {
  prompt : string;
  model : option string;
  systemPrompt : option string;
  maxTokens : option float;
  temperature : option float
}.

(** [UsageInfo]: each count is what the response holds there. *)
Record UsageInfo : Type := {
  promptTokens : option json;
  completionTokens : option json;
  totalTokens : option json
}.

(** [ResponseMeta] without [duration], which is a difference of two
    readings of the clock. *)
Record ResponseMeta : Type := {
  meta_model : string;
  meta_provider : string
}.

(** [TextGenerationResponse]; [success] is always [true]. *)
Record TextGenerationResponse : Type := {
  data : option json;
  usage : option UsageInfo;
  response_meta : ResponseMeta
}.

(** [StreamingTextResponse]: the generator is given by its run to the
    end, see [SSE.decode_stream]. *)
Record StreamingTextResponse : Type := {
  stream : list StreamEvent * Result Error unit;
  stream_meta : ResponseMeta
}.

(** The object passed to [JSON.stringify] for the chat completions
    endpoint of OpenAI and OpenRouter: [model], [messages] as pairs of
    [role] and [content], [max_tokens], [temperature], and whether
    [stream: true] is there. *)
Record ChatCompletionsBody : Type := {
  body_model : string;
  messages : list (string * string);
  max_tokens : option float;
  body_temperature : option float;
  body_stream : bool
}.

(** The same for the Google endpoints: [contents] as pairs of [role] and
    the [text] of the only part, and [generationConfig]. *)
Record GenerateContentBody : Type := {
  contents : list (string * string);
  maxOutputTokens : option float;
  generation_temperature : option float
}.

(** A call of the global [fetch], which has no time limit. *)
Inductive Request : Type :=
| Fetch (url : string) (options : RequestInit).

Definition and_then {E A B : Type} (r : Result E A) (f : A -> Result E B)
  : Result E B :=
  match r with
  | Ok a => f a
  | Throw e => Throw e
  end.

(** [this.ensureInitialized(); this.ensureCapability(capability);] *)
Definition guard (p : Provider) (capability : Capability) : Result Error unit :=
  and_then (ensureInitialized p) (fun _ => ensureCapability p capability).

(** [...(request.systemPrompt ? [{ role: "system", content:
    request.systemPrompt }] : []), { role: "user", content:
    request.prompt }] *)
Definition chat_messages (request : TextGenerationRequest)
  : list (string * string) :=
  match JS.truthy (systemPrompt request) with
  | Some s => [("system", s)]
  | None => []
  end ++ [("user", prompt request)].

(** The [contents] of [GoogleProvider.generateText]: the system prompt
    goes first, as a message of the user. *)
Definition google_contents (request : TextGenerationRequest)
  : list (string * string) :=
  match JS.truthy (systemPrompt request) with
  | Some s => [("user", s)]
  | None => []
  end ++ [("user", prompt request)].

(** [await response.json()] *)
Definition Response_json (response : Response) : Result Error json :=
  match body response with
  | Throw e => Throw e
  | Ok s =>
      match JSON_parse s with
      | Some j => Ok j
      | None => Throw (OtherError "SyntaxError" "JSON Parse error")
      end
  end.

(** [o.access] where [o] may be [undefined] or [null], which throws. *)
Definition strict (expression : string) (o : option json)
    (access : json -> option json) : Result Error (option json) :=
  match o with
  | None =>
      Throw (TypeError ("undefined is not an object (evaluating '"
                        +:+ expression +:+ "')"))
  | Some JNull =>
      Throw (TypeError ("null is not an object (evaluating '"
                        +:+ expression +:+ "')"))
  | Some v => Ok (access v)
  end.

(** [data.choices[0]!.message.content] *)
Definition choices_content (data : json) : Result Error (option json) :=
  and_then (strict "data.choices" (Some data) (get "choices")) (fun choices =>
  and_then (strict "data.choices[0]" choices get0) (fun first =>
  and_then (strict "data.choices[0].message" first (get "message")) (fun message =>
  strict "data.choices[0].message.content" message (get "content")))).

(** [data.choices?.[0]?.message?.content] *)
Definition choices_content_optional (data : json) : Result Error (option json) :=
  and_then (strict "data.choices" (Some data) (get "choices")) (fun choices =>
  Ok (chain (chain (chain choices get0) (get "message")) (get "content"))).

(** [data.candidates?.[0]?.content?.parts?.[0]?.text] *)
Definition candidates_text (data : json) : Result Error (option json) :=
  and_then (strict "data.candidates" (Some data) (get "candidates")) (fun candidates =>
  Ok (chain (chain (chain (chain (chain candidates get0) (get "content"))
                      (get "parts")) get0) (get "text"))).

(** The [usage] built by the OpenAI and OpenRouter providers, for a
    [data] that is not [null]. *)
Definition chat_usage (data : json) : UsageInfo :=
  {| promptTokens := chain (get "usage" data) (get "prompt_tokens");
     completionTokens := chain (get "usage" data) (get "completion_tokens");
     totalTokens := chain (get "usage" data) (get "total_tokens") |}.

(** The [usage] built by the Google provider from [data.usageMetadata]. *)
Definition google_usage (data : json) : option UsageInfo :=
  match get "usageMetadata" data with
  | Some u =>
      if truthy u
      then Some {| promptTokens := get "promptTokenCount" u;
                   completionTokens := get "candidatesTokenCount" u;
                   totalTokens := get "totalTokenCount" u |}
      else None
  | None => None
  end.

Definition OpenAI_baseUrl : string := "https://api.openai.com/v1".
Definition Google_baseUrl : string :=
  "https://generativelanguage.googleapis.com/v1beta".
Definition OpenRouter_baseUrl : string := "https://openrouter.ai/api/v1".

Section WithPlatform.

(** [JSON.stringify] on the objects the providers send and on a parsed
    response. *)
Variable stringify_chat : ChatCompletionsBody -> string.
Variable stringify_content : GenerateContentBody -> string.
Variable stringify : json -> string.

(** The network, as in [Base.fetchWithRetry]. *)
Variable network : nat -> FetchOutcome.

Definition OpenAI_options (cfg : ProviderConfig) (m : string)
    (request : TextGenerationRequest) (streaming : bool) : RequestInit :=
  {| method := "POST";
     headers := [("Content-Type", "application/json");
                 ("Authorization", "Bearer " +:+ apiKey cfg)];
     request_body :=
       Some (stringify_chat
               {| body_model := m; messages := chat_messages request;
                  max_tokens := maxTokens request;
                  body_temperature := temperature request;
                  body_stream := streaming |}) |}.

Definition OpenRouter_options (cfg : ProviderConfig) (m : string)
    (request : TextGenerationRequest) (streaming : bool) : RequestInit :=
  {| method := "POST";
     headers := [("Content-Type", "application/json");
                 ("Authorization", "Bearer " +:+ apiKey cfg);
                 ("HTTP-Referer", "https://github.com/ai-router");
                 ("X-Title", "ai-router")];
     request_body :=
       Some (stringify_chat
               {| body_model := m; messages := chat_messages request;
                  max_tokens := maxTokens request;
                  body_temperature := temperature request;
                  body_stream := streaming |}) |}.

Definition Google_options (contents : list (string * string))
    (request : TextGenerationRequest) : RequestInit :=
  {| method := "POST";
     headers := [("Content-Type", "application/json")];
     request_body :=
       Some (stringify_content
               {| contents := contents;
                  maxOutputTokens := maxTokens request;
                  generation_temperature := temperature request |}) |}.

(** [OpenAIProvider.generateText(request)]: the outcome and what
    [fetchWithRetry] did; [None] as in [Base.fetchWithRetry]. *)
Definition OpenAI_generateText (p : Provider) (request : TextGenerationRequest)
  : option (Result Error TextGenerationResponse * list Event) :=
  match guard p text with
  | Throw e => Some (Throw e, [])
  | Ok _ =>
      match getModel p text (model request) with
      | Throw e => Some (Throw e, [])
      | Ok m =>
          match config p with
          | None => Some (Throw (TypeError "this.config is undefined"), [])
          | Some cfg =>
              match fetchWithRetry network p
                      (OpenAI_baseUrl +:+ "/chat/completions")
                      (OpenAI_options cfg m request false) None with
              | None => None
              | Some (Throw e, evs) => Some (Throw e, evs)
              | Some (Ok response, evs) =>
                  Some (and_then (Response_json response) (fun data =>
                        and_then (choices_content data) (fun content =>
                        Ok {| data := content;
                              usage := Some (chat_usage data);
                              response_meta :=
                                {| meta_model := m;
                                   meta_provider := "openai" |} |})),
                        evs)
              end
          end
      end
  end.

(** [GoogleProvider.generateText(request)] *)
Definition Google_generateText (p : Provider) (request : TextGenerationRequest)
  : option (Result Error TextGenerationResponse * list Event) :=
  match guard p text with
  | Throw e => Some (Throw e, [])
  | Ok _ =>
      match getModel p text (model request) with
      | Throw e => Some (Throw e, [])
      | Ok m =>
          match config p with
          | None => Some (Throw (TypeError "this.config is undefined"), [])
          | Some cfg =>
              match fetchWithRetry network p
                      (Google_baseUrl +:+ "/models/" +:+ m
                       +:+ ":generateContent?key=" +:+ apiKey cfg)
                      (Google_options (google_contents request) request) None with
              | None => None
              | Some (Throw e, evs) => Some (Throw e, evs)
              | Some (Ok response, evs) =>
                  Some (and_then (Response_json response) (fun data =>
                        and_then (candidates_text data) (fun t =>
                        match t with
                        | Some v =>
                            if truthy v
                            then Ok {| data := Some v;
                                       usage := google_usage data;
                                       response_meta :=
                                         {| meta_model := m;
                                            meta_provider := "google" |} |}
                            else Throw (ProviderError
                                          ("Invalid response from Google API: "
                                           +:+ stringify data)
                                          (Some "google") None)
                        | None =>
                            Throw (ProviderError
                                     ("Invalid response from Google API: "
                                      +:+ stringify data)
                                     (Some "google") None)
                        end)),
                        evs)
              end
          end
      end
  end.

(** [request.model ?? this.getModel("text", request.model)] *)
Definition OpenRouter_model (p : Provider) (request : TextGenerationRequest)
  : Result Error string :=
  match model request with
  | Some m => Ok m
  | None => getModel p text (model request)
  end.

(** [OpenRouterProvider.generateText(request)] *)
Definition OpenRouter_generateText (p : Provider) (request : TextGenerationRequest)
  : option (Result Error TextGenerationResponse * list Event) :=
  match guard p text with
  | Throw e => Some (Throw e, [])
  | Ok _ =>
      match OpenRouter_model p request with
      | Throw e => Some (Throw e, [])
      | Ok m =>
          match config p with
          | None => Some (Throw (TypeError "this.config is undefined"), [])
          | Some cfg =>
              match fetchWithRetry network p
                      (OpenRouter_baseUrl +:+ "/chat/completions")
                      (OpenRouter_options cfg m request false) None with
              | None => None
              | Some (Throw e, evs) => Some (Throw e, evs)
              | Some (Ok response, evs) =>
                  Some (and_then (Response_json response) (fun data =>
                        and_then (choices_content_optional data) (fun t =>
                        match t with
                        | Some v =>
                            if truthy v
                            then Ok {| data := Some v;
                                       usage := Some (chat_usage data);
                                       response_meta :=
                                         {| meta_model := m;
                                            meta_provider := "openrouter" |} |}
                            else Throw (ProviderError
                                          ("Invalid response from OpenRouter: "
                                           +:+ stringify data)
                                          (Some "openrouter") None)
                        | None =>
                            Throw (ProviderError
                                     ("Invalid response from OpenRouter: "
                                      +:+ stringify data)
                                     (Some "openrouter") None)
                        end)),
                        evs)
              end
          end
      end
  end.

(** What the three [generateTextStream] do once the request is built:
    one call of [fetch], which ends as [outcome] says; [failure] builds
    the error for an answer that is not ok, and [reads] is what the body
    of an answer that is ok delivers. *)
Definition stream_request (url : string) (options : RequestInit)
    (outcome : FetchOutcome) (failure : Z -> string -> Error)
    (decoder : list ReadResult -> list StreamEvent * Result Error unit)
    (reads : list ReadResult) (meta : ResponseMeta)
  : Result Error StreamingTextResponse * list Request :=
  match outcome with
  | Rejected e => (Throw e, [Fetch url options])
  | Resolved response =>
      if negb (ok response) then
        match body response with
        | Throw e => (Throw e, [Fetch url options])
        | Ok error => (Throw (failure (status response) error), [Fetch url options])
        end
      else
        (Ok {| stream := decoder reads; stream_meta := meta |},
         [Fetch url options])
  end.

(** [OpenAIProvider.generateTextStream(request)] *)
Definition OpenAI_generateTextStream (p : Provider)
    (request : TextGenerationRequest) (outcome : FetchOutcome)
    (reads : list ReadResult)
  : Result Error StreamingTextResponse * list Request :=
  match guard p text with
  | Throw e => (Throw e, [])
  | Ok _ =>
      match getModel p text (model request) with
      | Throw e => (Throw e, [])
      | Ok m =>
          match config p with
          | None => (Throw (TypeError "this.config is undefined"), [])
          | Some cfg =>
              stream_request (OpenAI_baseUrl +:+ "/chat/completions")
                (OpenAI_options cfg m request true) outcome
                (fun status error =>
                   OtherError "Error"
                     ("API error: " +:+ pretty status +:+ " - " +:+ error))
                OpenAI_parseSSEStream reads
                {| meta_model := m; meta_provider := "openai" |}
          end
      end
  end.

(** [GoogleProvider.generateTextStream(request)]: the system prompt is
    not sent. *)
Definition Google_generateTextStream (p : Provider)
    (request : TextGenerationRequest) (outcome : FetchOutcome)
    (reads : list ReadResult)
  : Result Error StreamingTextResponse * list Request :=
  match guard p text with
  | Throw e => (Throw e, [])
  | Ok _ =>
      match getModel p text (model request) with
      | Throw e => (Throw e, [])
      | Ok m =>
          match config p with
          | None => (Throw (TypeError "this.config is undefined"), [])
          | Some cfg =>
              stream_request
                (Google_baseUrl +:+ "/models/" +:+ m
                 +:+ ":streamGenerateContent?alt=sse&key=" +:+ apiKey cfg)
                (Google_options [("user", prompt request)] request) outcome
                (fun status error =>
                   ProviderError
                     ("API error: " +:+ pretty status +:+ " - " +:+ error)
                     (Some "google") (Some status))
                parseGoogleSSEStream reads
                {| meta_model := m; meta_provider := "google" |}
          end
      end
  end.

(** [OpenRouterProvider.generateTextStream(request)] *)
Definition OpenRouter_generateTextStream (p : Provider)
    (request : TextGenerationRequest) (outcome : FetchOutcome)
    (reads : list ReadResult)
  : Result Error StreamingTextResponse * list Request :=
  match guard p text with
  | Throw e => (Throw e, [])
  | Ok _ =>
      match OpenRouter_model p request with
      | Throw e => (Throw e, [])
      | Ok m =>
          match config p with
          | None => (Throw (TypeError "this.config is undefined"), [])
          | Some cfg =>
              stream_request (OpenRouter_baseUrl +:+ "/chat/completions")
                (OpenRouter_options cfg m request true) outcome
                (fun status error =>
                   ProviderError
                     ("API error: " +:+ pretty status +:+ " - " +:+ error)
                     (Some "openrouter") (Some status))
                OpenRouter_parseSSEStream reads
                {| meta_model := m; meta_provider := "openrouter" |}
          end
      end
  end.

End WithPlatform.

End TextGeneration.

(** ** The command line: [handleGenerateText] and [handleConfigShow] *)

Module Cli.
Import Base.

(** [options.model ?? providerConfig.models?.text ??
    provider.getModels("text")[0] ?? "unknown"] in [handleGenerateText]:
    the model whose cost is estimated. *)
Definition selected_model (options_model : option string)
    (providerConfig : ProviderConfig) (provider : Provider) : string :=
  match options_model with
  | Some m => m
  | None =>
      match cm ← models providerConfig; models_text cm with
      | Some m => m
      | None =>
          match getModels (adapter provider) text with
          | m :: _ => m
          | [] => "unknown"
          end
      end
  end.

(** [fullModel] in [handleGenerateText]: both tests of
    [providerId === "openrouter"] give the model itself. *)
Definition fullModel (providerId model : string) : string :=
  if String.eqb providerId "openrouter" && negb (JS.includes model "/")
  then model
  else if String.eqb providerId "openrouter" then model
  else providerId +:+ "/" +:+ model.

(** [s.slice(-n)] *)
Definition slice_last (n : nat) (s : string) : string :=
  JS.slice (String.length s - n) s.

(** [pc.apiKey.slice(0, 8) + "..." + pc.apiKey.slice(-4)], for a key of
    ASCII characters, where a position in the text is a position in the
    JavaScript string. *)
Definition mask (apiKey : string) : string :=
  JS.take 8 apiKey +:+ "..." +:+ slice_last 4 apiKey.

(** The [apiKey] of a provider after the loop of [handleConfigShow],
    where [apiKey] is the key in [displayConfig] before it. *)
Definition masked (apiKey : option string) : option string :=
  match JS.truthy apiKey with
  | Some k => if negb (JS.startsWith k "${") then Some (mask k) else Some k
  | None => apiKey
  end.

(** Every character of the text passes the test. *)
Fixpoint all_chars (test : ascii -> bool) (s : string) : bool :=
  match s with
  | EmptyString => true
  | String c r => test c && all_chars test r
  end.

(** [\w] in a regular expression without flags: a letter, a digit or an
    underscore. *)
Definition is_word_char (c : ascii) : bool :=
  let n := Ascii.nat_of_ascii c in
  ((48 <=? n)%nat && (n <=? 57)%nat) || ((65 <=? n)%nat && (n <=? 90)%nat)
  || (n =? 95)%nat || ((97 <=? n)%nat && (n <=? 122)%nat).

(** A hexadecimal digit, in lower case. *)
Definition hex_digit (n : nat) : ascii :=
  Ascii.ascii_of_nat (if (n <? 10)%nat then 48 + n else 87 + n).

(** What [JSON.stringify] writes for one character of a string. *)
Definition JSON_escape (c : ascii) : string :=
  let n := Ascii.nat_of_ascii c in
  if (n =? 8)%nat then "\b"
  else if (n =? 9)%nat then "\t"
  else if (n =? 10)%nat then "\n"
  else if (n =? 12)%nat then "\f"
  else if (n =? 13)%nat then "\r"
  else if (n <? 32)%nat then
    "\u00" +:+ String (hex_digit (n / 16)) (String (hex_digit (n mod 16)) "")
  else if (n =? 34)%nat then String "\"%char (String "034"%char "")
  else if (n =? 92)%nat then "\\"
  else String c "".

(** [JSON.stringify(s)] for a string [s]; a text, being UTF-8, holds no
    lone surrogate. *)
Fixpoint JSON_escape_all (s : string) : string :=
  match s with
  | EmptyString => ""
  | String c r => JSON_escape c +:+ JSON_escape_all r
  end.

Definition JSON_stringify_string (s : string) : string :=
  String "034"%char (JSON_escape_all s +:+ String "034"%char "").

(** Where the search for [/\$\{(\w+)\}/g] stands in a text: outside a
    match, after a dollar sign, or after a dollar sign, a brace and the
    word characters [name]. *)
Inductive VarState : Type :=
| VOutside
| VDollar
| VName (name : string).

Section WithEnvironment.

(** [process.env[key]] as [replace] takes it from its callback: the text
    of what is found under the name, be it a variable or a member that
    [process.env] inherits, and [None] when that is [undefined]. *)
Variable env : string -> option string.

(** [json.replace(/\$\{(\w+)\}/g, (_, key) => process.env[key] ?? "")],
    read from left to right: a match is replaced, and a start that does
    not become a match goes through as it is. *)
Fixpoint replace_vars (st : VarState) (json : string) : string :=
  match json with
  | EmptyString =>
      match st with
      | VOutside => ""
      | VDollar => "$"
      | VName name => "${" +:+ name
      end
  | String c r =>
      match st with
      | VOutside =>
          if Ascii.eqb c "$"%char then replace_vars VDollar r
          else String c (replace_vars VOutside r)
      | VDollar =>
          if Ascii.eqb c "{"%char then replace_vars (VName "") r
          else if Ascii.eqb c "$"%char then String "$"%char (replace_vars VDollar r)
          else String "$"%char (String c (replace_vars VOutside r))
      | VName name =>
          if is_word_char c then replace_vars (VName (name +:+ String c "")) r
          else if Ascii.eqb c "}"%char && negb (String.eqb name "") then
            default "" (env name) +:+ replace_vars VOutside r
          else if Ascii.eqb c "$"%char then
            "${" +:+ name +:+ replace_vars VDollar r
          else "${" +:+ name +:+ String c (replace_vars VOutside r)
      end
  end.

(** A string of the configuration after [resolveEnvVars]: what
    [JSON.parse] reads where [JSON.stringify] had written the string.
    The answer is [None] when the text found there is no longer one
    string literal, which takes a quote, a backslash or a control
    character in a value of the environment; what [JSON.parse] then makes
    of the configuration, where it does not throw, is not modelled. *)
Definition resolveEnvVars_string (s : string) : option string :=
  match Json.JSON_parse (replace_vars VOutside (JSON_stringify_string s)) with
  | Some (Json.JString v) => Some v
  | _ => None
  end.

(** A string of [JSON.parse(JSON.stringify(config))]. *)
Definition copied_string (s : string) : option string :=
  match Json.JSON_parse (JSON_stringify_string s) with
  | Some (Json.JString v) => Some v
  | _ => None
  end.

(** [handleConfigShow] for a provider whose [apiKey] in the configuration
    file, or in [DEFAULT_CONFIG], is [stored]: the key in the
    configuration it prints.  [loadConfig] has replaced the placeholders
    before the keys are masked. *)
Definition displayed_apiKey (stored : string) : option (option string) :=
  loaded ← resolveEnvVars_string stored;
  copy ← copied_string loaded;
  Some (masked (Some copy)).

End WithEnvironment.

(** The options and the part of the configuration that
    [handleGenerateVideo] reads. *)
Record CLIOptions : Type := {
  provider : option string;
  prompt : option string;
  output : option string
}.

Record RouterConfig : Type := {
  defaultProvider : string;
  providers : gmap string ProviderConfig
}.

Record VideoResult : Type := {
  filePath : string;
  format : string
}.

(** [new CLIError(message)] *)
Definition CLIError (message : string) : Error := OtherError "CLIError" message.

(** [GoogleProvider.generateVideo(request)] *)
Definition Google_generateVideo (p : Provider) : Result Error VideoResult :=
  TextGeneration.and_then (TextGeneration.guard p video) (fun _ =>
    Throw (ProviderError
             ("Video generation with Google Veo is not yet fully implemented. "
              +:+ "Please check Google's API documentation for the latest endpoints.")
             (Some "google") None)).

(** [provider.generateVideo], which only the class [GoogleProvider]
    defines; the three classes are told apart by the id of their
    [meta]. *)
Definition generateVideo_method (p : Provider) : option (Result Error VideoResult) :=
  if String.eqb (id (meta (adapter p))) "google"
  then Some (Google_generateVideo p)
  else None.

(** [config.providers[providerId]] for an id that no prototype defines. *)
Definition getProviderConfig (config : RouterConfig) (providerId : string)
  : option ProviderConfig :=
  providers config !! providerId.

(** [handleGenerateVideo(config, options, format)] on the registry [st]:
    the response that would be printed, or the error thrown. *)
Definition handleGenerateVideo (st : Registry.State) (config : RouterConfig)
    (options : CLIOptions) : Result Error VideoResult * Registry.State :=
  match JS.truthy (prompt options) with
  | None => (Throw (CLIError "--prompt is required for generate-video"), st)
  | Some _ =>
      let providerId := default (defaultProvider config) (provider options) in
      match getProviderConfig config providerId with
      | None =>
          (Throw (CLIError ("Provider '" +:+ providerId +:+ "' not configured")), st)
      | Some providerConfig =>
          match Registry.getProvider st providerId (Some providerConfig) with
          | (Throw e, st') => (Throw e, st')
          | (Ok r, st') =>
              match Registry.heap st' !! r with
              | None => (Throw (TypeError "undefined is not an object"), st')
              | Some p =>
                  if negb (supports p video) then
                    (Throw (CLIError ("Provider '" +:+ providerId
                                      +:+ "' does not support video generation")),
                     st')
                  else
                    match generateVideo_method p with
                    | None =>
                        (Throw (CLIError ("Provider '" +:+ providerId
                                          +:+ "' does not implement video generation")),
                         st')
                    | Some response => (response, st')
                    end
              end
          end
      end
  end.

End Cli.

(** ** [OpenRouterProvider.listAvailableModels] *)

Module OpenRouterModels.
Import Base Json TextGeneration.

(** The provider object as far as [listAvailableModels] goes: its
    configuration and its field [cachedModels], which holds [null] or
    what an answer had under [data]. *)
Record State : Type := {
  config : option ProviderConfig;
  cachedModels : option json
}.

(** Truthiness of a value that may be [undefined]. *)
Definition truthy_opt (o : option json) : bool :=
  match o with
  | Some v => truthy v
  | None => false
  end.

(** [listAvailableModels()], where the call of [fetch] ends as [outcome]
    says: what is returned, the object afterwards, and the requests
    made.  The call of [fetch] names no method, which makes it a GET. *)
Definition listAvailableModels (st : State) (outcome : FetchOutcome)
  : Result Error (option json) * State * list Request :=
  if truthy_opt (cachedModels st) then (Ok (cachedModels st), st, [])
  else
    match config st with
    | None => (Throw (TypeError "this.config is undefined"), st, [])
    | Some cfg =>
        let request :=
          Fetch (OpenRouter_baseUrl +:+ "/models")
            {| method := "GET";
               headers := [("Authorization", "Bearer " +:+ apiKey cfg)];
               request_body := None |} in
        match outcome with
        | Rejected e => (Throw e, st, [request])
        | Resolved response =>
            if negb (ok response) then
              (Throw (ProviderError
                        ("Failed to fetch models: " +:+ pretty (status response))
                        (Some "openrouter") (Some (status response))),
               st, [request])
            else
              match Response_json response with
              | Throw e => (Throw e, st, [request])
              | Ok data =>
                  match strict "data.data" (Some data) (get "data") with
                  | Throw e => (Throw e, st, [request])
                  | Ok models =>
                      (Ok models,
                       {| config := config st; cachedModels := models |},
                       [request])
                  end
              end
        end
    end.

End OpenRouterModels.

(** ** [src/cli/output.ts]: how image results are printed *)

Module Output.
Import Images.

(** The loop of [formatPretty] over a [data] that is an array: the lines
    it adds after the line [---]. *)
Definition pretty_items (data : list ImageResult) : list string :=
  flat_map
    (fun item =>
       match JS.truthy (filePath item) with
       | Some f => ["File: " +:+ f]
       | None => []
       end
       ++ match JS.truthy (revisedPrompt item) with
          | Some r => ["Revised prompt: " +:+ r]
          | None => []
          end)
    data.

End Output.

(** * Notions of the specification and example data *)

(** ** Notions and examples for [src/utils/pricing.ts] *)

Module PricingSpec.
Import Pricing.

(** A concrete cache: one model priced at 5 and 15 USD per 1M tokens. *)
Definition example_cache (now : Z) : PricingCache :=
  {| lastUpdated := Some now;
     ttlHours := Some 24;
     models := Some {[ "openai/gpt-4o" := {| input := 5; output := 15 |} ]} |}.

(** A tokenizer that always throws, so that the character-count fallback
    decides the token count. *)
Definition failing_tokenizer : Encoding -> string -> option (list Z) :=
  fun _ _ => None.

Fixpoint repeat_string (n : nat) (s : string) : string :=
  match n with
  | O => ""
  | S n' => s +:+ repeat_string n' s
  end.

(** The estimate of the running example: 100 input tokens, 1000 output
    tokens, cached prices 5 and 15. *)
Definition example_estimate : CostEstimate :=
  estimateCost failing_tokenizer "openai/gpt-4o" (repeat_string 100 "word")
    None (Some 1000%float) (Some (example_cache 1700000000000)).

(** The estimate for a model named like a member that every object
    inherits, and for a model that the cache does not know, with the
    same cache. *)
Definition toString_estimate : CostEstimate :=
  estimateCost failing_tokenizer "toString" "Hello" None None
    (Some (example_cache 1700000000000)).

Definition unknown_estimate : CostEstimate :=
  estimateCost failing_tokenizer "acme/unknown" "Hello" None None
    (Some (example_cache 1700000000000)).

(** A cache that expired one millisecond ago. *)
Definition stale_cache (now : Z) : PricingCache :=
  {| lastUpdated := Some (now - 24 * 3600000 - 1);
     ttlHours := Some 24;
     models := None |}.

(** A configuration that holds [example_cache], and a world in which no
    refresh can succeed. *)
Definition example_config (now : Z) : RouterConfig :=
  {| version := "1.0.0"; defaultProvider := "openai";
     pricing := Some (example_cache now) |}.

Definition offline_world : World :=
  {| models_response := ModelsNotOk 503;
     stored_config := Throw "unreadable";
     save_outcome := Ok tt |}.

End PricingSpec.

(** ** Notions and examples for [src/providers/base.ts] *)

Module BaseSpec.
Import Base.

(** A provider class whose only built-in model is ["m3"], and one with
    no built-in model. *)
Definition adapter_m3 : Adapter :=
  {| meta := {| id := "acme"; name := "Acme"; version := "1.0.0";
                capabilities := [text] |};
     getModels := fun _ => ["m3"] |}.

Definition adapter_bare : Adapter :=
  {| meta := {| id := "acme"; name := "Acme"; version := "1.0.0";
                capabilities := [text] |};
     getModels := fun _ => [] |}.

(** A configuration whose only configured model is the text model. *)
Definition config_text (m : option string) : ProviderConfig :=
  {| apiKey := "key"; baseUrl := None; timeout := None; maxRetries := None;
     organization := None; projectId := None; region := None;
     models := Some {| models_text := m; models_image := None;
                       models_audio := None; models_tts := None;
                       models_video := None |} |}.

(** The precedence in the words of the specification: the requested
    model when one is supplied, else the configured default model for
    that capability, else the first built-in model for that capability,
    else a failure. *)
Definition resolveModel_spec (a : Adapter) (cfg : ProviderConfig)
    (capability : Capability) (requestedModel : option string)
  : Result Error string :=
  match requestedModel with
  | Some m => Ok m
  | None =>
      match cm ← models cfg; configModels_get cm capability with
      | Some m => Ok m
      | None =>
          match getModels a capability with
          | m :: _ => Ok m
          | [] =>
              Throw (ProviderError
                       ("No model available for " +:+ Capability_name capability)
                       (Some (id (meta a))) None)
          end
      end
  end.

(** An optional string that is [undefined] or empty. *)
Definition falsy (o : option string) : Prop := o = None \/ o = Some "".

Definition is_fetch (e : Event) : bool :=
  match e with EvFetch _ _ _ => true | EvSleep _ => false end.

(** The number of attempts in a trace, and the sleeps in order. *)
Definition attempts (evs : list Event) : nat :=
  length (List.filter is_fetch evs).


(** [n] attempts, the first one of index [i], with a sleep between any
    two consecutive ones and none after the last: before the attempt of
    index [j] the sleep lasts [1000 * j] ms. *)
Fixpoint backoff_trace (F : Event) (i n : nat) : list Event :=
  match n with
  | O => []
  | S n' =>
      F :: match n' with
           | O => []
           | S _ => EvSleep (1000 * Z.of_nat (S i)) :: backoff_trace F (S i) n'
           end
  end.

(** A network that fails twice (a rejected request, then a 503 answer)
    and succeeds on the third call, and one that never succeeds. *)
Definition response_200 : Response :=
  {| ok := true; status := 200; body := Ok "{}" |}.

Definition response_503 : Response :=
  {| ok := false; status := 503; body := Ok "busy" |}.

Definition flaky_network (i : nat) : FetchOutcome :=
  match i with
  | 0%nat => Rejected (OtherError "TimeoutError" "The operation timed out.")
  | 1%nat => Resolved response_503
  | _ => Resolved response_200
  end.


Definition example_options : RequestInit :=
  {| method := "POST"; headers := [("Content-Type", "application/json")];
     request_body := Some "{}" |}.

End BaseSpec.

(** ** Notions for the provider registry *)

Module RegistrySpec.
Import Base Registry.

(** Whatever is cached has a registered factory and is on the heap. *)
Definition cached_registered (st : State) : Prop :=
  forall id r, providers st !! id = Some r ->
    is_Some (factories_get (factories st) id) /\ is_Some (heap st !! r).

End RegistrySpec.

(** ** Notions and examples for the SSE decoders *)

Module SSESpec.
Import Json SSE.

(** The text a list of chunks carries. *)
Definition text_of (chunks : list string) : string :=
  foldr String.append "" chunks.

(** The lines of a text that a newline completes. *)
Definition complete_lines (text : string) : list string :=
  removelast (JS.split newline text).

(** [s] contains the character [c]. *)
Fixpoint contains (c : ascii) (s : string) : bool :=
  match s with
  | EmptyString => false
  | String d r => Ascii.eqb d c || contains c r
  end.

Definition nl : string := String newline "".

(** [s] between double quotes. *)
Definition quoted (s : string) : string :=
  String "034"%char (s +:+ String "034"%char "").

(** The running example: the payload [{"choices":[{"delta":{"content":"Hi"}}]}]
    without its opening brace, its line in the OpenAI wire format, the
    stream that ends with [data: [DONE]], and the same content in the
    Google wire format. *)
Definition hi_payload : string :=
  quoted "choices" +:+ ":[{" +:+ quoted "delta" +:+ ":{" +:+ quoted "content"
  +:+ ":" +:+ quoted "Hi" +:+ "}}]}".

Definition hi_line : string := "data: {" +:+ hi_payload.

Definition hi_stream : string := hi_line +:+ nl +:+ "data: [DONE]" +:+ nl.

Definition google_hi_line : string :=
  "data: {" +:+ quoted "candidates" +:+ ":[{" +:+ quoted "content" +:+ ":{"
  +:+ quoted "parts" +:+ ":[{" +:+ quoted "text" +:+ ":" +:+ quoted "Hi"
  +:+ "}]}}]}".

End SSESpec.

(** ** Notions and examples for the file names of images *)

Module ImagesSpec.
Import Images.

(** The [filename] options passed to [saveMedia] by one run of the OpenAI
    or Google [generateImage]. *)
Definition requested_names (outputPath : string) (count : nat) : list string :=
  map (fun index => if (1 <? count)%nat then suffixed outputPath index else outputPath)
      (seq 0 count).

(** A response of OpenRouter with two inline images. *)
Definition two_inline_images : Message :=
  {| content := None;
     images :=
       Some [ {| part_type := "image_url";
                 image_url := Some "data:image/png;base64,AAAA" |};
              {| part_type := "image_url";
                 image_url := Some "data:image/png;base64,BBBB" |} ] |}.

End ImagesSpec.

(** ** Further notions for [src/providers/index.ts] *)

Module RegistryNotions.
Import Registry.

(** The ids registered by the constructor stay first, and no id is listed
    twice. *)
Definition keys_ok (st : State) : Prop :=
  NoDup (listProviders st)
  /\ ["openai"; "google"; "openrouter"] `prefix_of` listProviders st.

End RegistryNotions.

(** ** Further notions for [src/utils/pricing.ts] *)

Module PricingNotions.
Import Pricing.

(** The entry that the loop of [fetchAndCachePricing] stores for one
    model of the listing. *)
Definition converted (parseFloat : string -> float) (m : OpenRouterModel)
  : ModelPricing :=
  {| input := (parseFloat_or_0 parseFloat (or_prompt m) * 1000000)%float;
     output := (parseFloat_or_0 parseFloat (or_completion m) * 1000000)%float |}.

(** The last entry of a listing with a given id. *)
Definition last_with_id (id : string) (data : list OpenRouterModel)
  : option OpenRouterModel :=
  List.find (fun m => bool_decide (or_id m = id)) (rev data).

Definition is_SaveConfig (e : Effect) : bool :=
  match e with SaveConfig _ => true | _ => false end.

(** [sub] occurs in [s]. *)
Definition occurs_in (sub s : string) : Prop :=
  exists pre post, s = pre +:+ sub +:+ post.

(** The letter e with an acute accent: two bytes, one UTF-16 code
    unit. *)
Definition e_acute : string := String "195"%char (String "169"%char "").

(** The model name fragments that select the [o200k_base] encoding. *)
Definition o200k_fragments : list string := ["gpt-4o"; "gpt-5"; "o1-"; "o3-"].

(** A listing in which one id occurs twice, and a world in which a
    refresh succeeds. *)
Definition example_listing : list OpenRouterModel :=
  [ {| or_id := "openai/gpt-4o"; or_prompt := "0.000005"; or_completion := "0.000015" |};
    {| or_id := "openai/gpt-4o"; or_prompt := "0.000001"; or_completion := "0.000002" |} ].

Definition online_world : World :=
  {| models_response := ModelsOk example_listing;
     stored_config :=
       Ok {| version := "1.0.0"; defaultProvider := "openai"; pricing := None |};
     save_outcome := Ok tt |}.

(** A configuration with no pricing cache. *)
Definition fresh_config : RouterConfig :=
  {| version := "1.0.0"; defaultProvider := "openai"; pricing := None |}.

End PricingNotions.

(** ** Further notions for the SSE decoders *)

Module SSENotions.
Import SSE SSESpec.

Definition cr : string := String "013"%char "".

(** A text made of the given lines, each ended by a line feed, and the
    same with a carriage return before each line feed. *)
Definition lf_text (lines : list string) : string :=
  text_of (map (fun line => line +:+ nl) lines).

Definition crlf_text (lines : list string) : string :=
  text_of (map (fun line => line +:+ cr +:+ nl) lines).

End SSENotions.

(** ** Further notions for the saving of images *)

Module ImagesNotions.
Import Images.

(** The files a run wrote, each with the data written. *)
Definition file_writes (effects : list FsEffect) : list (string * option string) :=
  omap (fun e => match e with Write f d => Some (f, d) | Mkdir _ => None end)
       effects.

(** The files the results report, each with the [base64] of its result. *)
Definition reported (results : list ImageResult) : list (string * option string) :=
  omap (fun r => (fun f => (f, base64 r)) <$> filePath r) results.

(** The [filename] option the OpenAI and Google providers pass to
    [saveMedia] for the item [index] of [count]. *)
Definition item_name (requested : string) (count index : nat) : string :=
  if (1 <? count)%nat then suffixed requested index else requested.

(** The result of the OpenAI and Google providers for an item that was
    not saved. *)
Definition unsaved (item : string * option string) : ImageResult :=
  {| url := None; base64 := Some (fst item); filePath := None;
     revisedPrompt := snd item |}.

(** The two errors [saveMedia] throws by itself. *)
Definition undefined_data : Error :=
  TypeError "data must be a string, a Blob or a typed array".

Definition not_base64 : Error :=
  OtherError "InvalidCharacterError" "The string contains invalid characters.".

(** [e] is an error that saving under the name [requested] in the current
    directory can throw: the error of [mkdir], one of the two errors of
    [saveMedia] itself, or the error of [Bun.write]. *)
Definition save_throws {fs : FileSystem} (join : string -> string -> string)
    (requested : string) (e : Error) : Prop :=
  Bun_mkdir "." = Throw e
  \/ e = undefined_data
  \/ e = not_base64
  \/ Bun_write (join "." requested) = Throw e.

(** A function in the place of [path.join] for the examples: the
    directory, a slash, the file name. *)
Definition slash_join (directory filename : string) : string :=
  directory +:+ "/" +:+ filename.

(** A file system that makes directories and refuses every write. *)
Definition read_only : FileSystem :=
  {| Bun_mkdir := fun _ => Ok tt;
     Bun_write := fun _ => Throw (OtherError "EACCES" "permission denied") |}.


(** What holds of the results and the effects of the OpenRouter provider
    at each point of [generateImage] that it reaches without a throw. *)
Definition consistent (join : string -> string -> string)
    (outputPath : option string)
    (results : list ImageResult) (effects : list FsEffect) : Prop :=
  file_writes effects = reported results
  /\ Forall (fun r => is_Some (url r) -> filePath r = None /\ base64 r = None) results
  /\ Forall (fun r => forall f, filePath r = Some f ->
                        exists requested, JS.truthy outputPath = Some requested
                                          /\ f = join "." requested) results
  /\ (results = [] -> effects = [])
  /\ (JS.truthy outputPath = None -> effects = [])
  /\ Forall (fun r => revisedPrompt r = None) results.

(** What holds of the error and the effects when a save of the OpenRouter
    provider threw. *)
Definition failed_save {fs : FileSystem} (join : string -> string -> string)
    (outputPath : option string) (e : Error) (effects : list FsEffect) : Prop :=
  exists requested,
    JS.truthy outputPath = Some requested
    /\ save_throws join requested e
    /\ effects <> []
    /\ Forall (fun w => fst w = join "." requested) (file_writes effects).

End ImagesNotions.

(** ** Further notions for text generation *)

Module TextGenerationNotions.
Import Base TextGeneration.

(** The errors of [ensureInitialized] and [ensureCapability]. *)
Definition not_initialized (p : Provider) : Error :=
  ProviderError (name (meta (adapter p)) +:+ " provider not initialized")
    (Some (id (meta (adapter p)))) None.

Definition unsupported (p : Provider) (c : Capability) : Error :=
  ProviderError (name (meta (adapter p)) +:+ " does not support "
                 +:+ Capability_name c +:+ " generation")
    (Some (id (meta (adapter p)))) None.

(** The provider is initialized, declares the text capability and has a
    configuration. *)
Definition checked (p : Provider) : Prop :=
  initialized p = true /\ supports p text = true /\ is_Some (config p).

(** A run of a generating method of [p] made no request before the
    checks had passed, and ended with the error of the check that
    failed. *)
Definition after_checks {A B : Type} (p : Provider)
    (run : Result Error A * list B) : Prop :=
  (snd run = [] \/ checked p)
  /\ (initialized p = false -> run = (Throw (not_initialized p), []))
  /\ (initialized p = true -> supports p text = false ->
      run = (Throw (unsupported p text), [])).


(** The configuration with other values in the fields [baseUrl],
    [organization], [projectId] and [region], and the provider with such
    a configuration. *)
Definition with_endpoint (cfg : ProviderConfig)
    (b o pr r : option string) : ProviderConfig :=
  {| apiKey := apiKey cfg; baseUrl := b; timeout := timeout cfg;
     maxRetries := maxRetries cfg; organization := o; projectId := pr;
     region := r; models := models cfg |}.

Definition reconfigured (p : Provider) (b o pr r : option string) : Provider :=
  {| adapter := adapter p;
     config := (fun cfg => with_endpoint cfg b o pr r) <$> config p;
     initialized := initialized p |}.

(** A request for the examples, a network whose first answer is ok, and
    printers of no interest. *)
Definition hello : TextGenerationRequest :=
  {| prompt := "Hello"; model := Some ""; systemPrompt := None;
     maxTokens := None; temperature := None |}.

Definition answering (text : string) (i : nat) : FetchOutcome :=
  Resolved {| ok := true; status := 200; body := Ok text |}.

Definition no_chat : ChatCompletionsBody -> string := fun _ => "{}".
Definition no_content : GenerateContentBody -> string := fun _ => "{}".
Definition no_json : Json.json -> string := fun _ => "{}".

End TextGenerationNotions.

(** ** Further notions for the command line *)

Module CliNotions.
Import Cli.

(** A printable ASCII character other than the quote and the backslash:
    [JSON.stringify] writes it as it is. *)
Definition plain_char (c : ascii) : bool :=
  let n := Ascii.nat_of_ascii c in
  (32 <=? n)%nat && (n <? 127)%nat && negb (n =? 34)%nat && negb (n =? 92)%nat.

Definition plain (s : string) : bool := all_chars plain_char s.

Definition no_dollar (s : string) : bool :=
  all_chars (fun c => negb (Ascii.eqb c "$"%char)) s.

(** What a string literal without escapes holds. *)
Fixpoint plain_units (s : string) : list Json.unit16 :=
  match s with
  | EmptyString => []
  | String c r => Json.Plain c :: plain_units r
  end.

(** An environment that holds one key. *)
Definition example_env (key : string) : option string :=
  if String.eqb key "OPENAI_API_KEY" then Some "sk-proj-abcdefghijklmnop1234"
  else None.

End CliNotions.

(* ================================================================== *)
(** * Part II: lemmas                                                  *)
(* ================================================================== *)

(** ** Facts about [src/utils/pricing.ts] *)

Module PricingFacts.
Import Pricing PricingSpec.

Lemma Prim2SF_nan : Prim2SF nan = SpecFloat.S754_nan.
Proof. reflexivity. Qed.

Lemma ltb_nan_r x y : Prim2SF y = SpecFloat.S754_nan -> PrimFloat.ltb x y = false.
Proof.
  intros H. rewrite FloatAxioms.ltb_spec. unfold SpecFloat.SFltb, SpecFloat.SFcompare.
  rewrite H. now destruct (Prim2SF x).
Qed.

Lemma ltb_nan_l x y : Prim2SF x = SpecFloat.S754_nan -> PrimFloat.ltb x y = false.
Proof.
  intros H. rewrite FloatAxioms.ltb_spec. unfold SpecFloat.SFltb, SpecFloat.SFcompare.
  now rewrite H.
Qed.

Lemma eqb_nan x : Prim2SF x = SpecFloat.S754_nan -> PrimFloat.eqb x x = false.
Proof.
  intros H. rewrite FloatAxioms.eqb_spec. unfold SpecFloat.SFeqb, SpecFloat.SFcompare.
  now rewrite H.
Qed.

Lemma div_nan_l x y :
  Prim2SF x = SpecFloat.S754_nan -> Prim2SF (x / y) = SpecFloat.S754_nan.
Proof.
  intros H. rewrite FloatAxioms.div_spec. unfold FloatAxioms.SF64div, SpecFloat.SFdiv.
  now rewrite H.
Qed.

Lemma mul_nan_l x y :
  Prim2SF x = SpecFloat.S754_nan -> Prim2SF (x * y) = SpecFloat.S754_nan.
Proof.
  intros H. rewrite FloatAxioms.mul_spec. unfold FloatAxioms.SF64mul, SpecFloat.SFmul.
  now rewrite H.
Qed.

Lemma mul_nan_r x y :
  Prim2SF y = SpecFloat.S754_nan -> Prim2SF (x * y) = SpecFloat.S754_nan.
Proof.
  intros H. rewrite FloatAxioms.mul_spec. unfold FloatAxioms.SF64mul, SpecFloat.SFmul.
  rewrite H. now destruct (Prim2SF x).
Qed.

Lemma add_nan_l x y :
  Prim2SF x = SpecFloat.S754_nan -> Prim2SF (x + y) = SpecFloat.S754_nan.
Proof.
  intros H. rewrite FloatAxioms.add_spec. unfold FloatAxioms.SF64add, SpecFloat.SFadd.
  now rewrite H.
Qed.

Lemma add_nan_r x y :
  Prim2SF y = SpecFloat.S754_nan -> Prim2SF (x + y) = SpecFloat.S754_nan.
Proof.
  intros H. rewrite FloatAxioms.add_spec. unfold FloatAxioms.SF64add, SpecFloat.SFadd.
  rewrite H. now destruct (Prim2SF x).
Qed.

(** What [cache?.models?.[model]] finds, from what [cache.models] itself
    holds for the model. *)
Lemma cache_member_held model cache :
  cache_member model cache
  = match c ← cache; ms ← models c; Some (ms !! model) with
    | Some (Some p) => Some (Own p)
    | Some None =>
        if bool_decide (model ∈ Object_prototype_names) then Some Inherited
        else None
    | None => None
    end.
Proof.
  unfold cache_member. destruct cache as [c|]; [|reflexivity]. cbn.
  destruct (models c) as [ms|]; [|reflexivity]. cbn.
  now destruct (ms !! model).
Qed.

(** C4.  [estimateCost] computes
    [inputCost = inputTokens / 1e6 * inputPrice],
    [outputCost = outputTokens / 1e6 * outputPrice] and
    [totalCost = inputCost + outputCost] in binary64 arithmetic.  When
    [cache.models] itself holds an entry for the model, the prices are
    those of the entry and [isEstimate = false]; with cached prices 5 and
    15, 100 input tokens and an output budget of 1000 tokens the costs
    are 0.0005, 0.015 and 0.0155.  When there is no cache, or it has no
    [models], or [models] holds no entry for the model and the model is
    not a name that every object inherits, the prices are the default 10
    and 30 and [isEstimate = true].  But for a model named like an
    inherited member, such as [toString], with no entry of its own in the
    [models] of the cache, the access [cache?.models?.[model]] finds the
    inherited member: [isEstimate] is [false] and all three costs are
    NaN, not the default ones. *)
Theorem estimateCost_arithmetic_and_fallback
    (tokenizer : Encoding -> string -> option (list Z))
    (m prompt : string) (systemPrompt : option string)
    (expected : option float) (cache : option PricingCache) :
  let e := estimateCost tokenizer m prompt systemPrompt expected cache in
  let held := c ← cache; ms ← models c; Some (ms !! m) in
  let costs (p : ModelPricing) :=
    inputCost e = (JS.number_of_Z (inputTokens e) / 1000000 * input p)%float
    /\ outputCost e = (estimatedOutputTokens e / 1000000 * output p)%float in
  (model e = m
   /\ inputTokens e
      = estimateTokens tokenizer (default "" systemPrompt +:+ prompt) (Some m)
   /\ estimatedOutputTokens e = default 1000%float expected
   /\ totalCost e = (inputCost e + outputCost e)%float)
  /\ (forall p, held = Some (Some p) ->
        costs p /\ getModelPricing m cache = Own p /\ isEstimate e = false)
  /\ (held = None \/ (held = Some None /\ m ∉ Object_prototype_names) ->
        costs DEFAULT_PRICING /\ input DEFAULT_PRICING = 10%float
        /\ output DEFAULT_PRICING = 30%float /\ isEstimate e = true)
  /\ (held = Some None -> m ∈ Object_prototype_names ->
        isEstimate e = false
        /\ PrimFloat.eqb (inputCost e) (inputCost e) = false
        /\ PrimFloat.eqb (outputCost e) (outputCost e) = false
        /\ PrimFloat.eqb (totalCost e) (totalCost e) = false)
  /\ (held = Some (Some {| input := 5; output := 15 |}) ->
      inputTokens e = 100 -> estimatedOutputTokens e = 1000%float ->
        inputCost e = 0.0005%float /\ outputCost e = 0.015%float
        /\ totalCost e = 0.0155%float /\ isEstimate e = false).
Proof.
  intros e held costs. subst e held costs.
  unfold estimateCost, getModelPricing. rewrite cache_member_held.
  cbn [model inputTokens estimatedOutputTokens inputCost outputCost totalCost
       isEstimate].
  split; [repeat split; reflexivity|].
  split; [intros p Hp; rewrite Hp; cbn; repeat split; reflexivity|].
  split.
  { intros [Hn|[Hn Hm]]; rewrite Hn; [cbn; repeat split; reflexivity|].
    rewrite (bool_decide_eq_false_2 (m ∈ Object_prototype_names) Hm). cbn.
    repeat split; reflexivity. }
  split.
  { intros Hn Hm. rewrite Hn.
    rewrite (bool_decide_eq_true_2 (m ∈ Object_prototype_names) Hm).
    cbn [Member_input Member_output].
    assert (Hin : forall x, Prim2SF (x * nan) = SpecFloat.S754_nan)
      by (intros x; apply mul_nan_r, Prim2SF_nan).
    split; [reflexivity|]. split; [apply eqb_nan, Hin|].
    split; [apply eqb_nan, Hin|]. apply eqb_nan, add_nan_l, Hin. }
  intros Hp Htok Hout. rewrite Hp. cbn in *. rewrite Htok, Hout.
  repeat split; vm_compute; reflexivity.
Qed.

Lemma estimateCost_example_witness :
  (inputCost example_estimate = 0.0005%float
   /\ outputCost example_estimate = 0.015%float
   /\ totalCost example_estimate = 0.0155%float
   /\ isEstimate example_estimate = false)
  /\ (isEstimate toString_estimate = false
      /\ PrimFloat.eqb (totalCost toString_estimate) (totalCost toString_estimate)
         = false)
  /\ isEstimate unknown_estimate = true.
Proof.
  split; [|split].
  - apply (estimateCost_arithmetic_and_fallback failing_tokenizer
             "openai/gpt-4o" (repeat_string 100 "word") None (Some 1000%float)
             (Some (example_cache 1700000000000)));
      vm_compute; reflexivity.
  - destruct (estimateCost_arithmetic_and_fallback failing_tokenizer
                "toString" "Hello" None None
                (Some (example_cache 1700000000000)))
      as (_ & _ & _ & H & _).
    destruct H as (He & _ & _ & Ht);
      [reflexivity | apply (bool_decide_unpack _); vm_compute; exact I |].
    split; [exact He | exact Ht].
  - destruct (estimateCost_arithmetic_and_fallback failing_tokenizer
                "acme/unknown" "Hello" None None
                (Some (example_cache 1700000000000)))
      as (_ & _ & H & _).
    destruct H as (_ & _ & _ & He); [|exact He].
    right. split; [reflexivity|]. apply (bool_decide_unpack _). vm_compute. exact I.
Defined.

(** C5.  [checkCostLimit] raises [CostLimitExceededError], carrying the
    estimate and the ceiling, exactly when the ceiling is greater than 0
    and the total cost is strictly greater than the ceiling; a ceiling of
    0 never raises; a ceiling of 0.01 against a total of 0.0155 raises. *)
Theorem checkCostLimit_trigger (est : CostEstimate) (maxCost : float) :
  (checkCostLimit est maxCost = Throw (CostLimitExceeded est maxCost)
   <-> PrimFloat.ltb 0 maxCost = true
       /\ PrimFloat.ltb maxCost (totalCost est) = true)
  /\ (checkCostLimit est maxCost = Ok tt
      <-> PrimFloat.ltb 0 maxCost && PrimFloat.ltb maxCost (totalCost est) = false)
  /\ checkCostLimit est 0%float = Ok tt
  /\ checkCostLimit est (-0)%float = Ok tt
  /\ totalCost example_estimate = 0.0155%float
  /\ checkCostLimit example_estimate 0.01%float
     = Throw (CostLimitExceeded example_estimate 0.01%float).
Proof.
  unfold checkCostLimit.
  split.
  { destruct (PrimFloat.ltb 0 maxCost), (PrimFloat.ltb maxCost (totalCost est));
      simpl; split; try tauto; try discriminate; intros [? ?]; discriminate. }
  split.
  { destruct (PrimFloat.ltb 0 maxCost), (PrimFloat.ltb maxCost (totalCost est));
      simpl; split; try reflexivity; discriminate. }
  split; [reflexivity|]. split; [reflexivity|].
  split; vm_compute; reflexivity.
Qed.

(** C7 as stated, valid if and only if
    [now - lastUpdated < ttlHours * 3600000], fails for a cache whose
    [lastUpdated] is 0: the inequality holds, yet the guard
    [!cache.lastUpdated] makes the cache invalid. *)
Lemma isPricingCacheValid_zero_timestamp :
  let now := 1700000000000 in
  let cache :=
    {| lastUpdated := Some 0; ttlHours := Some 1000000; models := Some ∅ |} in
  isPricingCacheValid now (Some cache) = false
  /\ now - 0 < 1000000 * 3600000.
Proof. split; [reflexivity | lia]. Qed.

(** C7 (amended).  A cache is valid exactly when its [lastUpdated] is
    present and not 0 and [now - lastUpdated < ttl * 3600000], where
    [ttl] is [ttlHours], or 24 when [ttlHours] is absent.  A cache last
    updated at [now - ttl * 3600000 - 1] is invalid; one last updated at
    [now] is valid when [now] is not 0 and [ttl] is positive; and
    [ensurePricingAvailable] returns a valid cache as it is, with no
    effect on the outside world. *)
Theorem isPricingCacheValid_boundary
    (parseFloat : string -> float) (w : World)
    (now : Z) (c : PricingCache) (config : RouterConfig) (apiKey : string) :
  let ttl := default DEFAULT_CACHE_TTL_HOURS (ttlHours c) in
  (isPricingCacheValid now (Some c) = true
   <-> exists t, lastUpdated c = Some t /\ t <> 0 /\ now - t < ttl * 3600000)
  /\ (lastUpdated c = Some (now - ttl * 3600000 - 1) ->
        isPricingCacheValid now (Some c) = false)
  /\ (lastUpdated c = Some now -> now <> 0 -> 0 < ttl ->
        isPricingCacheValid now (Some c) = true)
  /\ (isPricingCacheValid now (pricing config) = true ->
        exists c', pricing config = Some c'
          /\ ensurePricingAvailable parseFloat w now config apiKey = (Ok c', [])).
Proof.
  intros ttl. subst ttl. unfold isPricingCacheValid.
  split.
  { destruct (lastUpdated c) as [t|]; simpl.
    - destruct (Z.eqb_spec t 0) as [->|Hne]; simpl.
      + split; [discriminate | intros (t & Ht & Hne & _); congruence].
      + rewrite Z.ltb_lt. split.
        * intros H. exists t. repeat split; [assumption | lia].
        * intros (t' & Ht & _ & H). injection Ht as <-. lia.
    - split; [discriminate | intros (t & Ht & _); discriminate]. }
  split.
  { intros ->. simpl.
    destruct (Z.eqb_spec (now - default DEFAULT_CACHE_TTL_HOURS (ttlHours c) * 3600000 - 1) 0);
      simpl; [reflexivity|]. apply Z.ltb_ge. lia. }
  split.
  { intros -> Hnow Httl. simpl.
    destruct (Z.eqb_spec now 0); [contradiction|]. simpl. apply Z.ltb_lt. lia. }
  unfold ensurePricingAvailable, isPricingCacheValid.
  destruct (pricing config) as [c'|]; [|discriminate].
  intros ->. exists c'. split; reflexivity.
Qed.

Lemma isPricingCacheValid_boundary_witness :
  let now := 1700000000000 in
  isPricingCacheValid now (Some (example_cache now)) = true
  /\ isPricingCacheValid now (Some (stale_cache now)) = false
  /\ ensurePricingAvailable (fun _ => 0%float) offline_world now
       (example_config now) "sk-or-key"
     = (Ok (example_cache now), []).
Proof.
  intros now. split; [|split].
  - destruct (isPricingCacheValid_boundary (fun _ => 0%float) offline_world
                now (example_cache now) (example_config now) "sk-or-key")
      as (_ & _ & H & _).
    apply H; [reflexivity | subst now; lia | simpl; lia].
  - destruct (isPricingCacheValid_boundary (fun _ => 0%float) offline_world
                now (stale_cache now) (example_config now) "sk-or-key")
      as (_ & H & _).
    apply H. reflexivity.
  - destruct (isPricingCacheValid_boundary (fun _ => 0%float) offline_world
                now (example_cache now) (example_config now) "sk-or-key")
      as (_ & _ & _ & H).
    destruct H as (c' & Hc & Hens); [reflexivity|].
    simpl in Hc. injection Hc as <-. exact Hens.
Defined.

End PricingFacts.

(** ** Facts about [src/providers/base.ts] *)

Module BaseFacts.
Import Base BaseSpec.

(** *** Model resolution *)

Lemma truthy_falsy o : falsy o -> JS.truthy o = None.
Proof. intros [-> | ->]; reflexivity. Qed.

Lemma truthy_nonempty m : m <> "" -> JS.truthy (Some m) = Some m.
Proof. destruct m; [congruence | reflexivity]. Qed.

(** C1 as stated fails on two inputs.  For the capability
    [embedding] the code answers with the configured text model, though
    no model is configured for embeddings and a built-in one exists; and a
    requested model that is the empty string is not returned. *)
Lemma getModel_departs_from_stated_precedence :
  let cfg := config_text (Some "m2") in
  let p := initialize (new Adapters.OpenAIProvider) cfg in
  (getModel p embedding None = Ok "m2"
   /\ resolveModel_spec Adapters.OpenAIProvider cfg embedding None
      = Ok "text-embedding-3-large")
  /\ (getModel p text (Some "") = Ok "m2"
      /\ resolveModel_spec Adapters.OpenAIProvider cfg text (Some "") = Ok "").
Proof. repeat split. Qed.

(** C1 (amended).  On an initialized provider [getModel] returns the
    requested model when it is supplied and not empty; otherwise the
    configured model when it is present and not empty, read under the key
    of the capability, or under the key [text] for the capability
    [embedding]; otherwise the first built-in model of the capability;
    otherwise it throws the [ProviderError] "No model available for
    <capability>".  The four concrete cases of the claim follow. *)
Theorem getModel_precedence (a : Adapter) (cfg : ProviderConfig)
    (capability : Capability) (requestModel : option string) :
  let p := initialize (new a) cfg in
  let modelKey := if decide (capability = embedding) then text else capability in
  let configured := cm ← models cfg; configModels_get cm modelKey in
  (forall m, requestModel = Some m -> m <> "" ->
     getModel p capability requestModel = Ok m)
  /\ (falsy requestModel -> forall m, configured = Some m -> m <> "" ->
        getModel p capability requestModel = Ok m)
  /\ (falsy requestModel -> falsy configured ->
      forall m rest, getModels a capability = m :: rest ->
        getModel p capability requestModel = Ok m)
  /\ (falsy requestModel -> falsy configured -> getModels a capability = [] ->
        getModel p capability requestModel
        = Throw (ProviderError
                   ("No model available for " +:+ Capability_name capability)
                   (Some (id (meta a))) None))
  /\ getModel (initialize (new adapter_m3) (config_text (Some "m2"))) text (Some "m1")
     = Ok "m1"
  /\ getModel (initialize (new adapter_m3) (config_text (Some "m2"))) text None
     = Ok "m2"
  /\ getModel (initialize (new adapter_m3) (config_text None)) text None
     = Ok "m3"
  /\ getModel (initialize (new adapter_bare) (config_text None)) text None
     = Throw (ProviderError "No model available for text" (Some "acme") None).
Proof.
  intros p modelKey configured. subst p configured. unfold getModel. simpl.
  fold modelKey.
  split.
  { intros m -> Hm. now rewrite truthy_nonempty. }
  split.
  { intros Hreq m Hc Hm. rewrite (truthy_falsy _ Hreq).
    destruct (models cfg) as [cm|]; simpl in *; [|discriminate].
    now rewrite Hc, truthy_nonempty. }
  assert (Hcfg : falsy (cm ← models cfg; configModels_get cm modelKey) ->
            (cm ← models cfg; JS.truthy (configModels_get cm modelKey)) = None).
  { destruct (models cfg) as [cm|]; simpl; [|reflexivity].
    apply truthy_falsy. }
  split.
  { intros Hreq Hc m rest Hb. now rewrite (truthy_falsy _ Hreq), (Hcfg Hc), Hb. }
  split.
  { intros Hreq Hc Hb. now rewrite (truthy_falsy _ Hreq), (Hcfg Hc), Hb. }
  repeat split.
Qed.

Lemma getModel_precedence_witness :
  getModel (initialize (new Adapters.GoogleProvider) (config_text (Some "gemini-pro")))
    text (Some "gemini-1.5-flash") = Ok "gemini-1.5-flash"
  /\ getModel (initialize (new Adapters.GoogleProvider) (config_text (Some "gemini-pro")))
       embedding (Some "") = Ok "gemini-pro"
  /\ getModel (initialize (new Adapters.GoogleProvider) (config_text (Some "")))
       video None = Ok "veo-001"
  /\ getModel (initialize (new Adapters.GoogleProvider) (config_text None))
       audio None
     = Throw (ProviderError "No model available for audio" (Some "google") None).
Proof.
  split; [|split; [|split]].
  - destruct (getModel_precedence Adapters.GoogleProvider
                (config_text (Some "gemini-pro")) text (Some "gemini-1.5-flash"))
      as (H & _).
    apply H; [reflexivity | discriminate].
  - destruct (getModel_precedence Adapters.GoogleProvider
                (config_text (Some "gemini-pro")) embedding (Some ""))
      as (_ & H & _).
    apply H; [right; reflexivity | reflexivity | discriminate].
  - destruct (getModel_precedence Adapters.GoogleProvider
                (config_text (Some "")) video None) as (_ & _ & H & _).
    apply (H (or_introl eq_refl) (or_introl eq_refl) "veo-001" []). reflexivity.
  - destruct (getModel_precedence Adapters.GoogleProvider
                (config_text None) audio None) as (_ & _ & _ & H & _).
    apply H; [left; reflexivity | left; reflexivity | reflexivity].
Defined.

(** *** The retry executor *)

Lemma attempts_backoff_trace url options t i n :
  attempts (backoff_trace (EvFetch url options t) i n) = n.
Proof.
  revert i. induction n as [|n IH]; intros i; [reflexivity|].
  destruct n as [|n]; [reflexivity|].
  specialize (IH (S i)). unfold attempts in *. simpl in *. now rewrite IH.
Qed.


Section RetryFacts.

Variable network : nat -> FetchOutcome.
Variables (p : Provider) (cfg : ProviderConfig).
Variables (url : string) (options : RequestInit).
Hypothesis Hcfg : config p = Some cfg.

Let F : Event := EvFetch url options (default 60000 (timeout cfg)).
Let outcome (i : nat) : Result Error Response :=
  fst (attempt network p url options i).
Let unknown : Error :=
  ProviderError "Unknown error" (Some (id (meta (adapter p)))) None.

Lemma attempt_events i : snd (attempt network p url options i) = [F].
Proof.
  unfold attempt. rewrite Hcfg. subst F.
  destruct (network i) as [r|e]; [|reflexivity].
  destruct (negb (ok r)); [|reflexivity].
  destruct (body r); reflexivity.
Qed.

Lemma attempt_split i : attempt network p url options i = (outcome i, [F]).
Proof.
  pose proof (attempt_events i) as H. subst outcome. simpl.
  destruct (attempt network p url options i) as [res evs].
  simpl in H. now subst evs.
Qed.

(** The loop never runs out of fuel, and its trace has the shape of
    [backoff_trace]. *)
Lemma retry_loop_total N fuel :
  forall i lastError,
    N - Z.of_nat i <= Z.of_nat fuel ->
    exists res n,
      retry_loop network fuel p url options N i lastError
      = Some (res, backoff_trace F i n)
      /\ Z.of_nat (i + n) <= Z.max N (Z.of_nat i)
      /\ (n = 0%nat <-> N <= Z.of_nat i).
Proof.
  induction fuel as [|fuel IH]; intros i lastError Hfuel; simpl.
  - destruct (Z.ltb_spec (Z.of_nat i) N) as [Hlt|Hge]; [lia|].
    exists (Throw (default unknown lastError)), 0%nat.
    split; [reflexivity|]. split; [lia|]. split; [lia | reflexivity].
  - destruct (Z.ltb_spec (Z.of_nat i) N) as [Hlt|Hge].
    + rewrite attempt_split. destruct (outcome i) as [r|e].
      * exists (Ok r), 1%nat. split; [reflexivity|]. split; lia.
      * destruct (IH (S i) (Some e)) as (res & n & -> & Hbound & Hzero); [lia|].
        exists res, (S n). split.
        { replace (Z.of_nat i + 1) with (Z.of_nat (S i)) by lia.
          destruct n as [|n];
            destruct (Z.ltb_spec (Z.of_nat i) (N - 1)) as [Hlt'|Hge'].
          - exfalso. assert (N <= Z.of_nat (S i)) by (now apply Hzero). lia.
          - reflexivity.
          - reflexivity.
          - exfalso. assert (S n = 0%nat) by (apply Hzero; lia). discriminate. }
        split; lia.
    + exists (Throw (default unknown lastError)), 0%nat.
      split; [reflexivity|]. split; [lia|]. split; [lia | reflexivity].
Qed.




Lemma fetchWithRetry_unfold retries :
  fetchWithRetry network p url options retries
  = let N := default (default 3 (maxRetries cfg)) retries in
    retry_loop network (Z.to_nat N) p url options N 0 None.
Proof. unfold fetchWithRetry. rewrite Hcfg. now destruct retries. Qed.

End RetryFacts.



End BaseFacts.

(** ** Facts about [src/providers/index.ts] *)

Module RegistryFacts.
Import Base Registry RegistrySpec.

Lemma factories_get_set fs id factory id' :
  factories_get (factories_set fs id factory) id'
  = if decide (id = id') then Some factory else factories_get fs id'.
Proof.
  induction fs as [|[k f] fs IH]; simpl.
  - repeat case_decide; congruence.
  - destruct (decide (k = id)) as [->|Hk]; simpl.
    + repeat case_decide; congruence.
    + rewrite IH. repeat case_decide; congruence.
Qed.

Lemma cached_registered_init : cached_registered init.
Proof. intros id r H. discriminate. Qed.

Lemma cached_registered_step st c :
  cached_registered st -> cached_registered (step st c).
Proof.
  intros Hinv id r. destruct c as [id' f|id' cfg| |id'|cap]; simpl.
  - intros H. destruct (Hinv _ _ H) as [Hf Hh]. split; [|exact Hh].
    rewrite factories_get_set. case_decide; [eauto | exact Hf].
  - unfold getProvider.
    destruct (providers st !! id') as [r'|] eqn:Hc; simpl; [apply Hinv|].
    destruct (factories_get (factories st) id') as [f|] eqn:Hf; simpl; [|apply Hinv].
    destruct (decide (id' = id)) as [->|Hne].
    + rewrite lookup_insert_eq. intros [= <-]. rewrite Hf. split; [eauto|].
      rewrite lookup_app_r by reflexivity. rewrite Nat.sub_diag. simpl. eauto.
    + rewrite lookup_insert_ne by assumption. intros H.
      destruct (Hinv _ _ H) as [Hf' [obj Hh]]. split; [exact Hf'|].
      exists obj. now apply lookup_app_l_Some.
  - apply Hinv.
  - unfold getProviderInfo.
    destruct (factories_get (factories st) id'); simpl; [|apply Hinv].
    intros H. destruct (Hinv _ _ H) as [Hf' [obj Hh]]. split; [exact Hf'|].
    exists obj. now apply lookup_app_l_Some.
  - intros H. destruct (Hinv _ _ H) as [Hf' [obj Hh]]. split; [exact Hf'|].
    exists obj. now apply lookup_app_l_Some.
Qed.

Lemma cached_registered_run calls :
  forall st, cached_registered st -> cached_registered (run st calls).
Proof.
  induction calls as [|c calls IH]; intros st H; [exact H|].
  apply IH, cached_registered_step, H.
Qed.

(** A cached provider stays cached under the same reference, and the
    object behind the reference is not touched, whatever is called. *)
Lemma step_keeps_cached st c id r (obj : Provider) :
  providers st !! id = Some r -> heap st !! r = Some obj ->
  providers (step st c) !! id = Some r /\ heap (step st c) !! r = Some obj.
Proof.
  intros Hc Hh. destruct c as [id' f|id' cfg| |id'|cap]; simpl.
  - now split.
  - unfold getProvider.
    destruct (providers st !! id') as [r'|] eqn:Hc'; simpl; [now split|].
    destruct (factories_get (factories st) id') as [f|]; simpl; [|now split].
    split.
    + rewrite lookup_insert_ne; [assumption | congruence].
    + apply lookup_app_l_Some, Hh.
  - now split.
  - unfold getProviderInfo.
    destruct (factories_get (factories st) id'); simpl; [|now split].
    split; [assumption | apply lookup_app_l_Some, Hh].
  - split; [assumption | apply lookup_app_l_Some, Hh].
Qed.

Lemma run_keeps_cached calls :
  forall st id r (obj : Provider),
    providers st !! id = Some r -> heap st !! r = Some obj ->
    providers (run st calls) !! id = Some r /\ heap (run st calls) !! r = Some obj.
Proof.
  induction calls as [|c calls IH]; intros st id r obj Hc Hh; [now split|].
  destruct (step_keeps_cached st c id r obj Hc Hh) as [Hc' Hh'].
  exact (IH _ _ _ _ Hc' Hh').
Qed.

Lemma getProvider_cached st id config r :
  providers st !! id = Some r -> getProvider st id config = (Ok r, st).
Proof. unfold getProvider. now intros ->. Qed.

(** A [getProvider] for a registered id succeeds and leaves the provider
    cached and on the heap; when it was not cached before, the object is a
    new one, initialized only if a configuration was passed. *)
Lemma getProvider_registered st id config factory :
  cached_registered st ->
  factories_get (factories st) id = Some factory ->
  exists r st1 obj,
    getProvider st id config = (Ok r, st1)
    /\ providers st1 !! id = Some r
    /\ heap st1 !! r = Some obj
    /\ (providers st !! id = None ->
        obj = match config with
              | Some c => initialize (new factory) c
              | None => new factory
              end).
Proof.
  intros Hinv Hf. unfold getProvider.
  destruct (providers st !! id) as [r|] eqn:Hc.
  - destruct (Hinv _ _ Hc) as [_ [obj Hh]]. exists r, st, obj.
    split; [reflexivity|]. split; [assumption|]. split; [assumption | discriminate].
  - rewrite Hf. eexists _, _, _. split; [reflexivity|]. simpl.
    split; [apply lookup_insert_eq|]. split; [|reflexivity].
    rewrite lookup_app_r by reflexivity. now rewrite Nat.sub_diag.
Qed.

(** [getProvider] run to completion is its two parts run one after the
    other. *)
Lemma getProvider_start_resume st id config :
  getProvider st id config
  = match getProvider_start st id config with
    | (Returned res, st') => (res, st')
    | (Suspended provider, st') => getProvider_resume st' id provider
    end.
Proof.
  unfold getProvider, getProvider_start, getProvider_resume.
  destruct (providers st !! id); [reflexivity|].
  destruct (factories_get (factories st) id); [|reflexivity].
  destruct config; reflexivity.
Qed.

(** Two calls can overlap, since [getProvider] awaits [initialize] before
    it fills the cache: when both start before either goes on, each
    builds its own provider, whatever the configuration, and the one
    cached is the one of the call that resumes last. *)
Remark getProvider_overlapping_calls (config : ProviderConfig) :
  let '(a, st1) := getProvider_start init "openai" (Some config) in
  let '(b, st2) := getProvider_start st1 "openai" (Some config) in
  a = Suspended 0%nat /\ b = Suspended 1%nat
  /\ let '(ra, st3) := getProvider_resume st2 "openai" 0%nat in
     let '(rb, st4) := getProvider_resume st3 "openai" 1%nat in
     ra = Ok 0%nat /\ rb = Ok 1%nat /\ providers st4 !! "openai" = Some 1%nat.
Proof. repeat split. Qed.

(** C6 as stated, two calls for one id return the identical instance
    and at most one instance per id is live, fails for two calls that
    overlap: each of them finds the cache empty before the other has
    filled it, so they return the two different providers they built,
    both live, and the second one replaces the first in the cache. *)
Lemma getProvider_overlapping_calls_differ :
  let config := Some (BaseSpec.config_text None) in
  let st1 := snd (getProvider_start init "openai" config) in
  let st2 := snd (getProvider_start st1 "openai" config) in
  let st3 := snd (getProvider_resume st2 "openai" 0%nat) in
  let st4 := snd (getProvider_resume st3 "openai" 1%nat) in
  fst (getProvider_start init "openai" config) = Suspended 0%nat
  /\ fst (getProvider_start st1 "openai" config) = Suspended 1%nat
  /\ fst (getProvider_resume st2 "openai" 0%nat) = Ok 0%nat
  /\ fst (getProvider_resume st3 "openai" 1%nat) = Ok 1%nat
  /\ length (heap st4) = 2%nat
  /\ providers st4 !! "openai" = Some 1%nat.
Proof. repeat split. Qed.

(** C6 (amended).  In every state the registry reaches by calls that are
    each run to completion before the next, [getProvider] for a
    registered id succeeds, a second call returns the same reference and
    changes nothing, whatever configuration it passes, and so does every
    later call, after any calls of the registry in between: the object
    behind the reference is the one cached first, as it was.  For an id
    with no registered factory [getProvider] throws the [ProviderError]
    "Unknown provider: <id>". *)
Theorem getProvider_cached_identity (calls : list Call) (id : string)
    (config1 config2 : option ProviderConfig) :
  let st := run init calls in
  (is_Some (factories_get (factories st) id) ->
   exists r st1,
     getProvider st id config1 = (Ok r, st1)
     /\ getProvider st1 id config2 = (Ok r, st1)
     /\ is_Some (heap st1 !! r)
     /\ forall calls' config3,
          getProvider (run st1 calls') id config3 = (Ok r, run st1 calls')
          /\ heap (run st1 calls') !! r = heap st1 !! r)
  /\ (factories_get (factories st) id = None ->
      getProvider st id config1
      = (Throw (ProviderError ("Unknown provider: " +:+ id) (Some id) None), st)).
Proof.
  intros st.
  assert (Hinv : cached_registered st)
    by apply cached_registered_run, cached_registered_init.
  split.
  - intros [factory Hf].
    destruct (getProvider_registered st id config1 factory Hinv Hf)
      as (r & st1 & obj & Hget & Hc & Hh & _).
    exists r, st1. split; [exact Hget|].
    split; [now apply getProvider_cached|].
    split; [eauto|].
    intros calls' config3.
    destruct (run_keeps_cached calls' st1 id r obj Hc Hh) as [Hc' Hh'].
    split; [now apply getProvider_cached | congruence].
  - intros Hf. unfold getProvider.
    destruct (providers st !! id) as [r|] eqn:Hc.
    + destruct (Hinv _ _ Hc) as [[f Hf'] _]. congruence.
    + now rewrite Hf.
Qed.

Lemma getProvider_cached_identity_witness :
  let config :=
    {| apiKey := "sk-1"; baseUrl := None; timeout := None;
       maxRetries := None; organization := None; projectId := None;
       region := None; models := None |} in
  let config' :=
    {| apiKey := "sk-2"; baseUrl := None; timeout := Some 5;
       maxRetries := Some 1; organization := None; projectId := None;
       region := None; models := None |} in
  (exists r st1,
     getProvider init "openai" (Some config) = (Ok r, st1)
     /\ getProvider st1 "openai" (Some config') = (Ok r, st1)
     /\ heap st1 !! r = Some (initialize (new Adapters.OpenAIProvider) config))
  /\ getProvider init "anthropic" (Some config)
     = (Throw (ProviderError "Unknown provider: anthropic" (Some "anthropic") None),
        init).
Proof.
  intros config config'. split.
  - destruct (getProvider_cached_identity [] "openai" (Some config) (Some config'))
      as [H _].
    destruct H as (r & st1 & H1 & H2 & _); [eexists; reflexivity|].
    exists r, st1. split; [exact H1|]. split; [exact H2|].
    simpl in H1. injection H1 as <- <-. reflexivity.
  - destruct (getProvider_cached_identity [] "anthropic" (Some config) None)
      as [_ H].
    apply H. reflexivity.
Defined.

(** C9.  When the first [getProvider] for an id passes no configuration,
    the provider it caches was never initialized; every later
    [getProvider] for the id, with a configuration or not and after any
    calls of the registry, returns that same provider and leaves it as it
    is: [initialized] is still [false] and [ensureInitialized] throws. *)
Theorem getProvider_uninitialized_forever (calls calls' : list Call)
    (providerId : string) (factory : ProviderFactory) (config : ProviderConfig) :
  let st := run init calls in
  providers st !! providerId = None ->
  factories_get (factories st) providerId = Some factory ->
  exists r st1,
    getProvider st providerId None = (Ok r, st1)
    /\ heap st1 !! r = Some (new factory)
    /\ let st2 := run st1 calls' in
       getProvider st2 providerId (Some config) = (Ok r, st2)
       /\ heap st2 !! r = Some (new factory)
       /\ initialized (new factory) = false
       /\ ensureInitialized (new factory)
          = Throw (ProviderError
                     (name (meta factory) +:+ " provider not initialized")
                     (Some (id (meta factory))) None).
Proof.
  intros st Hc Hf.
  assert (Hinv : cached_registered st)
    by apply cached_registered_run, cached_registered_init.
  destruct (getProvider_registered st providerId None factory Hinv Hf)
    as (r & st1 & obj & Hget & Hc1 & Hh1 & Hobj).
  specialize (Hobj Hc). subst obj.
  exists r, st1. split; [exact Hget|]. split; [exact Hh1|].
  intros st2.
  destruct (run_keeps_cached calls' st1 providerId r _ Hc1 Hh1) as [Hc2 Hh2].
  split; [now apply getProvider_cached|].
  split; [exact Hh2|]. split; reflexivity.
Qed.

Lemma getProvider_uninitialized_forever_witness :
  let config :=
    {| apiKey := "sk-1"; baseUrl := None; timeout := None;
       maxRetries := None; organization := None; projectId := None;
       region := None; models := None |} in
  let calls' :=
    [CallGetProviderInfo "google"; CallGetProvider "openai" (Some config);
     CallFindProvidersForCapability text; CallGetProvider "google" (Some config)] in
  exists r st1,
    getProvider init "google" None = (Ok r, st1)
    /\ getProvider (run st1 calls') "google" (Some config) = (Ok r, run st1 calls')
    /\ heap (run st1 calls') !! r = Some (new Adapters.GoogleProvider)
    /\ ensureInitialized (new Adapters.GoogleProvider)
       = Throw (ProviderError "Google AI provider not initialized" (Some "google") None).
Proof.
  intros config calls'.
  destruct (getProvider_uninitialized_forever [] calls' "google"
              Adapters.GoogleProvider config)
    as (r & st1 & H1 & _ & H2 & H3 & _ & H4); [reflexivity | reflexivity |].
  exists r, st1. repeat split; assumption.
Defined.

End RegistryFacts.

(** ** Facts about the SSE decoders *)

Module SSEFacts.
Import Json SSE SSESpec.

Lemma append_nil_r s : s +:+ "" = s.
Proof.
  induction s as [|c s IH]; [reflexivity|].
  change (String c (s +:+ "") = String c s). now f_equal.
Qed.

Lemma append_assoc s1 s2 s3 : (s1 +:+ s2) +:+ s3 = s1 +:+ (s2 +:+ s3).
Proof.
  induction s1 as [|c s1 IH]; [reflexivity|].
  change (String c ((s1 +:+ s2) +:+ s3) = String c (s1 +:+ s2 +:+ s3)).
  now f_equal.
Qed.

Lemma split_nonempty sep s : JS.split sep s <> [].
Proof.
  destruct s as [|c r]; simpl; [discriminate|].
  destruct (Ascii.eqb c sep); [discriminate|].
  destruct (JS.split sep r); discriminate.
Qed.

Lemma split_no_sep sep s : contains sep s = false -> JS.split sep s = [s].
Proof.
  induction s as [|c r IH]; simpl; [reflexivity|].
  destruct (Ascii.eqb c sep); simpl; [discriminate|].
  intros H. now rewrite (IH H).
Qed.

Lemma last_split_no_sep sep s : contains sep (List.last (JS.split sep s) "") = false.
Proof.
  induction s as [|c r IH]; [reflexivity|]. simpl.
  destruct (Ascii.eqb c sep) eqn:Hc.
  - pose proof (split_nonempty sep r). simpl.
    destruct (JS.split sep r); [contradiction | exact IH].
  - pose proof (split_nonempty sep r).
    destruct (JS.split sep r) as [|h [|h' t]]; [contradiction | |].
    + simpl in *. now rewrite Hc.
    + exact IH.
Qed.

(** Splitting a text in two pieces: the lines the first piece completes,
    then the lines of its unfinished end followed by the second piece. *)
Lemma split_app sep a b :
  JS.split sep (a +:+ b)
  = removelast (JS.split sep a)
    ++ JS.split sep (List.last (JS.split sep a) "" +:+ b).
Proof.
  induction a as [|c a IH]; [reflexivity|].
  change (String c a +:+ b) with (String c (a +:+ b)). simpl.
  pose proof (split_nonempty sep a) as Hne.
  destruct (Ascii.eqb c sep) eqn:Hc.
  - rewrite IH. destruct (JS.split sep a) as [|h t]; [contradiction | reflexivity].
  - rewrite IH. destruct (JS.split sep a) as [|h [|h' t]]; [contradiction | |].
    + simpl. now rewrite Hc.
    + reflexivity.
Qed.

Lemma complete_lines_app a b :
  complete_lines (a +:+ b)
  = complete_lines a
    ++ complete_lines (List.last (JS.split newline a) "" +:+ b).
Proof.
  unfold complete_lines. rewrite split_app.
  apply removelast_app, split_nonempty.
Qed.

Lemma complete_lines_no_newline s :
  contains newline s = false -> complete_lines s = [].
Proof. intros H. unfold complete_lines. now rewrite split_no_sep. Qed.

(** What the loop yields depends on the chunks only through their text:
    it is what the completed lines yield, in order. *)
Lemma read_loop_chunks on_line chunks :
  forall buffer,
    contains newline buffer = false ->
    read_loop on_line (map Chunk chunks) buffer
    = (flat_map on_line (complete_lines (buffer +:+ text_of chunks)), Ok tt).
Proof.
  induction chunks as [|value chunks IH]; intros buffer Hb.
  - cbn. now rewrite append_nil_r, complete_lines_no_newline.
  - cbn [map read_loop]. unfold TextDecoder_decode.
    rewrite (IH _ (last_split_no_sep newline (buffer +:+ value))).
    change (text_of (value :: chunks)) with (value +:+ text_of chunks).
    rewrite <- append_assoc.
    rewrite (complete_lines_app (buffer +:+ value) (text_of chunks)).
    rewrite flat_map_app. reflexivity.
Qed.

Lemma decode_stream_chunks on_line chunks :
  decode_stream on_line (map Chunk chunks)
  = (map Yield (flat_map on_line (complete_lines (text_of chunks))) ++ [ReleaseLock],
     Ok tt).
Proof.
  unfold decode_stream. now rewrite read_loop_chunks.
Qed.

(** The lock is released on an error of the reader too, and the error
    goes on to the consumer. *)
Lemma decode_stream_releases on_line reads :
  exists chunks res,
    decode_stream on_line reads = (map Yield chunks ++ [ReleaseLock], res).
Proof.
  unfold decode_stream. destruct (read_loop on_line reads "") as [chunks res].
  now exists chunks, res.
Qed.

Lemma openai_line_not_data line :
  JS.startsWith line "data: " = false -> openai_line line = [].
Proof. unfold openai_line. now intros ->. Qed.

Lemma google_line_not_data line :
  JS.startsWith line "data: " = false -> google_line line = [].
Proof. unfold google_line. now intros ->. Qed.

Lemma split_line sep line rest :
  contains sep line = false ->
  JS.split sep (line +:+ String sep rest) = line :: JS.split sep rest.
Proof.
  induction line as [|c line IH]; intros H.
  - change ("" +:+ String sep rest) with (String sep rest).
    simpl. now rewrite Ascii.eqb_refl.
  - change (String c line +:+ String sep rest)
      with (String c (line +:+ String sep rest)).
    simpl in *. destruct (Ascii.eqb c sep); [discriminate|].
    simpl in H. now rewrite (IH H).
Qed.

Lemma complete_lines_line line rest :
  contains newline line = false ->
  complete_lines (line +:+ nl +:+ rest) = line :: complete_lines rest.
Proof.
  intros H. unfold complete_lines, nl.
  change (String newline "" +:+ rest) with (String newline rest).
  rewrite (split_line newline line rest H).
  pose proof (split_nonempty newline rest).
  simpl. now destruct (JS.split newline rest).
Qed.

Lemma text_of_snoc chunks tail : text_of (chunks ++ [tail]) = text_of chunks +:+ tail.
Proof.
  induction chunks as [|c chunks IH]; cbn.
  - apply append_nil_r.
  - change (text_of (chunks ++ [tail])) with (foldr String.append "" (chunks ++ [tail])) in IH.
    rewrite IH. symmetry. apply append_assoc.
Qed.

(** C3.  Whatever the chunks that carry it, the text made of the line
    [data: {"choices":[{"delta":{"content":"Hi"}}]}], a newline, the line
    [data: [DONE]] and a newline yields the one chunk "Hi", after which
    the lock is released and the sequence ends normally; the line
    [data: not-json] and a newline yield nothing and throw nothing; a line
    that does not start with "data: " yields nothing, and a stream with
    such a line between two lines behaves as the stream without it. *)
Theorem parseSSEStream_round_trip :
  (forall chunks, text_of chunks = hi_stream ->
     OpenAI_parseSSEStream (map Chunk chunks)
     = ([Yield (JString "Hi"); ReleaseLock], Ok tt)
     /\ OpenRouter_parseSSEStream (map Chunk chunks)
        = ([Yield (JString "Hi"); ReleaseLock], Ok tt))
  /\ (forall chunks, text_of chunks = "data: not-json" +:+ nl ->
        OpenAI_parseSSEStream (map Chunk chunks) = ([ReleaseLock], Ok tt)
        /\ OpenRouter_parseSSEStream (map Chunk chunks) = ([ReleaseLock], Ok tt))
  /\ (forall line, JS.startsWith line "data: " = false -> openai_line line = [])
  /\ (forall chunks chunks' before line after,
        JS.startsWith line "data: " = false ->
        contains newline line = false ->
        List.last (JS.split newline before) "" = "" ->
        text_of chunks = before +:+ line +:+ nl +:+ after ->
        text_of chunks' = before +:+ after ->
        OpenAI_parseSSEStream (map Chunk chunks)
        = OpenAI_parseSSEStream (map Chunk chunks')
        /\ OpenRouter_parseSSEStream (map Chunk chunks)
           = OpenRouter_parseSSEStream (map Chunk chunks')).
Proof.
  unfold OpenAI_parseSSEStream, OpenRouter_parseSSEStream.
  split; [|split; [|split]].
  - intros chunks H. rewrite decode_stream_chunks, H. now vm_compute.
  - intros chunks H. rewrite decode_stream_chunks, H. now vm_compute.
  - apply openai_line_not_data.
  - intros chunks chunks' before line after Hline Hnl Hbefore H H'.
    rewrite !decode_stream_chunks, H, H'.
    rewrite (complete_lines_app before (line +:+ nl +:+ after)).
    rewrite (complete_lines_app before after), Hbefore.
    change ("" +:+ line +:+ nl +:+ after) with (line +:+ nl +:+ after).
    change ("" +:+ after) with after.
    rewrite (complete_lines_line line after Hnl), !flat_map_app.
    cbn [flat_map]. rewrite (openai_line_not_data line Hline).
    now split.
Qed.

Lemma parseSSEStream_round_trip_witness :
  OpenAI_parseSSEStream
    [Chunk "data: {"; Chunk (hi_payload +:+ nl +:+ "data: [DO");
     Chunk ("NE]" +:+ nl)]
  = ([Yield (JString "Hi"); ReleaseLock], Ok tt)
  /\ OpenRouter_parseSSEStream [Chunk "data: not"; Chunk ("-json" +:+ nl)]
     = ([ReleaseLock], Ok tt)
  /\ openai_line ": keep-alive" = []
  /\ OpenAI_parseSSEStream
       [Chunk (hi_line +:+ nl +:+ "event: done" +:+ nl +:+ "data: [DONE]" +:+ nl)]
     = OpenAI_parseSSEStream [Chunk (hi_line +:+ nl); Chunk ("data: [DONE]" +:+ nl)].
Proof.
  destruct parseSSEStream_round_trip as (Hhi & Hbad & Hline & Hskip).
  split; [|split; [|split]].
  - apply (Hhi ["data: {"; hi_payload +:+ nl +:+ "data: [DO"; "NE]" +:+ nl]).
    reflexivity.
  - apply (Hbad ["data: not"; "-json" +:+ nl]). reflexivity.
  - apply Hline. reflexivity.
  - apply (Hskip [hi_line +:+ nl +:+ "event: done" +:+ nl +:+ "data: [DONE]" +:+ nl]
                 [hi_line +:+ nl; "data: [DONE]" +:+ nl]
                 (hi_line +:+ nl) "event: done" ("data: [DONE]" +:+ nl));
      reflexivity.
Defined.

(** C10.  A final piece of text that no newline ends is dropped when the
    stream ends: a last chunk without a newline changes nothing; what is
    yielded is what the lines completed by a newline yield, so the line
    [data: {...}] alone yields nothing, though it yields "Hi" once a
    newline follows it.  This holds for [parseSSEStream] and for
    [parseGoogleSSEStream]. *)
Theorem unterminated_tail_discarded (chunks : list string) (tail : string) :
  contains newline tail = false ->
  (OpenAI_parseSSEStream (map Chunk (chunks ++ [tail]))
   = OpenAI_parseSSEStream (map Chunk chunks)
   /\ parseGoogleSSEStream (map Chunk (chunks ++ [tail]))
      = parseGoogleSSEStream (map Chunk chunks))
  /\ (OpenAI_parseSSEStream (map Chunk chunks)
      = (map Yield (flat_map openai_line (complete_lines (text_of chunks)))
         ++ [ReleaseLock], Ok tt)
      /\ parseGoogleSSEStream (map Chunk chunks)
         = (map Yield (flat_map google_line (complete_lines (text_of chunks)))
            ++ [ReleaseLock], Ok tt))
  /\ (OpenAI_parseSSEStream [Chunk hi_line] = ([ReleaseLock], Ok tt)
      /\ OpenAI_parseSSEStream [Chunk (hi_line +:+ nl)]
         = ([Yield (JString "Hi"); ReleaseLock], Ok tt))
  /\ (parseGoogleSSEStream [Chunk google_hi_line] = ([ReleaseLock], Ok tt)
      /\ parseGoogleSSEStream [Chunk (google_hi_line +:+ nl)]
         = ([Yield (JString "Hi"); ReleaseLock], Ok tt)).
Proof.
  intros Htail. unfold OpenAI_parseSSEStream, parseGoogleSSEStream.
  assert (Hdrop : complete_lines (text_of (chunks ++ [tail]))
                  = complete_lines (text_of chunks)).
  { rewrite text_of_snoc, complete_lines_app.
    rewrite (complete_lines_no_newline (_ +:+ tail)); [apply app_nil_r|].
    clear -Htail. generalize (last_split_no_sep newline (text_of chunks)).
    generalize (List.last (JS.split newline (text_of chunks)) "").
    intros s Hs. induction s as [|c s IH]; [exact Htail|].
    change (String c s +:+ tail) with (String c (s +:+ tail)).
    simpl in *. destruct (Ascii.eqb c newline); [discriminate|]. now apply IH. }
  split; [|split; [|split]].
  - rewrite !decode_stream_chunks, Hdrop. now split.
  - rewrite !decode_stream_chunks. now split.
  - split; now vm_compute.
  - split; now vm_compute.
Qed.

Lemma unterminated_tail_discarded_witness :
  OpenAI_parseSSEStream [Chunk (hi_line +:+ nl); Chunk hi_line]
  = OpenAI_parseSSEStream [Chunk (hi_line +:+ nl)]
  /\ parseGoogleSSEStream [Chunk (google_hi_line +:+ nl); Chunk google_hi_line]
     = parseGoogleSSEStream [Chunk (google_hi_line +:+ nl)].
Proof.
  split.
  - destruct (unterminated_tail_discarded [hi_line +:+ nl] hi_line)
      as ((H & _) & _); [reflexivity | exact H].
  - destruct (unterminated_tail_discarded [google_hi_line +:+ nl] google_hi_line)
      as ((_ & H) & _); [reflexivity | exact H].
Defined.

End SSEFacts.

(** ** Facts about the file names of generated images *)

Module ImagesFacts.
Import Images ImagesSpec.

(** Where no file system is named, it is the one that carries out
    whatever it is asked. *)
#[local] Existing Instance reliable.

Lemma written_app e1 e2 : written (e1 ++ e2) = written e1 ++ written e2.
Proof. unfold written. apply omap_app. Qed.

Lemma saveMedia_effects {fs : FileSystem} join timestamp data options :
  written (snd (saveMedia join timestamp data options))
  = match data with
    | Some encoded =>
        match Bun_mkdir (directory options) with
        | Ok _ =>
            if atob_ok encoded
            then [join (directory options)
                    (default (type options +:+ "_" +:+ pretty timestamp +:+ "."
                              +:+ format options) (filename options))]
            else []
        | Throw _ => []
        end
    | None => []
    end.
Proof.
  unfold saveMedia. destruct (Bun_mkdir (directory options)); [|now destruct data].
  destruct data as [encoded|]; [|reflexivity].
  destruct (atob_ok encoded); [|reflexivity].
  now destruct (Bun_write _).
Qed.

Lemma length_append a b :
  String.length (a +:+ b) = (String.length a + String.length b)%nat.
Proof.
  induction a as [|c a IH]; [reflexivity|].
  change (String c a +:+ b) with (String c (a +:+ b)). simpl. now rewrite IH.
Qed.

Lemma append_inj_r a b r : a +:+ r = b +:+ r -> a = b.
Proof.
  revert b. induction a as [|c a IH]; intros [|d b] H.
  - reflexivity.
  - apply (f_equal String.length) in H.
    change (String d b +:+ r) with (String d (b +:+ r)) in H.
    change ("" +:+ r) with r in H. simpl in H. rewrite length_append in H. lia.
  - apply (f_equal String.length) in H.
    change (String c a +:+ r) with (String c (a +:+ r)) in H.
    change ("" +:+ r) with r in H. simpl in H. rewrite length_append in H. lia.
  - change (String c (a +:+ r) = String d (b +:+ r)) in H.
    injection H as -> H. f_equal. now apply IH.
Qed.

(** [split_last_dot] cuts at a dot. *)
Lemma split_last_dot_spec s before after :
  split_last_dot s = Some (before, after) -> s = before +:+ "." +:+ after.
Proof.
  revert before. induction s as [|c s IH]; intros before; simpl; [discriminate|].
  destruct (split_last_dot s) as [[b a]|].
  - intros [= <- <-]. change (String c b +:+ "." +:+ a) with (String c (b +:+ "." +:+ a)).
    f_equal. now apply IH.
  - destruct (Ascii.eqb_spec c "."%char) as [->|_]; [|discriminate].
    now intros [= <- <-].
Qed.

(** With an extension in the requested name, [name.ext] becomes
    [name_<index>.ext]. *)
Lemma suffixed_extension outputPath before c ext index :
  split_last_dot outputPath = Some (before, String c ext) ->
  outputPath = before +:+ "." +:+ String c ext
  /\ suffixed outputPath index
     = before +:+ "_" +:+ pretty index +:+ "." +:+ String c ext.
Proof.
  intros H. split; [now apply split_last_dot_spec|].
  unfold suffixed. now rewrite H.
Qed.

Lemma suffixed_inj outputPath before c ext i j :
  split_last_dot outputPath = Some (before, String c ext) ->
  suffixed outputPath i = suffixed outputPath j -> i = j.
Proof.
  intros H. unfold suffixed. rewrite H. intros Heq.
  apply (inj (String.append before)) in Heq.
  apply (inj (String.append "_")) in Heq.
  apply append_inj_r in Heq.
  now apply (inj pretty) in Heq.
Qed.

(** The OpenAI and Google providers, on a requested name with an
    extension: one result goes under the requested name itself, several
    results go under pairwise distinct suffixed names. *)
Lemma requested_names_distinct outputPath before c ext count :
  split_last_dot outputPath = Some (before, String c ext) ->
  requested_names outputPath 1 = [outputPath]
  /\ NoDup (requested_names outputPath count)
  /\ ((1 < count)%nat ->
      requested_names outputPath count
      = map (fun index => before +:+ "_" +:+ pretty index +:+ "." +:+ String c ext)
            (seq 0 count)).
Proof.
  intros H. split; [reflexivity|]. unfold requested_names.
  destruct (Nat.ltb_spec 1 count) as [Hlt|Hge].
  - split.
    + apply (NoDup_fmap_2_strong _ (seq 0 count)); [|apply NoDup_seq].
      intros i j _ _. apply (suffixed_inj _ _ _ _ _ _ H).
    + intros _. apply map_ext. intros index.
      now destruct (suffixed_extension outputPath before c ext index H).
  - split; [|lia].
    destruct count as [|[|count]]; [constructor | | lia].
    apply NoDup_singleton.
Qed.

(** C8, where the code departs from it.  The OpenRouter provider writes
    two inline images of one response to the very file requested, the
    second over the first; and the OpenAI provider does the same with two
    results when the requested name has no extension, since the pattern
    that places the suffix then matches nothing. *)
Theorem generateImage_overwrites (join : string -> string -> string)
    (timestamp : Z) (base64Match urlMatch : string -> option string) :
  (exists results effects,
     OpenRouter_generateImage_results join timestamp base64Match urlMatch
       (Some "out.png") two_inline_images "{}" = (Ok results, effects)
     /\ map base64 results = [Some "AAAA"; Some "BBBB"]
     /\ map filePath results = [Some (join "." "out.png"); Some (join "." "out.png")]
     /\ written effects = [join "." "out.png"; join "." "out.png"])
  /\ written (snd (OpenAI_generateImage_results join timestamp (Some "out")
                     [("AAAA", None); ("BBBB", None)]))
     = [join "." "out"; join "." "out"]
  /\ written (snd (OpenAI_generateImage_results join timestamp (Some "out.png")
                     [("AAAA", None); ("BBBB", None)]))
     = [join "." "out_0.png"; join "." "out_1.png"]
  /\ written (snd (OpenAI_generateImage_results join timestamp (Some "out.png")
                     [("AAAA", None)]))
     = [join "." "out.png"].
Proof.
  split; [|split; [|split]].
  - eexists _, _. split; [reflexivity|]. repeat split.
  - reflexivity.
  - reflexivity.
  - reflexivity.
Qed.

End ImagesFacts.

(** ** More facts about the provider registry *)

Module RegistryProps.
Import Base Registry RegistrySpec RegistryNotions.

Lemma factories_get_is_Some fs id :
  is_Some (factories_get fs id) <-> id ∈ map fst fs.
Proof.
  induction fs as [|[k f] fs IH]; simpl.
  - split; [intros [? ?]; discriminate | intros H; inversion H].
  - destruct (decide (k = id)) as [->|Hne].
    + split; [intros _; left | eauto].
    + rewrite IH. split; [now right|].
      intros H. inversion H; subst; [congruence | assumption].
Qed.

Lemma factories_get_elem_of fs id f :
  NoDup (map fst fs) ->
  factories_get fs id = Some f <-> (id, f) ∈ fs.
Proof.
  induction fs as [|[k g] fs IH]; simpl; intros Hnd.
  - split; [discriminate | intros H; inversion H].
  - apply NoDup_cons in Hnd as [Hk Hnd].
    destruct (decide (k = id)) as [->|Hne].
    + split.
      * intros [= ->]. left.
      * intros H. inversion H; subst; [reflexivity|].
        exfalso. apply Hk. apply list_elem_of_In, in_map_iff.
        exists (id, f). split; [reflexivity | now apply list_elem_of_In].
    + rewrite (IH Hnd). split; [now right|].
      intros H. inversion H; subst; [congruence | assumption].
Qed.

Lemma keys_factories_set fs id factory :
  map fst (factories_set fs id factory)
  = if decide (id ∈ map fst fs) then map fst fs else map fst fs ++ [id].
Proof.
  induction fs as [|[k f] fs IH].
  - destruct (decide (id ∈ map fst (@nil (string * ProviderFactory)))) as [H|H];
      [inversion H | reflexivity].
  - cbn [factories_set map fst].
    destruct (decide (k = id)) as [->|Hne]; cbn [map fst].
    + destruct (decide (id ∈ id :: map fst fs)) as [H|H];
        [reflexivity | exfalso; apply H; left].
    + rewrite IH.
      destruct (decide (id ∈ map fst fs)) as [Hin|Hnin];
        destruct (decide (id ∈ k :: map fst fs)) as [Hin'|Hnin'];
        try reflexivity.
      * exfalso. apply Hnin'. now right.
      * exfalso. inversion Hin'; subst; [congruence | contradiction].
Qed.

Lemma keys_ok_init : keys_ok init.
Proof.
  split.
  - apply (bool_decide_unpack _). vm_compute. exact I.
  - exists []. reflexivity.
Qed.

Lemma keys_ok_step st c : keys_ok st -> keys_ok (step st c).
Proof.
  intros [Hnd Hpre]. destruct c as [id f|id cfg| |id|cap]; simpl.
  - unfold keys_ok, listProviders, registerFactory. simpl.
    rewrite keys_factories_set. case_decide as Hin; [now split|].
    split.
    + apply NoDup_app. split; [exact Hnd|]. split; [|apply NoDup_singleton].
      intros x Hx Hx'. apply list_elem_of_singleton in Hx'. now subst.
    + destruct Hpre as [k Hk]. exists (k ++ [id]).
      unfold listProviders in Hk. rewrite Hk. now rewrite <- app_assoc.
  - unfold getProvider.
    destruct (providers st !! id); simpl; [now split|].
    destruct (factories_get (factories st) id); simpl; now split.
  - now split.
  - unfold getProviderInfo.
    destruct (factories_get (factories st) id); simpl; now split.
  - now split.
Qed.

Lemma keys_ok_run calls : forall st, keys_ok st -> keys_ok (run st calls).
Proof.
  induction calls as [|c calls IH]; intros st H; [exact H|].
  apply IH, keys_ok_step, H.
Qed.

(** X1.  [listProviders] gives the registered ids in the order of their
    first registration, each once, the three ids of the constructor first;
    [registerFactory] for a listed id keeps the list as it is, for a new id
    it adds the id at the end; and in both cases [getProviderInfo] then
    answers with the [meta] of the factory just registered. *)
Theorem listProviders_registration_order (calls : list Call) (id : string)
    (factory : ProviderFactory) :
  let st := run init calls in
  NoDup (listProviders st)
  /\ ["openai"; "google"; "openrouter"] `prefix_of` listProviders st
  /\ listProviders (registerFactory st id factory)
     = (if decide (id ∈ listProviders st) then listProviders st
        else listProviders st ++ [id])
  /\ fst (getProviderInfo (registerFactory st id factory) id)
     = Some (meta factory).
Proof.
  intros st.
  destruct (keys_ok_run calls init keys_ok_init) as [Hnd Hpre].
  split; [exact Hnd|]. split; [exact Hpre|]. split.
  - apply keys_factories_set.
  - unfold getProviderInfo, registerFactory. simpl.
    rewrite RegistryFacts.factories_get_set. now rewrite decide_True.
Qed.

(** X2.  Registering a factory again does not replace a provider that is
    already cached: [getProvider] still returns the cached object, built by
    the earlier factory.  For an id that is not cached, the next
    [getProvider] builds its provider with the factory registered last.
    The factories of other ids are not touched. *)
Theorem registerFactory_and_cache (calls : list Call) (id : string)
    (factory : ProviderFactory) (config : option ProviderConfig) :
  let st := run init calls in
  let st' := registerFactory st id factory in
  (forall r, providers st !! id = Some r ->
     getProvider st' id config = (Ok r, st') /\ heap st' !! r = heap st !! r)
  /\ (providers st !! id = None ->
      exists r st'',
        getProvider st' id config = (Ok r, st'')
        /\ heap st'' !! r
           = Some (match config with
                   | Some c => initialize (new factory) c
                   | None => new factory
                   end))
  /\ (forall id', id <> id' ->
        factories_get (factories st') id' = factories_get (factories st) id').
Proof.
  intros st st'. split; [|split].
  - intros r Hc. split; [|reflexivity].
    now apply RegistryFacts.getProvider_cached.
  - intros Hc. unfold getProvider. subst st'. simpl. rewrite Hc.
    rewrite RegistryFacts.factories_get_set, decide_True by reflexivity.
    eexists _, _. split; [reflexivity|]. simpl.
    rewrite lookup_app_r by reflexivity. rewrite Nat.sub_diag.
    now destruct config.
  - intros id' Hne. subst st'. simpl.
    rewrite RegistryFacts.factories_get_set. now rewrite decide_False.
Qed.

Lemma registerFactory_and_cache_witness :
  let config := BaseSpec.config_text None in
  let '(_, st) := getProvider init "google" (Some config) in
  let st' := registerFactory st "google" Adapters.OpenAIProvider in
  getProvider st' "google" None = (Ok 0%nat, st')
  /\ heap st' !! 0%nat = Some (initialize (new Adapters.GoogleProvider) config)
  /\ fst (getProviderInfo st' "google") = Some (meta Adapters.OpenAIProvider).
Proof.
  split; [|split]; [| reflexivity | reflexivity].
  destruct (registerFactory_and_cache
              [CallGetProvider "google" (Some (BaseSpec.config_text None))]
              "google" Adapters.OpenAIProvider None) as (H & _ & _).
  apply (H 0%nat). reflexivity.
Defined.

(** X3.  [getProviderInfo] answers exactly for the listed ids, and it
    leaves the cache and the factories as they are: the provider it builds
    to read [meta] is not cached, and it is not initialized. *)
Theorem getProviderInfo_discovery (st : State) (id : string) :
  (is_Some (fst (getProviderInfo st id)) <-> id ∈ listProviders st)
  /\ providers (snd (getProviderInfo st id)) = providers st
  /\ factories (snd (getProviderInfo st id)) = factories st
  /\ exists built,
       heap (snd (getProviderInfo st id)) = heap st ++ built
       /\ Forall (fun p => initialized p = false /\ config p = None) built.
Proof.
  unfold getProviderInfo, listProviders.
  rewrite <- factories_get_is_Some.
  destruct (factories_get (factories st) id) as [f|]; simpl.
  - split; [split; eauto|]. split; [reflexivity|]. split; [reflexivity|].
    exists [new f]. split; [reflexivity|]. now repeat constructor.
  - split; [split; intros [? ?]; discriminate|].
    split; [reflexivity|]. split; [reflexivity|].
    exists []. split; [now rewrite app_nil_r | constructor].
Qed.

Lemma findProviders_elem_of fs capability id :
  id ∈ map fst
         (filter (fun e : string * Provider => supports (snd e) capability = true)
                 (map (fun e : string * ProviderFactory => (fst e, new (snd e))) fs))
  <-> exists f, (id, f) ∈ fs /\ capability ∈ capabilities (meta f).
Proof.
  rewrite list_elem_of_In, in_map_iff. split.
  - intros ([k p] & <- & Hin). apply list_elem_of_In in Hin.
    apply list_elem_of_filter in Hin as [Hs Hin].
    apply list_elem_of_In, in_map_iff in Hin as ([k' f] & [= <- <-] & Hin).
    exists f. split; [now apply list_elem_of_In|].
    simpl in Hs. unfold supports in Hs. simpl in Hs.
    now apply bool_decide_eq_true in Hs.
  - intros (f & Hin & Hcap). exists (id, new f). split; [reflexivity|].
    apply list_elem_of_In, list_elem_of_filter. split.
    + simpl. unfold supports. simpl. now apply bool_decide_eq_true.
    + apply list_elem_of_In, in_map_iff. exists (id, f).
      split; [reflexivity | now apply list_elem_of_In].
Qed.

Lemma findProviders_sublist (fs : list (string * ProviderFactory)) capability :
  map fst
    (filter (fun e : string * Provider => supports (snd e) capability = true)
            (map (fun e : string * ProviderFactory => (fst e, new (snd e))) fs))
  `sublist_of` map fst fs.
Proof.
  induction fs as [|[k f] fs IH]; [constructor|].
  cbn [map]. rewrite filter_cons. cbn [fst snd].
  case_decide; cbn [map fst].
  - now apply sublist_skip.
  - now apply sublist_cons.
Qed.

(** X4.  [findProvidersForCapability] returns the registered ids whose
    factory declares the capability, no other id, each once and in the
    order of [listProviders]; it does not touch the cache.  After the
    constructor, only "google" is found for video and only "openai" for
    audio. *)
Theorem findProvidersForCapability_spec (calls : list Call)
    (capability : Capability) :
  let st := run init calls in
  let found := fst (findProvidersForCapability st capability) in
  let st' := snd (findProvidersForCapability st capability) in
  (forall id,
     id ∈ found
     <-> exists f, factories_get (factories st) id = Some f
                   /\ capability ∈ capabilities (meta f))
  /\ found `sublist_of` listProviders st
  /\ NoDup found
  /\ providers st' = providers st
  /\ factories st' = factories st
  /\ fst (findProvidersForCapability init video) = ["google"]
  /\ fst (findProvidersForCapability init audio) = ["openai"]
  /\ fst (findProvidersForCapability init text) = ["openai"; "google"; "openrouter"].
Proof.
  intros st found st'.
  destruct (keys_ok_run calls init keys_ok_init) as [Hnd _]. fold st in Hnd.
  assert (Hsub : found `sublist_of` listProviders st)
    by apply findProviders_sublist.
  split.
  { intros id. subst found. unfold findProvidersForCapability. simpl.
    rewrite findProviders_elem_of. split.
    - intros (f & Hin & Hcap). exists f. split; [|exact Hcap].
      now apply factories_get_elem_of.
    - intros (f & Hget & Hcap). exists f. split; [|exact Hcap].
      now apply factories_get_elem_of in Hget. }
  split; [exact Hsub|].
  split; [eapply sublist_NoDup; eassumption|].
  repeat split.
Qed.

End RegistryProps.

(** ** More facts about [src/providers/base.ts] *)

Module BaseProps.
Import Base BaseSpec.

Lemma truthy_Some o m : JS.truthy o = Some m -> JS.truthy_string m = true.
Proof. destruct o as [[|c s]|]; simpl; intros [= <-]; reflexivity. Qed.

(** Without a configuration every iteration fails in the [try] block with
    a [TypeError], before [fetch] is called. *)
Lemma retry_loop_uninitialized network p url options N :
  config p = None ->
  forall m fuel i lastError,
    Z.of_nat (i + S m) = N ->
    (S m <= fuel)%nat ->
    retry_loop network fuel p url options N i lastError
    = Some (Throw (TypeError "this.config is undefined"),
            map (fun j => EvSleep (1000 * Z.of_nat j)) (seq (S i) m)).
Proof.
  intros Hcfg. induction m as [|m IH]; intros fuel i lastError HN Hfuel;
    (destruct fuel as [|fuel]; [lia|]); simpl.
  - destruct (Z.ltb_spec (Z.of_nat i) N) as [_|Hge]; [|lia].
    unfold attempt. rewrite Hcfg.
    destruct (Z.ltb_spec (Z.of_nat i) (N - 1)) as [Hlt|_]; [lia|].
    destruct fuel; simpl;
      (destruct (Z.ltb_spec (Z.of_nat (S i)) N) as [Hlt|_]; [lia | reflexivity]).
  - destruct (Z.ltb_spec (Z.of_nat i) N) as [_|Hge]; [|lia].
    unfold attempt at 1. rewrite Hcfg.
    destruct (Z.ltb_spec (Z.of_nat i) (N - 1)) as [_|Hge]; [|lia].
    rewrite (IH fuel (S i)) by lia. simpl.
    now replace (Z.of_nat i + 1) with (Z.of_nat (S i)) by lia.
Qed.

(** X5.  On a provider that was never initialized, [fetchWithRetry]
    throws a [TypeError] and never calls [fetch]: at once when no retry
    count is passed, and, when one is passed, only after all its
    iterations and the sleeps between them (1 s, 2 s, ...). *)
Theorem fetchWithRetry_uninitialized (network : nat -> FetchOutcome)
    (a : Adapter) (url : string) (options : RequestInit) (n : nat) :
  fetchWithRetry network (new a) url options None
  = Some (Throw (TypeError "this.config is undefined"), [])
  /\ fetchWithRetry network (new a) url options (Some (Z.of_nat (S n)))
     = Some (Throw (TypeError "this.config is undefined"),
             map (fun j => EvSleep (1000 * Z.of_nat j)) (seq 1 n)).
Proof.
  split; [reflexivity|]. unfold fetchWithRetry.
  apply retry_loop_uninitialized; [reflexivity | lia | lia].
Qed.

(** X6.  With a maximum attempt count of 0 or less, from the argument or
    from [config.maxRetries], [fetchWithRetry] makes no request at all and
    throws the [ProviderError] "Unknown error". *)
Theorem fetchWithRetry_no_attempt (network : nat -> FetchOutcome)
    (a : Adapter) (cfg : ProviderConfig) (url : string)
    (options : RequestInit) (retries : option Z) :
  default (default 3 (maxRetries cfg)) retries <= 0 ->
  fetchWithRetry network (initialize (new a) cfg) url options retries
  = Some (Throw (ProviderError "Unknown error" (Some (id (meta a))) None), []).
Proof.
  intros HN.
  rewrite (BaseFacts.fetchWithRetry_unfold network (initialize (new a) cfg) cfg
             url options eq_refl retries).
  cbv zeta. set (N := default (default 3 (maxRetries cfg)) retries) in *.
  assert (H : (Z.of_nat 0 <? N) = false) by (apply Z.ltb_ge; simpl; lia).
  destruct (Z.to_nat N); simpl in *; rewrite H; reflexivity.
Qed.

Lemma fetchWithRetry_no_attempt_witness :
  let cfg :=
    {| apiKey := "key"; baseUrl := None; timeout := None; maxRetries := Some 0;
       organization := None; projectId := None; region := None;
       models := None |} in
  fetchWithRetry flaky_network (initialize (new Adapters.OpenAIProvider) cfg)
    "https://api.openai.com/v1/models" example_options None
  = Some (Throw (ProviderError "Unknown error" (Some "openai") None), []).
Proof.
  intros cfg.
  apply (fetchWithRetry_no_attempt flaky_network Adapters.OpenAIProvider cfg).
  simpl. lia.
Defined.

(** X7.  On an initialized OpenAI, Google or OpenRouter provider,
    whatever the configuration and the request, [getModel] never returns
    an empty model name, and it can only fail for the capabilities audio
    and video, with the error "No model available for <capability>". *)
Theorem getModel_shipped_providers (cfg : ProviderConfig)
    (capability : Capability) (requestModel : option string) :
  Forall (fun a =>
            match getModel (initialize (new a) cfg) capability requestModel with
            | Ok m => JS.truthy_string m = true
            | Throw e =>
                (capability = audio \/ capability = video)
                /\ e = ProviderError
                         ("No model available for " +:+ Capability_name capability)
                         (Some (id (meta a))) None
            end)
         [Adapters.OpenAIProvider; Adapters.GoogleProvider;
          Adapters.OpenRouterProvider].
Proof.
  repeat constructor; unfold getModel; simpl;
    (destruct (JS.truthy requestModel) as [m|] eqn:Hreq;
     [exact (truthy_Some _ _ Hreq)|]);
    (destruct (cm ← models cfg;
               JS.truthy (configModels_get cm
                            (if decide (capability = embedding) then text
                             else capability))) as [m|] eqn:Hc;
     [destruct (models cfg) as [cm|]; simpl in Hc;
      [exact (truthy_Some _ _ Hc) | discriminate]|]);
    destruct capability; simpl; auto.
Qed.

End BaseProps.

(** ** More facts about [src/utils/pricing.ts] *)

Module PricingProps.
Import Pricing PricingSpec PricingNotions.

Lemma convert_models_snoc parseFloat data m :
  convert_models parseFloat (data ++ [m])
  = <[ or_id m := converted parseFloat m ]> (convert_models parseFloat data).
Proof. unfold convert_models. rewrite foldl_app. reflexivity. Qed.

Lemma convert_models_lookup parseFloat data id :
  convert_models parseFloat data !! id
  = converted parseFloat <$> last_with_id id data.
Proof.
  unfold last_with_id.
  induction data as [|m data IH] using rev_ind; [reflexivity|].
  rewrite convert_models_snoc, rev_app_distr. cbn [rev app List.find].
  destruct (decide (or_id m = id)) as [<-|Hne].
  - rewrite lookup_insert_eq, bool_decide_true by reflexivity. reflexivity.
  - rewrite lookup_insert_ne, bool_decide_false by assumption. exact IH.
Qed.

Lemma last_with_id_is_Some id data :
  is_Some (last_with_id id data) <-> id ∈ map or_id data.
Proof.
  unfold last_with_id. split.
  - intros [m Hm]. apply find_some in Hm as [Hin Hid].
    apply bool_decide_eq_true in Hid as <-.
    apply list_elem_of_fmap. exists m. split; [reflexivity|].
    apply list_elem_of_In. now apply in_rev.
  - intros Hin. apply list_elem_of_fmap in Hin as (m & -> & Hin).
    destruct (List.find (fun m0 => bool_decide (or_id m0 = or_id m)) (rev data))
      as [m'|] eqn:E; [now exists m'|].
    exfalso. pose proof (find_none _ _ E m) as Hnone. cbv beta in Hnone.
    rewrite bool_decide_true in Hnone by reflexivity.
    enough (true = false) by discriminate. apply Hnone.
    apply in_rev. rewrite rev_involutive. now apply list_elem_of_In.
Qed.

(** X8.  A run of [fetchAndCachePricing] that returns a cache has
    fetched the listing, read the stored configuration and written it
    back once, changed in its [pricing] only, which is the cache
    returned; the cache is stamped with the current time and a lifetime
    of 24 hours, it has an entry exactly for the ids of the listing, and
    the entry of an id is converted from the last listing entry with that
    id.  A run that throws has written no configuration, unless the
    error is that of the write itself. *)
Theorem fetchAndCachePricing_outcome
    (parseFloat : string -> float) (w : World) (now : Z) (apiKey : string) :
  match fetchAndCachePricing parseFloat w now apiKey with
  | (Ok c, effects) =>
      exists data stored,
        models_response w = ModelsOk data /\ stored_config w = Ok stored
        /\ effects
           = [ FetchModels apiKey; LoadConfig;
               SaveConfig {| version := version stored;
                             defaultProvider := defaultProvider stored;
                             pricing := Some c |} ]
        /\ lastUpdated c = Some now /\ ttlHours c = Some 24
        /\ (forall id, cache_entry id (Some c)
                       = converted parseFloat <$> last_with_id id data)
        /\ (forall id, is_Some (cache_entry id (Some c)) <-> id ∈ map or_id data)
  | (Throw e, effects) =>
      hd_error effects = Some (FetchModels apiKey)
      /\ (existsb is_SaveConfig effects = false \/ save_outcome w = Throw e)
  end.
Proof.
  unfold fetchAndCachePricing.
  destruct (models_response w) as [e|status|data] eqn:Hm;
    [split; [reflexivity | now left] ..|].
  destruct (stored_config w) as [stored|e] eqn:Hs;
    [|split; [reflexivity | now left]].
  destruct (save_outcome w) as [[]|e] eqn:Hsave;
    [|split; [reflexivity | now right]].
  exists data, stored. repeat split; try reflexivity.
  - intros id. unfold cache_entry. simpl. apply convert_models_lookup.
  - unfold cache_entry. simpl. rewrite convert_models_lookup.
    intros H. apply last_with_id_is_Some. now apply fmap_is_Some in H.
  - unfold cache_entry. simpl. rewrite convert_models_lookup.
    intros H. apply fmap_is_Some. now apply last_with_id_is_Some.
Qed.

(** X9.  Whatever cache [ensurePricingAvailable] returns is valid at the
    time of the call, and a configuration that the call wrote makes every
    later call within 24 hours return that cache with no request and no
    write, whatever the state of the network then. *)
Theorem ensurePricingAvailable_refresh_then_hit
    (parseFloat : string -> float) (w : World) (now : Z)
    (config : RouterConfig) (apiKey : string)
    (c : PricingCache) (effects : list Effect) :
  now <> 0 ->
  ensurePricingAvailable parseFloat w now config apiKey = (Ok c, effects) ->
  isPricingCacheValid now (Some c) = true
  /\ (effects = [] <-> isPricingCacheValid now (pricing config) = true)
  /\ forall saved, SaveConfig saved ∈ effects ->
       forall w' t apiKey', t - now < 86400000 ->
         ensurePricingAvailable parseFloat w' t saved apiKey' = (Ok c, []).
Proof.
  intros Hnow. unfold ensurePricingAvailable.
  destruct (isPricingCacheValid now (pricing config)) eqn:Hvalid.
  - destruct (pricing config) as [c'|]; [|discriminate].
    intros [= <- <-]. split; [exact Hvalid|]. split; [tauto|].
    intros saved Hin. inversion Hin.
  - intros Hrun.
    pose proof (fetchAndCachePricing_outcome parseFloat w now apiKey) as H.
    rewrite Hrun in H.
    destruct H as (data & stored & _ & _ & -> & Hlast & Httl & _).
    assert (Hc : forall t, t - now < 86400000 ->
                           isPricingCacheValid t (Some c) = true).
    { intros t Ht. unfold isPricingCacheValid. rewrite Hlast, Httl. simpl.
      destruct (Z.eqb_spec now 0); [contradiction|]. simpl.
      apply Z.ltb_lt. lia. }
    split; [apply Hc; lia|]. split; [split; discriminate|].
    intros saved Hin w' t apiKey' Ht.
    assert (pricing saved = Some c) as Hsaved.
    { repeat (apply elem_of_cons in Hin as [Hin|Hin];
              [try discriminate; injection Hin as ->; reflexivity|]).
      inversion Hin. }
    rewrite Hsaved, (Hc t Ht). reflexivity.
Qed.

Lemma ensurePricingAvailable_refresh_then_hit_witness :
  let now := 1700000000000 in
  let c := {| lastUpdated := Some now; ttlHours := Some 24;
              models := Some (convert_models (fun _ => 0%float) example_listing) |} in
  ensurePricingAvailable (fun _ => 0%float) offline_world (now + 3600000)
    {| version := "1.0.0"; defaultProvider := "openai"; pricing := Some c |}
    "other-key"
  = (Ok c, []).
Proof.
  intros now c.
  destruct (ensurePricingAvailable_refresh_then_hit (fun _ => 0%float)
              online_world now fresh_config "sk-or-key" c
              [ FetchModels "sk-or-key"; LoadConfig;
                SaveConfig {| version := "1.0.0"; defaultProvider := "openai";
                              pricing := Some c |} ])
    as (_ & _ & H); [subst now; lia | reflexivity |].
  apply H; [|subst now; lia].
  apply elem_of_cons; right. apply elem_of_cons; right. apply elem_of_cons; now left.
Defined.

Lemma startsWith_spec s p :
  JS.startsWith s p = true <-> exists post, s = p +:+ post.
Proof.
  revert s. induction p as [|c p IH]; intros s.
  - split; [intros _; now exists s | now destruct s].
  - destruct s as [|d s]; simpl.
    + split; [discriminate | intros [post H]; discriminate].
    + destruct (Ascii.eqb_spec d c) as [->|Hne].
      * rewrite IH. split; intros [post H]; exists post.
        -- change (String c p +:+ post) with (String c (p +:+ post)). now rewrite H.
        -- change (String c p +:+ post) with (String c (p +:+ post)) in H.
           now injection H.
      * split; [discriminate|]. intros [post H].
        change (String c p +:+ post) with (String c (p +:+ post)) in H. congruence.
Qed.

Lemma includes_spec s sub :
  JS.includes s sub = true <-> occurs_in sub s.
Proof.
  unfold occurs_in. induction s as [|d s IH].
  - cbn [JS.includes]. rewrite orb_false_r, startsWith_spec. split.
    + intros [post H]. now exists "", post.
    + intros (pre & post & H). destruct pre as [|? ?]; [|discriminate].
      now exists post.
  - cbn [JS.includes]. rewrite orb_true_iff, startsWith_spec, IH. split.
    + intros [[post H]|(pre & post & H)].
      * now exists "", post.
      * exists (String d pre), post.
        change (String d pre +:+ sub +:+ post) with (String d (pre +:+ sub +:+ post)).
        now rewrite H.
    + intros (pre & post & H). destruct pre as [|d' pre].
      * left. now exists post.
      * right. exists pre, post.
        change (String d' pre +:+ sub +:+ post)
          with (String d' (pre +:+ sub +:+ post)) in H.
        now injection H.
Qed.

(** X10.  [estimateTokens] counts with the [o200k_base] encoding exactly
    when the model name contains [gpt-4o], [gpt-5], [o1-] or [o3-], and
    with [cl100k_base] otherwise, also when no model is given; when the
    tokenizer throws, the count [t] is the length of the text, in UTF-16
    code units, divided by 4 and rounded up, so that
    [4 t - 3 <= length <= 4 t]. *)
Theorem estimateTokens_encoding_and_fallback
    (tokenizer : Encoding -> string -> option (list Z))
    (text : string) (m : option string) :
  (getEncoderForModel (default "" m) = o200k_base
   <-> exists frag name, frag ∈ o200k_fragments /\ m = Some name
                         /\ occurs_in frag name)
  /\ (forall tokens,
        tokenizer (getEncoderForModel (default "" m)) text = Some tokens ->
        estimateTokens tokenizer text m = Z.of_nat (List.length tokens))
  /\ (tokenizer (getEncoderForModel (default "" m)) text = None ->
        let t := estimateTokens tokenizer text m in
        4 * t - 3 <= Z.of_nat (JS.length text) <= 4 * t).
Proof.
  split; [|split].
  - unfold getEncoderForModel, o200k_fragments.
    destruct (JS.includes (default "" m) "gpt-4o"
              || JS.includes (default "" m) "gpt-5"
              || JS.includes (default "" m) "o1-"
              || JS.includes (default "" m) "o3-") eqn:E.
    + split; [intros _|reflexivity].
      destruct m as [name|]; [|discriminate]. simpl in E.
      repeat (apply orb_true_iff in E as [E|E]);
        apply includes_spec in E;
        [exists "gpt-4o" | exists "gpt-5" | exists "o1-" | exists "o3-"];
        exists name; (split; [set_solver | split; [reflexivity | exact E]]).
    + split; [discriminate|]. intros (frag & name & Hin & -> & Hocc).
      exfalso. apply includes_spec in Hocc. simpl in E.
      repeat (apply orb_false_iff in E as [E ?]).
      repeat (apply elem_of_cons in Hin as [->|Hin]; [congruence|]).
      inversion Hin.
  - intros tokens H. unfold estimateTokens. now rewrite H.
  - intros H t. subst t. unfold estimateTokens. rewrite H.
    pose proof (Z.div_mod (Z.of_nat (JS.length text) + 3) 4 ltac:(lia)).
    pose proof (Z.mod_pos_bound (Z.of_nat (JS.length text) + 3) 4 ltac:(lia)).
    lia.
Qed.

Lemma estimateTokens_encoding_and_fallback_witness :
  estimateTokens failing_tokenizer (repeat_string 100 "word") (Some "gpt-4o-mini")
  = 100
  /\ estimateTokens failing_tokenizer (repeat_string 16 e_acute) None = 4.
Proof.
  destruct (estimateTokens_encoding_and_fallback failing_tokenizer
              (repeat_string 100 "word") (Some "gpt-4o-mini")) as (_ & _ & H).
  destruct (estimateTokens_encoding_and_fallback failing_tokenizer
              (repeat_string 16 e_acute) None) as (_ & _ & H').
  specialize (H eq_refl). specialize (H' eq_refl). cbv zeta in H, H'.
  change (Z.of_nat (JS.length (repeat_string 100 "word"))) with 400 in H.
  change (Z.of_nat (JS.length (repeat_string 16 e_acute))) with 16 in H'.
  split; lia.
Defined.

(** X11.  A ceiling that is not a number never trips [checkCostLimit],
    and neither does any ceiling when the expected number of output
    tokens passed to [estimateCost] is not a number: the total cost is
    then not a number, whatever the prompt, the model and the prices. *)
Theorem checkCostLimit_not_a_number
    (tokenizer : Encoding -> string -> option (list Z))
    (m prompt : string) (systemPrompt : option string)
    (cache : option PricingCache) (est : CostEstimate) (maxCost : float) :
  checkCostLimit est nan = Ok tt
  /\ checkCostLimit (estimateCost tokenizer m prompt systemPrompt (Some nan) cache)
       maxCost = Ok tt
  /\ PrimFloat.eqb
       (totalCost (estimateCost tokenizer m prompt systemPrompt (Some nan) cache))
       (totalCost (estimateCost tokenizer m prompt systemPrompt (Some nan) cache))
     = false.
Proof.
  assert (Htotal : Prim2SF (totalCost (estimateCost tokenizer m prompt
                                         systemPrompt (Some nan) cache))
                   = SpecFloat.S754_nan).
  { unfold estimateCost. cbn [totalCost default].
    apply PricingFacts.add_nan_r, PricingFacts.mul_nan_l, PricingFacts.div_nan_l, PricingFacts.Prim2SF_nan. }
  split; [|split].
  - unfold checkCostLimit. rewrite (PricingFacts.ltb_nan_r 0 nan PricingFacts.Prim2SF_nan). reflexivity.
  - unfold checkCostLimit. rewrite (PricingFacts.ltb_nan_r maxCost _ Htotal).
    now rewrite andb_false_r.
  - rewrite FloatAxioms.eqb_spec. unfold SpecFloat.SFeqb, SpecFloat.SFcompare.
    now rewrite Htotal.
Qed.

End PricingProps.

(** ** More facts about the SSE decoders *)

Module SSEProps.
Import Json SSE SSESpec SSENotions.

Lemma read_loop_error on_line chunks e rest :
  forall buffer,
    contains newline buffer = false ->
    read_loop on_line (map Chunk chunks ++ ReadError e :: rest) buffer
    = (flat_map on_line (complete_lines (buffer +:+ text_of chunks)), Throw e).
Proof.
  induction chunks as [|value chunks IH]; intros buffer Hb.
  - cbn. now rewrite SSEFacts.append_nil_r, SSEFacts.complete_lines_no_newline.
  - cbn [map app read_loop]. unfold TextDecoder_decode.
    rewrite (IH _ (SSEFacts.last_split_no_sep newline (buffer +:+ value))).
    change (text_of (value :: chunks)) with (value +:+ text_of chunks).
    rewrite <- SSEFacts.append_assoc.
    rewrite (SSEFacts.complete_lines_app (buffer +:+ value) (text_of chunks)).
    rewrite flat_map_app. reflexivity.
Qed.

(** X12.  When a read fails, the decoder has yielded what the lines
    completed before the failure yield, it releases the lock of the
    reader, the error of the read reaches the consumer, and nothing is
    read after it. *)
Theorem decode_stream_read_error
    (on_line : string -> list json) (chunks : list string) (e : Error)
    (rest : list ReadResult) :
  decode_stream on_line (map Chunk chunks ++ ReadError e :: rest)
  = (map Yield (flat_map on_line (complete_lines (text_of chunks)))
     ++ [ReleaseLock], Throw e)
  /\ OpenAI_parseSSEStream (map Chunk chunks ++ ReadError e :: rest)
     = (fst (OpenAI_parseSSEStream (map Chunk chunks)), Throw e)
  /\ parseGoogleSSEStream (map Chunk chunks ++ ReadError e :: rest)
     = (fst (parseGoogleSSEStream (map Chunk chunks)), Throw e).
Proof.
  assert (H : forall on_line,
             decode_stream on_line (map Chunk chunks ++ ReadError e :: rest)
             = (map Yield (flat_map on_line (complete_lines (text_of chunks)))
                ++ [ReleaseLock], Throw e)).
  { intros f. unfold decode_stream. now rewrite read_loop_error. }
  split; [apply H|].
  unfold OpenAI_parseSSEStream, parseGoogleSSEStream.
  rewrite !H, !SSEFacts.decode_stream_chunks. split; reflexivity.
Qed.

Lemma payload_chunks_truthy extract payload :
  Forall (fun c => truthy c = true) (payload_chunks extract payload)
  /\ (length (payload_chunks extract payload) <= 1)%nat.
Proof.
  unfold payload_chunks.
  destruct (JSON_parse payload) as [j|]; [|split; [constructor | simpl; lia]].
  destruct (extract j) as [[c|]|]; try (split; [constructor | simpl; lia]).
  destruct (truthy c) eqn:E; simpl; split; try lia; repeat constructor.
  exact E.
Qed.

Lemma openai_line_truthy line :
  Forall (fun c => truthy c = true) (openai_line line)
  /\ (length (openai_line line) <= 1)%nat.
Proof.
  unfold openai_line.
  destruct (JS.startsWith line "data: " && negb (String.eqb line "data: [DONE]"));
    [apply payload_chunks_truthy | split; [constructor | simpl; lia]].
Qed.

Lemma google_line_truthy line :
  Forall (fun c => truthy c = true) (google_line line)
  /\ (length (google_line line) <= 1)%nat.
Proof.
  unfold google_line.
  destruct (JS.startsWith line "data: ");
    [apply payload_chunks_truthy | split; [constructor | simpl; lia]].
Qed.

Lemma read_loop_Forall (P : json -> Prop) on_line :
  (forall line, Forall P (on_line line)) ->
  forall reads buffer, Forall P (fst (read_loop on_line reads buffer)).
Proof.
  intros Hline. induction reads as [|[value|e] reads IH]; intros buffer.
  - constructor.
  - cbn [read_loop].
    specialize (IH (List.last (JS.split newline (buffer +:+ TextDecoder_decode value)) "")).
    destruct (read_loop on_line reads _) as [chunks res]. simpl in *.
    apply Forall_app. split; [|exact IH].
    induction (removelast (JS.split newline (buffer +:+ TextDecoder_decode value)))
      as [|l ls IHl]; [constructor|].
    simpl. apply Forall_app. split; [apply Hline | exact IHl].
  - constructor.
Qed.

Lemma decode_stream_Forall (P : json -> Prop) on_line reads :
  (forall line, Forall P (on_line line)) ->
  exists chunks,
    fst (decode_stream on_line reads) = map Yield chunks ++ [ReleaseLock]
    /\ Forall P chunks.
Proof.
  intros Hline. unfold decode_stream.
  pose proof (read_loop_Forall P on_line Hline reads "") as H.
  destruct (read_loop on_line reads "") as [chunks res].
  now exists chunks.
Qed.

(** X13.  However the reads go, each of the three decoders yields only
    values that are truthy, never an empty string, and then releases the
    lock, once and as its last act; one line yields at most one value. *)
Theorem parseSSEStream_yields_truthy (reads : list ReadResult) (line : string) :
  (exists chunks,
     fst (OpenAI_parseSSEStream reads) = map Yield chunks ++ [ReleaseLock]
     /\ Forall (fun c => truthy c = true /\ c <> JString "") chunks)
  /\ (exists chunks,
        fst (OpenRouter_parseSSEStream reads) = map Yield chunks ++ [ReleaseLock]
        /\ Forall (fun c => truthy c = true /\ c <> JString "") chunks)
  /\ (exists chunks,
        fst (parseGoogleSSEStream reads) = map Yield chunks ++ [ReleaseLock]
        /\ Forall (fun c => truthy c = true /\ c <> JString "") chunks)
  /\ (length (openai_line line) <= 1)%nat
  /\ (length (google_line line) <= 1)%nat.
Proof.
  assert (Hweak : forall l, Forall (fun c => truthy c = true) l ->
                            Forall (fun c => truthy c = true /\ c <> JString "") l).
  { intros l Hl. eapply Forall_impl; [exact Hl|]. intros c Hc.
    split; [exact Hc|]. intros ->. discriminate. }
  repeat split.
  - apply decode_stream_Forall. intros l. apply Hweak, openai_line_truthy.
  - apply decode_stream_Forall. intros l. apply Hweak, openai_line_truthy.
  - apply decode_stream_Forall. intros l. apply Hweak, google_line_truthy.
  - apply openai_line_truthy.
  - apply google_line_truthy.
Qed.

Lemma silent_line_removed (on_line : string -> list json) before line after :
  on_line line = [] ->
  contains newline line = false ->
  List.last (JS.split newline before) "" = "" ->
  flat_map on_line (complete_lines (before +:+ line +:+ nl +:+ after))
  = flat_map on_line (complete_lines (before +:+ after)).
Proof.
  intros Hsilent Hline Hbefore.
  rewrite (SSEFacts.complete_lines_app before (line +:+ nl +:+ after)).
  rewrite (SSEFacts.complete_lines_app before after).
  rewrite Hbefore. change ("" +:+ line +:+ nl +:+ after) with (line +:+ nl +:+ after).
  change ("" +:+ after) with after.
  rewrite (SSEFacts.complete_lines_line line after Hline).
  rewrite !flat_map_app. cbn [flat_map]. now rewrite Hsilent.
Qed.

(** X14.  The line [data: [DONE]] ends nothing: in each decoder it
    yields nothing and the lines after it are decoded as before, so a
    stream with that line at a line boundary is decoded as the stream
    without it. *)
Theorem done_line_is_skipped
    (chunks chunks' : list string) (before after : string) :
  List.last (JS.split newline before) "" = "" ->
  text_of chunks = before +:+ "data: [DONE]" +:+ nl +:+ after ->
  text_of chunks' = before +:+ after ->
  OpenAI_parseSSEStream (map Chunk chunks)
  = OpenAI_parseSSEStream (map Chunk chunks')
  /\ OpenRouter_parseSSEStream (map Chunk chunks)
     = OpenRouter_parseSSEStream (map Chunk chunks')
  /\ parseGoogleSSEStream (map Chunk chunks)
     = parseGoogleSSEStream (map Chunk chunks').
Proof.
  intros Hbefore Ht Ht'.
  unfold OpenAI_parseSSEStream, OpenRouter_parseSSEStream, parseGoogleSSEStream.
  rewrite !SSEFacts.decode_stream_chunks, Ht, Ht'.
  rewrite (silent_line_removed openai_line before "data: [DONE]" after
             eq_refl eq_refl Hbefore).
  rewrite (silent_line_removed google_line before "data: [DONE]" after
             eq_refl eq_refl Hbefore).
  repeat split.
Qed.

Lemma done_line_is_skipped_witness :
  OpenAI_parseSSEStream
    [Chunk ("data: [DONE]" +:+ nl); Chunk (hi_line +:+ nl)]
  = ([Yield (JString "Hi"); ReleaseLock], Ok tt)
  /\ parseGoogleSSEStream
       [Chunk ("data: [DONE]" +:+ nl); Chunk (google_hi_line +:+ nl)]
     = ([Yield (JString "Hi"); ReleaseLock], Ok tt).
Proof.
  destruct (done_line_is_skipped
              ["data: [DONE]" +:+ nl; hi_line +:+ nl] [hi_line +:+ nl]
              "" (hi_line +:+ nl) eq_refl eq_refl eq_refl) as (H1 & _ & _).
  destruct (done_line_is_skipped
              ["data: [DONE]" +:+ nl; google_hi_line +:+ nl] [google_hi_line +:+ nl]
              "" (google_hi_line +:+ nl) eq_refl eq_refl eq_refl) as (_ & _ & H3).
  split.
  - etransitivity; [exact H1 | vm_compute; reflexivity].
  - etransitivity; [exact H3 | vm_compute; reflexivity].
Defined.

Lemma start_char_no_literal_cr c st toks :
  start_char c = Some (st, toks) ->
  forall rest v, st = LLiteral rest v -> contains "013"%char rest = false.
Proof.
  destruct c as [[] [] [] [] [] [] [] []]; cbv; intros [= <- <-] rest v;
    try discriminate; intros [= <- <-]; reflexivity.
Qed.

Lemma lex_step_no_literal_cr st c st' toks :
  (forall rest v, st = LLiteral rest v -> contains "013"%char rest = false) ->
  lex_step st c = Some (st', toks) ->
  forall rest v, st' = LLiteral rest v -> contains "013"%char rest = false.
Proof.
  intros Hok. destruct st as [|acc s|n|rest0 v0]; cbn [lex_step].
  - apply start_char_no_literal_cr.
  - unfold str_char. destruct s as [| |count value].
    + repeat match goal with |- context [if ?b then _ else _] => destruct b end;
        intros [= <- <-] rest v; discriminate.
    + destruct c as [[] [] [] [] [] [] [] []]; intros [= <- <-] rest v; discriminate.
    + destruct (hex_value c); [|discriminate].
      destruct (count =? 3)%nat; intros [= <- <-] rest v; discriminate.
  - unfold num_char, num_finish.
    destruct (n_state n);
      repeat match goal with |- context [if ?b then _ else _] => destruct b end;
      try (intros [= <- <-] rest v; discriminate);
      destruct (start_char c) as [[st0 toks0]|] eqn:E;
      try discriminate; intros [= <- <-]; eapply start_char_no_literal_cr; eassumption.
  - unfold lit_char. destruct rest0 as [|d r]; [discriminate|].
    destruct (Ascii.eqb c d); [|discriminate].
    specialize (Hok _ _ eq_refl). cbn [contains] in Hok.
    apply orb_false_iff in Hok as [_ Hr].
    destruct r; intros [= <- <-] rest v; [discriminate|].
    intros [= <- <-]. exact Hr.
Qed.

Lemma lex_end_cr st :
  (forall rest v, st = LLiteral rest v -> contains "013"%char rest = false) ->
  lex st cr = lex_end st.
Proof.
  intros Hok. unfold cr. cbn [lex].
  destruct st as [|acc s|n|rest0 v0]; cbn [lex_step].
  - reflexivity.
  - destruct s; reflexivity.
  - unfold num_char, num_finish. destruct n as [s neg m f en ex].
    destruct s; reflexivity.
  - unfold lit_char. destruct rest0 as [|d r]; [reflexivity|].
    specialize (Hok _ _ eq_refl). cbn [contains] in Hok.
    apply orb_false_iff in Hok as [Hd _].
    rewrite Ascii.eqb_sym, Hd. reflexivity.
Qed.

Lemma lex_cr s :
  forall st,
    (forall rest v, st = LLiteral rest v -> contains "013"%char rest = false) ->
    lex st (s +:+ cr) = lex st s.
Proof.
  induction s as [|c s IH]; intros st Hok.
  - change ("" +:+ cr) with cr. now apply lex_end_cr.
  - change (String c s +:+ cr) with (String c (s +:+ cr)). cbn [lex].
    destruct (lex_step st c) as [[st' toks]|] eqn:E; [|reflexivity].
    rewrite IH; [reflexivity|].
    eapply lex_step_no_literal_cr; eassumption.
Qed.

(** [JSON.parse] takes a carriage return at the end of the text as white
    space. *)
Lemma JSON_parse_cr s : JSON_parse (s +:+ cr) = JSON_parse s.
Proof.
  unfold JSON_parse. rewrite lex_cr; [reflexivity|]. intros rest v. discriminate.
Qed.

Lemma startsWith_snoc c s p :
  contains c p = false ->
  JS.startsWith (s +:+ String c "") p = JS.startsWith s p.
Proof.
  revert s. induction p as [|d p IH]; intros s Hp.
  - destruct s; reflexivity.
  - cbn [contains] in Hp. apply orb_false_iff in Hp as [Hd Hp].
    destruct s as [|e s].
    + change ("" +:+ String c "") with (String c ""). cbn [JS.startsWith].
      now rewrite Ascii.eqb_sym, Hd.
    + change (String e s +:+ String c "") with (String e (s +:+ String c "")).
      cbn [JS.startsWith]. destruct (Ascii.eqb e d); [now apply IH | reflexivity].
Qed.

Lemma contains_snoc c s : contains c (s +:+ String c "") = true.
Proof.
  induction s as [|d s IH].
  - change ("" +:+ String c "") with (String c ""). cbn. now rewrite Ascii.eqb_refl.
  - change (String d s +:+ String c "") with (String d (s +:+ String c "")).
    cbn [contains]. rewrite IH. apply orb_true_r.
Qed.

Lemma contains_app c a b : contains c (a +:+ b) = contains c a || contains c b.
Proof.
  induction a as [|d a IH]; [reflexivity|].
  change (String d a +:+ b) with (String d (a +:+ b)). cbn [contains].
  now rewrite IH, orb_assoc.
Qed.

Lemma payload_chunks_cr extract payload :
  payload_chunks extract (payload +:+ cr) = payload_chunks extract payload.
Proof. unfold payload_chunks. now rewrite JSON_parse_cr. Qed.

Lemma openai_line_cr line : openai_line (line +:+ cr) = openai_line line.
Proof.
  unfold openai_line, cr. rewrite (startsWith_snoc "013"%char line "data: " eq_refl).
  destruct (JS.startsWith line "data: ") eqn:E; [|reflexivity].
  apply PricingProps.startsWith_spec in E as [post ->].
  change (("data: " +:+ post) +:+ String "013"%char "")
    with ("data: " +:+ (post +:+ String "013"%char "")).
  change (JS.slice 6 ("data: " +:+ (post +:+ String "013"%char "")))
    with (post +:+ cr).
  change (JS.slice 6 ("data: " +:+ post)) with post.
  rewrite payload_chunks_cr.
  assert (Hcr : String.eqb ("data: " +:+ (post +:+ String "013"%char ""))
                  "data: [DONE]" = false).
  { apply String.eqb_neq. intros H.
    assert (Hc : contains "013"%char ("data: " +:+ (post +:+ String "013"%char ""))
                 = true).
    { rewrite contains_app, contains_snoc. apply orb_true_r. }
    rewrite H in Hc. discriminate. }
  rewrite Hcr. cbn [andb negb].
  destruct (String.eqb_spec ("data: " +:+ post) "data: [DONE]") as [Heq|Hne];
    [|reflexivity].
  cbn [andb negb].
  change ("data: " +:+ post) with (String "d" (String "a" (String "t" (String "a"
            (String ":" (String " " post)))))) in Heq.
  injection Heq as ->. reflexivity.
Qed.

Lemma google_line_cr line : google_line (line +:+ cr) = google_line line.
Proof.
  unfold google_line, cr. rewrite (startsWith_snoc "013"%char line "data: " eq_refl).
  destruct (JS.startsWith line "data: ") eqn:E; [|reflexivity].
  apply PricingProps.startsWith_spec in E as [post ->].
  change (("data: " +:+ post) +:+ String "013"%char "")
    with ("data: " +:+ (post +:+ String "013"%char "")).
  change (JS.slice 6 ("data: " +:+ (post +:+ String "013"%char "")))
    with (post +:+ cr).
  change (JS.slice 6 ("data: " +:+ post)) with post.
  apply payload_chunks_cr.
Qed.

Lemma complete_lines_lf_text lines :
  Forall (fun line => contains newline line = false) lines ->
  complete_lines (lf_text lines) = lines.
Proof.
  unfold lf_text. induction 1 as [|line lines Hline _ IH]; [reflexivity|].
  cbn [map]. change (text_of ((line +:+ nl) :: ?l)) with ((line +:+ nl) +:+ text_of l).
  cbn [map text_of foldr].
  rewrite SSEFacts.append_assoc, (SSEFacts.complete_lines_line _ _ Hline).
  f_equal. exact IH.
Qed.

Lemma crlf_text_lf_text lines :
  crlf_text lines = lf_text (map (fun line => line +:+ cr) lines).
Proof.
  unfold crlf_text, lf_text. rewrite map_map. f_equal.
  apply map_ext. intros line. now rewrite SSEFacts.append_assoc.
Qed.

(** X15.  Line ends of carriage return and line feed are decoded as line
    feeds alone: a carriage return at the end of a line changes nothing
    in what the line yields, also for [data: [DONE]], and a stream whose
    lines end in CR LF yields what the stream of the same lines ended by
    LF yields, in each decoder and however the two streams are cut into
    chunks. *)
Theorem crlf_line_ends (lines chunks chunks' : list string) :
  Forall (fun line => contains newline line = false) lines ->
  text_of chunks = crlf_text lines ->
  text_of chunks' = lf_text lines ->
  (OpenAI_parseSSEStream (map Chunk chunks)
   = OpenAI_parseSSEStream (map Chunk chunks')
   /\ OpenRouter_parseSSEStream (map Chunk chunks)
      = OpenRouter_parseSSEStream (map Chunk chunks')
   /\ parseGoogleSSEStream (map Chunk chunks)
      = parseGoogleSSEStream (map Chunk chunks'))
  /\ (forall line, openai_line (line +:+ cr) = openai_line line
                   /\ google_line (line +:+ cr) = google_line line).
Proof.
  intros Hlines Ht Ht'. split; [|intros line; split;
                                  [apply openai_line_cr | apply google_line_cr]].
  assert (Hcr : Forall (fun line => contains newline line = false)
                  (map (fun line => line +:+ cr) lines)).
  { apply Forall_map. eapply Forall_impl; [exact Hlines|].
    intros line Hl. cbv beta. rewrite contains_app, Hl. reflexivity. }
  assert (H : forall on_line,
             (forall line, on_line (line +:+ cr) = on_line line) ->
             decode_stream on_line (map Chunk chunks)
             = decode_stream on_line (map Chunk chunks')).
  { intros on_line Hon. rewrite !SSEFacts.decode_stream_chunks, Ht, Ht'.
    rewrite crlf_text_lf_text, !complete_lines_lf_text by assumption.
    assert (Hfm : flat_map on_line (map (fun line => line +:+ cr) lines)
                  = flat_map on_line lines).
    { clear - Hon. induction lines as [|l ls IH]; [reflexivity|].
      cbn [map flat_map]. now rewrite Hon, IH. }
    now rewrite Hfm. }
  unfold OpenAI_parseSSEStream, OpenRouter_parseSSEStream, parseGoogleSSEStream.
  repeat split; apply H; intros line;
    [apply openai_line_cr | apply openai_line_cr | apply google_line_cr].
Qed.

Lemma crlf_line_ends_witness :
  OpenAI_parseSSEStream
    [Chunk (hi_line +:+ cr); Chunk (nl +:+ "data: [DONE]" +:+ cr +:+ nl)]
  = ([Yield (JString "Hi"); ReleaseLock], Ok tt).
Proof.
  destruct (crlf_line_ends [hi_line; "data: [DONE]"]
              [hi_line +:+ cr; nl +:+ "data: [DONE]" +:+ cr +:+ nl]
              [hi_line +:+ nl +:+ "data: [DONE]" +:+ nl])
    as ((H & _ & _) & _).
  - repeat constructor.
  - vm_compute. reflexivity.
  - vm_compute. reflexivity.
  - etransitivity; [exact H | vm_compute; reflexivity].
Defined.

End SSEProps.

(** ** More facts about the saving of images *)

Module ImagesProps.
Import Images ImagesSpec ImagesNotions.

Lemma file_writes_app e1 e2 : file_writes (e1 ++ e2) = file_writes e1 ++ file_writes e2.
Proof. unfold file_writes. apply omap_app. Qed.

(** One call of [saveMedia] by a provider: how it ends, and why. *)
Lemma saveMedia_spec {fs : FileSystem} join timestamp data name :
  match saveMedia join timestamp data (image_options name) with
  | (Ok f, es) =>
      f = join "." name /\ es = [Mkdir "."; Write f data]
      /\ Bun_mkdir "." = Ok tt
      /\ (exists encoded, data = Some encoded /\ atob_ok encoded = true)
      /\ Bun_write (join "." name) = Ok tt
  | (Throw e, es) =>
      es <> []
      /\ Forall (fun w => fst w = join "." name) (file_writes es)
      /\ (Bun_mkdir "." = Throw e
          \/ (e = undefined_data /\ data = None)
          \/ (e = not_base64
              /\ exists encoded, data = Some encoded /\ atob_ok encoded = false)
          \/ Bun_write (join "." name) = Throw e)
  end.
Proof.
  unfold saveMedia, image_options. cbn [directory filename from_option].
  unfold Datatypes.id.
  destruct (Bun_mkdir ".") as [[]|e] eqn:Hm; cbv beta iota zeta.
  - destruct data as [encoded|]; cbv beta iota zeta.
    + destruct (atob_ok encoded) eqn:Ha; cbv beta iota zeta.
      * destruct (Bun_write (join "." name)) as [[]|e] eqn:Hw; cbv beta iota zeta.
        -- split; [reflexivity|]. split; [reflexivity|]. split; [reflexivity|].
           split; [now exists encoded | reflexivity].
        -- split; [discriminate|]. split; [now repeat constructor|].
           now right; right; right.
      * split; [discriminate|]. split; [constructor|].
        right; right; left. split; [reflexivity | now exists encoded].
    + split; [discriminate|]. split; [constructor|].
      right; left. now split.
  - split; [now destruct data|]. split; [now destruct data; constructor|].
    left. now destruct data.
Qed.

(** The callback of the OpenAI and Google providers for one item. *)
Lemma save_item_spec {fs : FileSystem} join timestamp outputPath count index
    b64 revised :
  match save_item join timestamp outputPath count index b64 revised with
  | (Ok r, es) =>
      match JS.truthy outputPath with
      | None => r = unsaved (b64, revised) /\ es = []
      | Some requested =>
          let f := join "." (item_name requested count index) in
          r = {| url := None; base64 := Some b64; filePath := Some f;
                 revisedPrompt := revised |}
          /\ es = [Mkdir "."; Write f (Some b64)]
      end
  | (Throw e, es) =>
      exists requested,
        JS.truthy outputPath = Some requested
        /\ (Bun_mkdir "." = Throw e
            \/ (e = not_base64 /\ atob_ok b64 = false)
            \/ Bun_write (join "." (item_name requested count index)) = Throw e)
  end.
Proof.
  unfold save_item.
  destruct (JS.truthy outputPath) as [requested|]; [|now split].
  fold (item_name requested count index).
  pose proof (saveMedia_spec join timestamp (Some b64)
                (item_name requested count index)) as H.
  destruct (saveMedia join timestamp (Some b64)
              (image_options (item_name requested count index))) as [[f|e] es].
  - destruct H as (-> & -> & _). now split.
  - destruct H as (_ & _ & [H|[[_ [=]]|[(-> & encoded & [= <-] & H)|H]]]);
      exists requested; (split; [reflexivity|]); auto.
Qed.

(** The callbacks of all the items, and [Promise.all] of them. *)
Lemma save_items_spec {fs : FileSystem} join timestamp outputPath count items :
  forall index,
    let run := save_items join timestamp outputPath count index items in
    let names requested :=
      map (item_name requested count) (seq index (length items)) in
    match Promise_all (fst run) with
    | Ok results =>
        map base64 results = map (fun item => Some (fst item)) items
        /\ map revisedPrompt results = map snd items
        /\ map url results = map (fun _ => None) items
        /\ file_writes (snd run) = reported results
        /\ match JS.truthy outputPath with
           | None => snd run = [] /\ results = map unsaved items
           | Some requested =>
               map filePath results
               = map (fun name => Some (join "." name)) (names requested)
               /\ written (snd run) = map (join ".") (names requested)
           end
    | Throw e =>
        exists requested,
          JS.truthy outputPath = Some requested
          /\ (Bun_mkdir "." = Throw e
              \/ (e = not_base64
                  /\ Exists (fun item => atob_ok (fst item) = false) items)
              \/ Exists (fun name => Bun_write (join "." name) = Throw e)
                   (names requested))
    end.
Proof.
  induction items as [|[b64 revised] items IH]; intros index run names;
    subst run names.
  - cbn. repeat split; try reflexivity. now destruct (JS.truthy outputPath).
  - cbn [save_items]. specialize (IH (S index)). cbv zeta in IH.
    pose proof (save_item_spec join timestamp outputPath count index b64 revised)
      as Hitem.
    destruct (save_item join timestamp outputPath count index b64 revised)
      as [[r|e] es0].
    + destruct (save_items join timestamp outputPath count (S index) items)
        as [rs es].
      cbn [fst snd Promise_all] in *.
      destruct (Promise_all rs) as [results|e].
      * destruct IH as (H1 & H2 & H3 & H4 & H5).
        destruct (JS.truthy outputPath) as [requested|].
        -- destruct Hitem as [-> ->]. destruct H5 as [H5 H6].
           cbn [map base64 revisedPrompt url filePath fst snd length seq].
           rewrite H1, H2, H3, H5.
           change ([Mkdir "."; Write ?f ?d] ++ es) with (Mkdir "." :: Write f d :: es).
           unfold file_writes, reported, written in *. cbn. rewrite H4, H6.
           repeat split.
        -- destruct Hitem as [-> ->]. destruct H5 as [-> ->].
           cbn. rewrite H1, H2, H3. repeat split. exact H4.
      * destruct IH as (requested & Hreq & [H|[[-> H]|H]]); exists requested;
          (split; [exact Hreq|]).
        -- now left.
        -- right; left. split; [reflexivity | now apply Exists_cons_tl].
        -- right; right. cbn [length seq map]. now apply Exists_cons_tl.
    + destruct (save_items join timestamp outputPath count (S index) items)
        as [rs es].
      cbn [fst snd Promise_all].
      destruct Hitem as (requested & Hreq & [H|[[-> H]|H]]); exists requested;
        (split; [exact Hreq|]).
      * now left.
      * right; left. split; [reflexivity | now apply Exists_cons_hd].
      * right; right. cbn [length seq map]. now apply Exists_cons_hd.
Qed.

Lemma Forall_Exists_False {A : Type} (P Q : A -> Prop) (l : list A) :
  Forall P l -> Exists Q l -> (forall a, P a -> Q a -> False) -> False.
Proof.
  intros HP HQ H. induction HQ as [a l Ha|a l _ IH].
  - inversion HP; subst. eauto.
  - inversion HP; subst. auto.
Qed.

(** [generateImage] of the OpenAI and Google providers from the parsed
    response on: [items] holds the data and the revised prompt of each
    item. *)
Lemma provider_results_spec {fs : FileSystem} join timestamp outputPath items :
  let outcome :=
    let '(outcomes, effects) :=
      save_items join timestamp outputPath (length items) 0 items in
    (Promise_all outcomes, effects) in
  (JS.truthy outputPath = None -> outcome = (Ok (map unsaved items), []))
  /\ (forall results, fst outcome = Ok results ->
        map base64 results = map (fun item => Some (fst item)) items
        /\ map revisedPrompt results = map snd items
        /\ map url results = map (fun _ => None) items
        /\ file_writes (snd outcome) = reported results
        /\ forall requested, JS.truthy outputPath = Some requested ->
             map filePath results
             = map (fun name => Some (join "." name))
                   (requested_names requested (length items))
             /\ written (snd outcome)
                = map (join ".") (requested_names requested (length items)))
  /\ (forall requested, JS.truthy outputPath = Some requested ->
        Bun_mkdir "." = Ok tt ->
        Forall (fun item => atob_ok (fst item) = true) items ->
        Forall (fun name => Bun_write (join "." name) = Ok tt)
          (requested_names requested (length items)) ->
        exists results, fst outcome = Ok results)
  /\ (forall e, fst outcome = Throw e ->
        exists requested,
          JS.truthy outputPath = Some requested
          /\ (Bun_mkdir "." = Throw e
              \/ (e = not_base64
                  /\ Exists (fun item => atob_ok (fst item) = false) items)
              \/ Exists (fun name => Bun_write (join "." name) = Throw e)
                   (requested_names requested (length items)))).
Proof.
  intros outcome. subst outcome.
  pose proof (save_items_spec join timestamp outputPath (length items) items 0)
    as H. cbv zeta in H.
  fold (requested_names) in H.
  destruct (save_items join timestamp outputPath (length items) 0 items)
    as [outcomes effects].
  cbv beta iota. cbn [fst snd] in *.
  split; [|split; [|split]].
  - intros Hnone. rewrite Hnone in H.
    destruct (Promise_all outcomes) as [results|e].
    + destruct H as (_ & _ & _ & _ & -> & ->). reflexivity.
    + destruct H as (requested & [=] & _).
  - intros results Hok. rewrite Hok in H. destruct H as (H1 & H2 & H3 & H4 & H5).
    split; [exact H1|]. split; [exact H2|]. split; [exact H3|].
    split; [exact H4|]. intros requested Hreq. rewrite Hreq in H5. exact H5.
  - intros requested Hreq Hmk Hdata Hwrite.
    destruct (Promise_all outcomes) as [results|e]; [now exists results|].
    exfalso. destruct H as (requested' & Hreq' & H).
    assert (requested' = requested) as -> by congruence.
    destruct H as [H|[[_ H]|H]].
    + congruence.
    + apply (Forall_Exists_False _ _ _ Hdata H). intros a; congruence.
    + apply (Forall_Exists_False _ _ _ Hwrite H). intros a; congruence.
  - intros e He. rewrite He in H. exact H.
Qed.

(** X16.  The OpenAI and Google [generateImage], from the parsed response
    on.  With no [outputPath], or an empty one, they answer with one
    result per item of the response, in order, each with the item's data
    (and revised prompt, for OpenAI), no [url] and no [filePath], and ask
    nothing of the file system.  Whenever they answer, the results are
    one per item, in order, with the item's data and no [url], and the
    files written are, in some order, exactly those the results report,
    each with the data of its result.  With an [outputPath] they answer
    when the directory can be made, every item is base64 and every file
    can be written; and when they throw, an [outputPath] was given and
    the error is that of [mkdir], that of [atob] on an item that is not
    base64, or that of [Bun.write] to one of the files. *)
Theorem generateImage_results_match_files {fs : FileSystem}
    (join : string -> string -> string) (timestamp : Z)
    (outputPath : option string)
    (data : list (string * option string)) (predictions : list string) :
  let openai := OpenAI_generateImage_results join timestamp outputPath data in
  let google := Google_generateImage_results join timestamp outputPath predictions in
  (JS.truthy outputPath = None ->
   openai = (Ok (map unsaved data), [])
   /\ google = (Ok (map (fun b64 => unsaved (b64, None)) predictions), []))
  /\ (forall results, fst openai = Ok results ->
        map base64 results = map (fun item => Some (fst item)) data
        /\ map revisedPrompt results = map snd data
        /\ map url results = map (fun _ => None) data
        /\ Permutation (file_writes (snd openai)) (reported results))
  /\ (forall results, fst google = Ok results ->
        map base64 results = map Some predictions
        /\ map revisedPrompt results = map (fun _ => None) predictions
        /\ map url results = map (fun _ => None) predictions
        /\ Permutation (file_writes (snd google)) (reported results))
  /\ (forall requested, JS.truthy outputPath = Some requested ->
        Bun_mkdir "." = Ok tt ->
        (Forall (fun item => atob_ok (fst item) = true) data ->
         Forall (fun name => Bun_write (join "." name) = Ok tt)
           (requested_names requested (length data)) ->
         exists results, fst openai = Ok results)
        /\ (Forall (fun b64 => atob_ok b64 = true) predictions ->
            Forall (fun name => Bun_write (join "." name) = Ok tt)
              (requested_names requested (length predictions)) ->
            exists results, fst google = Ok results))
  /\ (forall e, fst openai = Throw e ->
        exists requested,
          JS.truthy outputPath = Some requested
          /\ (Bun_mkdir "." = Throw e
              \/ (e = not_base64
                  /\ Exists (fun item => atob_ok (fst item) = false) data)
              \/ Exists (fun name => Bun_write (join "." name) = Throw e)
                   (requested_names requested (length data))))
  /\ (forall e, fst google = Throw e ->
        exists requested,
          JS.truthy outputPath = Some requested
          /\ (Bun_mkdir "." = Throw e
              \/ (e = not_base64
                  /\ Exists (fun b64 => atob_ok b64 = false) predictions)
              \/ Exists (fun name => Bun_write (join "." name) = Throw e)
                   (requested_names requested (length predictions)))).
Proof.
  intros openai google. subst openai google.
  unfold OpenAI_generateImage_results, Google_generateImage_results.
  destruct (provider_results_spec join timestamp outputPath data)
    as (A1 & A2 & A3 & A4).
  destruct (provider_results_spec join timestamp outputPath
              (map (fun b64 => (b64, None)) predictions)) as (G1 & G2 & G3 & G4).
  cbv zeta in *. rewrite length_map in *.
  split; [|split; [|split; [|split; [|split]]]].
  - intros Hnone. split; [now apply A1|]. rewrite (G1 Hnone).
    now rewrite map_map.
  - intros results Hok. destruct (A2 results Hok) as (H1 & H2 & H3 & H4 & _).
    now rewrite H4.
  - intros results Hok. destruct (G2 results Hok) as (H1 & H2 & H3 & H4 & _).
    rewrite map_map in H1, H2, H3. now rewrite H4.
  - intros requested Hreq Hmk. split.
    + now apply A3.
    + intros Hdata Hwrite. apply (G3 requested); try assumption.
      now apply Forall_map.
  - exact A4.
  - intros e He. destruct (G4 e He) as (requested & Hreq & H).
    exists requested. split; [exact Hreq|].
    destruct H as [H|[[-> H]|H]]; [now left | | now right; right].
    right; left. split; [reflexivity|]. now apply Exists_map in H.
Qed.

Lemma generateImage_results_match_files_witness :
  OpenAI_generateImage_results (fs := read_only) slash_join 0 None
    [("AAAA", None); ("BBBB", Some "a cat")]
  = (Ok [unsaved ("AAAA", None); unsaved ("BBBB", Some "a cat")], [])
  /\ (exists results,
        fst (Google_generateImage_results (fs := reliable) slash_join 0
               (Some "out.png") ["AAAA"; "BBBB"]) = Ok results)
  /\ (exists requested,
        JS.truthy (Some "out.png") = Some requested
        /\ (Bun_mkdir (FileSystem := read_only) "."
            = Throw (OtherError "EACCES" "permission denied")
            \/ (OtherError "EACCES" "permission denied" = not_base64
                /\ Exists (fun item : string * option string =>
                             atob_ok (fst item) = false) [("AAAA", None)])
            \/ Exists (fun name =>
                         Bun_write (FileSystem := read_only) (slash_join "." name)
                         = Throw (OtherError "EACCES" "permission denied"))
                 (requested_names requested 1))).
Proof.
  split; [|split].
  - destruct (generateImage_results_match_files (fs := read_only) slash_join 0 None
                [("AAAA", None); ("BBBB", Some "a cat")] []) as (H & _).
    now destruct (H eq_refl).
  - destruct (generateImage_results_match_files (fs := reliable) slash_join 0
                (Some "out.png") [] ["AAAA"; "BBBB"]) as (_ & _ & _ & H & _).
    destruct (H "out.png" eq_refl eq_refl) as [_ H'].
    apply H'; now repeat constructor.
  - destruct (generateImage_results_match_files (fs := read_only) slash_join 0
                (Some "out.png") [("AAAA", None)] []) as (_ & _ & _ & _ & H & _).
    exact (H _ eq_refl).
Defined.

(** X17.  When the requested name has an extension, the OpenAI and Google
    [generateImage] hand pairwise distinct file names to [path.join], one
    per item: the requested name itself for a single item, the names
    suffixed with the item's index for several.  Whenever they answer,
    each result reports [path.join] of the current directory and its
    name, the files written are, in some order, those, and two results
    report the same file only if [path.join] sends two different names to
    one path. *)
Theorem generateImage_distinct_names {fs : FileSystem}
    (join : string -> string -> string) (timestamp : Z)
    (outputPath before : string) (c : ascii) (ext : string)
    (data : list (string * option string)) (predictions : list string) :
  split_last_dot outputPath = Some (before, String c ext) ->
  let openai := OpenAI_generateImage_results join timestamp (Some outputPath) data in
  let google :=
    Google_generateImage_results join timestamp (Some outputPath) predictions in
  let answer (count : nat)
      (outcome : Result Error (list ImageResult) * list FsEffect) :=
    forall results, fst outcome = Ok results ->
      map filePath results
      = map (fun name => Some (join "." name)) (requested_names outputPath count)
      /\ Permutation (written (snd outcome))
           (map (join ".") (requested_names outputPath count))
      /\ forall i j r r',
           results !! i = Some r -> results !! j = Some r' -> i <> j ->
           filePath r = filePath r' ->
           exists a b, a <> b /\ join "." a = join "." b in
  requested_names outputPath 1 = [outputPath]
  /\ (forall count,
        NoDup (requested_names outputPath count)
        /\ ((1 < count)%nat ->
            requested_names outputPath count
            = map (fun index => before +:+ "_" +:+ pretty index +:+ "."
                                +:+ String c ext) (seq 0 count)))
  /\ answer (length data) openai
  /\ answer (length predictions) google.
Proof.
  intros Hext openai google answer. subst openai google answer. cbv beta.
  assert (Htruthy : JS.truthy (Some outputPath) = Some outputPath).
  { destruct outputPath; [discriminate Hext | reflexivity]. }
  assert (Hnames : forall count, NoDup (requested_names outputPath count)).
  { intros count.
    now destruct (ImagesFacts.requested_names_distinct outputPath before c ext
                    count Hext) as (_ & H & _). }
  assert (Hanswer : forall items results effects,
             (let '(outcomes, effects) :=
                save_items join timestamp (Some outputPath) (length items) 0 items in
              (Promise_all outcomes, effects)) = (Ok results, effects) ->
             map filePath results
             = map (fun name => Some (join "." name))
                   (requested_names outputPath (length items))
             /\ Permutation (written effects)
                  (map (join ".") (requested_names outputPath (length items)))
             /\ forall i j r r',
                  results !! i = Some r -> results !! j = Some r' -> i <> j ->
                  filePath r = filePath r' ->
                  exists a b, a <> b /\ join "." a = join "." b).
  { intros items results effects Hrun.
    destruct (provider_results_spec join timestamp (Some outputPath) items)
      as (_ & H & _). cbv zeta in H. rewrite Hrun in H.
    destruct (H results eq_refl) as (_ & _ & _ & _ & H').
    destruct (H' outputPath Htruthy) as [Hfiles Hwritten]. cbn [snd] in Hwritten.
    split; [exact Hfiles|]. split; [now rewrite Hwritten|].
    intros i j r r' Hi Hj Hij Hsame.
    assert (Hat : forall k x, results !! k = Some x ->
               exists name, requested_names outputPath (length items) !! k = Some name
                            /\ filePath x = Some (join "." name)).
    { intros k x Hk.
      assert (Hk' : map filePath results !! k = Some (filePath x)).
      { change (map filePath results) with (filePath <$> results).
        now rewrite list_lookup_fmap, Hk. }
      rewrite Hfiles in Hk'.
      change (map ?f ?l) with (f <$> l) in Hk'.
      rewrite list_lookup_fmap in Hk'.
      destruct (requested_names outputPath (length items) !! k) as [name|];
        [|discriminate].
      exists name. split; [reflexivity|]. now injection Hk' as <-. }
    destruct (Hat i r Hi) as (a & Ha & Hfa).
    destruct (Hat j r' Hj) as (b & Hb & Hfb).
    exists a, b. split.
    - intros ->. apply Hij. exact (NoDup_lookup _ i j b (Hnames _) Ha Hb).
    - congruence. }
  split; [reflexivity|]. split; [|split].
  - intros count.
    now destruct (ImagesFacts.requested_names_distinct outputPath before c ext
                    count Hext) as (_ & H1 & H2).
  - intros results Hok. unfold OpenAI_generateImage_results in *.
    apply (Hanswer data results
             (snd (let '(outcomes, effects) :=
                     save_items join timestamp (Some outputPath) (length data) 0 data in
                   (Promise_all outcomes, effects)))).
    rewrite <- Hok. now destruct (save_items _ _ _ _ _ _).
  - intros results Hok. unfold Google_generateImage_results in *.
    pose proof (Hanswer (map (fun b64 => (b64, None)) predictions) results) as H.
    rewrite length_map in H.
    apply (H (snd (let '(outcomes, effects) :=
                     save_items join timestamp (Some outputPath) (length predictions)
                       0 (map (fun b64 => (b64, None)) predictions) in
                   (Promise_all outcomes, effects)))).
    rewrite <- Hok. now destruct (save_items _ _ _ _ _ _).
Qed.

Lemma generateImage_distinct_names_witness :
  NoDup (requested_names "out.png" 3)
  /\ requested_names "out.png" 3 = ["out_0.png"; "out_1.png"; "out_2.png"]
  /\ map filePath
       (match fst (OpenAI_generateImage_results (fs := reliable) slash_join 0
                     (Some "out.png")
                     [("AAAA", None); ("BBBB", None); ("CCCC", None)]) with
        | Ok results => results
        | Throw _ => []
        end)
     = [Some "./out_0.png"; Some "./out_1.png"; Some "./out_2.png"].
Proof.
  destruct (generateImage_distinct_names (fs := reliable) slash_join 0
              "out.png" "out" "p" "ng"
              [("AAAA", None); ("BBBB", None); ("CCCC", None)] ["AAAA"; "BBBB"]
              eq_refl) as (_ & H & Hopenai & _).
  split; [apply H|]. split; [reflexivity|].
  destruct (Hopenai _ eq_refl) as [Hfiles _]. exact Hfiles.
Defined.

Section OpenRouter.

Context {fs : FileSystem}.
Variable join : string -> string -> string.
Variable timestamp : Z.
Variable outputPath : option string.

Lemma consistent_nil : consistent join outputPath [] [].
Proof. repeat split; constructor. Qed.

Lemma consistent_cons r e rs es :
  consistent join outputPath [r] e ->
  consistent join outputPath rs es ->
  consistent join outputPath (r :: rs) (e ++ es).
Proof.
  intros (H1 & H2 & H3 & _ & H5 & H6) (G1 & G2 & G3 & _ & G5 & G6).
  unfold consistent. rewrite file_writes_app, H1, G1.
  split; [|split; [|split; [|split; [|split]]]].
  - unfold reported. simpl. now destruct (filePath r).
  - constructor; [now inversion H2 | exact G2].
  - constructor; [now inversion H3 | exact G3].
  - discriminate.
  - intros Hn. now rewrite (H5 Hn), (G5 Hn).
  - constructor; [now inversion H6 | exact G6].
Qed.

Lemma consistent_saved data requested :
  JS.truthy outputPath = Some requested ->
  consistent join outputPath
    [{| url := None; base64 := data; filePath := Some (join "." requested);
        revisedPrompt := None |}]
    [Mkdir "."; Write (join "." requested) data].
Proof.
  intros E. unfold consistent. split; [reflexivity|].
  split; [|split; [|split; [|split]]].
  - constructor; [|constructor]. cbn. intros [? ?]; discriminate.
  - constructor; [|constructor]. cbn. intros f [= <-]. now exists requested.
  - discriminate.
  - congruence.
  - now repeat constructor.
Qed.

Lemma consistent_unsaved u data :
  (is_Some u -> data = None) ->
  consistent join outputPath
    [{| url := u; base64 := data; filePath := None; revisedPrompt := None |}] [].
Proof.
  intros Hu. unfold consistent. split; [reflexivity|].
  split; [|split; [|split; [|split]]].
  - constructor; [|constructor]. cbn. intros H. split; [reflexivity | now apply Hu].
  - constructor; [|constructor]. cbn. discriminate.
  - reflexivity.
  - reflexivity.
  - now repeat constructor.
Qed.

(** What was written on the way to consistent results went to the
    requested file. *)
Lemma consistent_writes rs es requested :
  consistent join outputPath rs es ->
  JS.truthy outputPath = Some requested ->
  Forall (fun w => fst w = join "." requested) (file_writes es).
Proof.
  intros (H1 & _ & H3 & _) Hreq. rewrite H1. clear H1.
  induction H3 as [|r rs Hr _ IH]; [constructor|].
  change (reported (r :: rs))
    with (match (fun f => (f, base64 r)) <$> filePath r with
          | Some w => w :: reported rs
          | None => reported rs
          end).
  destruct (filePath r) as [f|] eqn:Hf; [|exact IH].
  constructor; [|exact IH].
  destruct (Hr f eq_refl) as (requested' & Hreq' & ->). cbn. congruence.
Qed.

(** One save of the OpenRouter provider. *)
Lemma OpenRouter_save_spec data requested :
  JS.truthy outputPath = Some requested ->
  match saveMedia join timestamp data (image_options requested) with
  | (Ok f, es) =>
      consistent join outputPath
        [{| url := None; base64 := data; filePath := Some f;
            revisedPrompt := None |}] es
  | (Throw e, es) => failed_save join outputPath e es
  end.
Proof.
  intros Hreq. pose proof (saveMedia_spec join timestamp data requested) as H.
  destruct (saveMedia join timestamp data (image_options requested))
    as [[f|e] es].
  - destruct H as (-> & -> & _). now apply consistent_saved.
  - destruct H as (Hne & Hw & H). exists requested.
    split; [exact Hreq|]. split; [|now split].
    unfold save_throws. destruct H as [H|[[-> _]|[[-> _]|H]]]; auto.
Qed.

Lemma failed_save_after rs es e es' :
  consistent join outputPath rs es ->
  failed_save join outputPath e es' ->
  failed_save join outputPath e (es ++ es').
Proof.
  intros Hc (requested & Hreq & He & Hne & Hw). exists requested.
  split; [exact Hreq|]. split; [exact He|]. split.
  - intros H. apply app_eq_nil in H. now destruct H.
  - rewrite file_writes_app. apply Forall_app. split; [|exact Hw].
    now apply (consistent_writes rs).
Qed.

Lemma OpenRouter_image_spec u :
  match OpenRouter_image join timestamp outputPath u with
  | (Ok r, es) => consistent join outputPath [r] es
  | (Throw e, es) => failed_save join outputPath e es
  end.
Proof.
  unfold OpenRouter_image.
  destruct (JS.startsWith u "data:image").
  - destruct (JS.truthy outputPath) as [requested|] eqn:E.
    + pose proof (OpenRouter_save_spec (JS.split "," u !! 1%nat) requested E) as H.
      now destruct (saveMedia join timestamp (JS.split "," u !! 1%nat)
                      (image_options requested)) as [[f|e] es].
    + apply consistent_unsaved. intros [? ?]; discriminate.
  - now apply consistent_unsaved.
Qed.

Lemma OpenRouter_parts_spec check_type parts :
  match OpenRouter_parts join timestamp check_type outputPath parts with
  | (Ok rs, es) => consistent join outputPath rs es
  | (Throw e, es) => failed_save join outputPath e es
  end.
Proof.
  induction parts as [|part parts IH]; [apply consistent_nil|].
  cbn [OpenRouter_parts].
  destruct (negb check_type || String.eqb (part_type part) "image_url");
    [|exact IH].
  destruct (JS.truthy (image_url part)) as [u|]; [|exact IH].
  pose proof (OpenRouter_image_spec u) as H.
  destruct (OpenRouter_image join timestamp outputPath u) as [[r|e] es0];
    [|exact H].
  destruct (OpenRouter_parts join timestamp check_type outputPath parts)
    as [[rs|e] es].
  - now apply consistent_cons.
  - now apply (failed_save_after [r]).
Qed.

Lemma OpenRouter_results_consistent base64Match urlMatch message raw :
  match OpenRouter_generateImage_results join timestamp base64Match urlMatch
          outputPath message raw with
  | (Ok results, effects) =>
      results <> [] /\ consistent join outputPath results effects
  | (Throw e, effects) =>
      (effects = []
       /\ e = ProviderError ("No image found in response: " +:+ JS.take 500 raw)
                (Some "openrouter") None)
      \/ failed_save join outputPath e effects
  end.
Proof.
  unfold OpenRouter_generateImage_results.
  assert (Hfinal : forall rs es, consistent join outputPath rs es ->
            match (match rs with
                   | [] => (Throw (ProviderError
                                     ("No image found in response: " +:+ JS.take 500 raw)
                                     (Some "openrouter") None), es)
                   | _ => (Ok rs, es)
                   end) with
            | (Ok results, effects) =>
                results <> [] /\ consistent join outputPath results effects
            | (Throw e, effects) =>
                (effects = []
                 /\ e = ProviderError
                          ("No image found in response: " +:+ JS.take 500 raw)
                          (Some "openrouter") None)
                \/ failed_save join outputPath e effects
            end).
  { intros [|r rs] es H.
    - destruct H as (_ & _ & _ & H4 & _). left. split; [now apply H4 | reflexivity].
    - split; [discriminate | exact H]. }
  assert (Himg :
            match (match images message with
                   | Some imgs => OpenRouter_parts join timestamp false outputPath imgs
                   | None => (Ok [], [])
                   end) with
            | (Ok rs, es) => consistent join outputPath rs es
            | (Throw e, es) => failed_save join outputPath e es
            end).
  { destruct (images message);
      [apply OpenRouter_parts_spec | apply consistent_nil]. }
  destruct (match images message with
            | Some imgs => OpenRouter_parts join timestamp false outputPath imgs
            | None => (Ok [], [])
            end) as [[rs|e] es]; [|now right].
  destruct rs as [|r rs]; [|apply (Hfinal (r :: rs) es Himg)].
  assert (es = []) as ->.
  { destruct Himg as (_ & _ & _ & G4 & _). now apply G4. }
  destruct (content message) as [[[|c t]|parts]|];
    try apply (Hfinal [] [] consistent_nil).
  - destruct (base64Match (String c t)) as [b64|].
    + destruct (JS.truthy outputPath) as [requested|] eqn:E.
      * pose proof (OpenRouter_save_spec (Some b64) requested E) as H.
        destruct (saveMedia join timestamp (Some b64) (image_options requested))
          as [[f|e] es]; cbn [app].
        -- split; [discriminate | exact H].
        -- now right.
      * split; [discriminate|]. apply consistent_unsaved.
        intros [? ?]; discriminate.
    + destruct (urlMatch (String c t)) as [u|];
        [|apply (Hfinal [] [] consistent_nil)].
      split; [discriminate|]. now apply consistent_unsaved.
  - pose proof (OpenRouter_parts_spec true parts) as Hparts.
    destruct (OpenRouter_parts join timestamp true outputPath parts)
      as [[rs'|e] es']; cbn [app].
    + apply (Hfinal rs' es' Hparts).
    + now right.
Qed.

End OpenRouter.



End ImagesProps.

(** ** Facts about text generation *)

Module TextGenerationProps.
Import Base BaseSpec Json SSE TextGeneration TextGenerationNotions.

Lemma guard_cases p c :
  (guard p c = Throw (not_initialized p) /\ initialized p = false)
  \/ (guard p c = Throw (unsupported p c)
      /\ initialized p = true /\ supports p c = false)
  \/ (guard p c = Ok tt /\ initialized p = true /\ supports p c = true).
Proof.
  unfold guard, and_then, ensureInitialized, ensureCapability.
  destruct (initialized p); cbn [negb]; [|now left].
  destruct (supports p c); cbn [negb]; right; [right | left]; now repeat split.
Qed.

Lemma retry_loop_Ok network p url options N fuel :
  forall i lastError response evs,
    retry_loop network fuel p url options N i lastError = Some (Ok response, evs) ->
    ok response = true.
Proof.
  induction fuel as [|fuel IH]; intros i lastError response evs; cbn [retry_loop];
    destruct (Z.of_nat i <? N); try discriminate.
  unfold attempt at 1.
  destruct (config p) as [cfg|].
  - destruct (network i) as [r|e].
    + destruct (ok r) eqn:Hok; cbn [negb].
      * intros [= <- _]. exact Hok.
      * destruct (body r);
          destruct (retry_loop network fuel p url options N (S i) _)
            as [[res evs']|] eqn:E; try discriminate;
          intros [= -> _]; eapply IH; exact E.
    + destruct (retry_loop network fuel p url options N (S i) _)
        as [[res evs']|] eqn:E; try discriminate.
      intros [= -> _]. eapply IH; exact E.
  - destruct (retry_loop network fuel p url options N (S i) _)
      as [[res evs']|] eqn:E; try discriminate.
    intros [= -> _]. eapply IH; exact E.
Qed.

(** [fetchWithRetry] with the configured number of attempts: it ends,
    it makes no more attempts than configured, and a response it returns
    is ok. *)
Lemma fetchWithRetry_budget network p url options :
  exists r evs,
    fetchWithRetry network p url options None = Some (r, evs)
    /\ Z.of_nat (attempts evs)
       <= Z.max 0 (default 3 (cfg ← config p; maxRetries cfg))
    /\ (forall response, r = Ok response -> ok response = true).
Proof.
  destruct (config p) as [cfg|] eqn:Hcfg.
  - rewrite (BaseFacts.fetchWithRetry_unfold network p cfg url options Hcfg None).
    cbv zeta. cbn [default mbind option_bind].
    set (N := default 3 (maxRetries cfg)).
    destruct (BaseFacts.retry_loop_total network p cfg url options Hcfg N
                (Z.to_nat N) 0 None ltac:(lia)) as (res & n & Hrun & Hn & _).
    exists res, (backoff_trace (EvFetch url options (default 60000 (timeout cfg))) 0 n).
    split; [exact Hrun|]. split.
    + rewrite BaseFacts.attempts_backoff_trace. lia.
    + intros response ->. eapply retry_loop_Ok. exact Hrun.
  - unfold fetchWithRetry. rewrite Hcfg.
    exists (Throw (TypeError "this.config is undefined")), [].
    split; [reflexivity|]. split; [cbn; lia | discriminate].
Qed.


Lemma after_checks_throw {A B : Type} p (e : Error) :
  guard p text = Ok tt ->
  after_checks (A := A) (B := B) p (Throw e, []).
Proof.
  intros Hg. destruct (guard_cases p text) as [[H _]|[[H _]|[_ [Hi Hs]]]];
    try congruence.
  split; [now left|]. split; intros; congruence.
Qed.

Lemma after_checks_text {A B : Type} p cfg (run : Result Error A * list B) :
  guard p text = Ok tt -> config p = Some cfg -> after_checks p run.
Proof.
  intros Hg Hc. destruct (guard_cases p text) as [[H _]|[[H _]|[_ [Hi Hs]]]];
    try congruence.
  split; [right; repeat split; [assumption.. | now exists cfg]|].
  split; intros; congruence.
Qed.

Lemma after_checks_guard {A B : Type} p e :
  guard p text = Throw e -> after_checks (A := A) (B := B) p (Throw e, []).
Proof.
  intros Hg. destruct (guard_cases p text) as [[H Hi]|[[H [Hi Hs]]|[H _]]];
    rewrite H in Hg; try discriminate; injection Hg as <-;
    (split; [now left|]); split; intros; congruence.
Qed.

(** X19.  None of the six text methods makes a request before its
    checks have passed: a request is made only by a provider that is
    initialized, declares the text capability and has a configuration; a
    provider that is not initialized answers with [not initialized], and
    one that does not declare the capability with [does not support text
    generation], both without a request.  The three [generateText] always
    end. *)
Theorem text_requests_only_after_checks
    (stringify_chat : ChatCompletionsBody -> string)
    (stringify_content : GenerateContentBody -> string)
    (stringify : json -> string) (network : nat -> FetchOutcome)
    (p : Provider) (request : TextGenerationRequest)
    (outcome : FetchOutcome) (reads : list ReadResult) :
  (exists run, OpenAI_generateText stringify_chat network p request = Some run
               /\ after_checks p run)
  /\ (exists run,
        Google_generateText stringify_content stringify network p request = Some run
        /\ after_checks p run)
  /\ (exists run,
        OpenRouter_generateText stringify_chat stringify network p request = Some run
        /\ after_checks p run)
  /\ after_checks p (OpenAI_generateTextStream stringify_chat p request outcome reads)
  /\ after_checks p (Google_generateTextStream stringify_content p request outcome reads)
  /\ after_checks p (OpenRouter_generateTextStream stringify_chat p request outcome reads).
Proof.
  unfold OpenAI_generateText, Google_generateText, OpenRouter_generateText,
    OpenAI_generateTextStream, Google_generateTextStream,
    OpenRouter_generateTextStream.
  destruct (guard p text) as [[]|e] eqn:Hg.
  2:{ split; [|split; [|split; [|split; [|split]]]];
        try (eexists; split; [reflexivity|]); now apply after_checks_guard. }
  assert (Hstream : forall url options failure decoder meta cfg,
             config p = Some cfg ->
             after_checks p (stream_request url options outcome failure
                               decoder reads meta)).
  { intros. eapply after_checks_text; eassumption. }
  assert (Hretry : forall A url options cfg
                     (k : Response -> Result Error A),
             config p = Some cfg ->
             exists run,
               match fetchWithRetry network p url options None with
               | None => None
               | Some (Throw e, evs) => Some (Throw e, evs)
               | Some (Ok response, evs) => Some (k response, evs)
               end = Some run
               /\ after_checks p run).
  { intros A url options cfg k Hc.
    destruct (fetchWithRetry_budget network p url options)
      as (r & evs & -> & _).
    destruct r; eexists; (split; [reflexivity|]);
      eapply after_checks_text; eassumption. }
  split; [|split; [|split; [|split; [|split]]]].
  - destruct (getModel p text (model request));
      [|eexists; split; [reflexivity | now apply after_checks_throw]].
    destruct (config p) eqn:Hc;
      [|eexists; split; [reflexivity | now apply after_checks_throw]].
    eapply Hretry. reflexivity.
  - destruct (getModel p text (model request));
      [|eexists; split; [reflexivity | now apply after_checks_throw]].
    destruct (config p) eqn:Hc;
      [|eexists; split; [reflexivity | now apply after_checks_throw]].
    eapply Hretry. reflexivity.
  - destruct (OpenRouter_model p request);
      [|eexists; split; [reflexivity | now apply after_checks_throw]].
    destruct (config p) eqn:Hc;
      [|eexists; split; [reflexivity | now apply after_checks_throw]].
    eapply Hretry. reflexivity.
  - destruct (getModel p text (model request));
      [|now apply after_checks_throw].
    destruct (config p) eqn:Hc; [|now apply after_checks_throw].
    eapply Hstream. reflexivity.
  - destruct (getModel p text (model request));
      [|now apply after_checks_throw].
    destruct (config p) eqn:Hc; [|now apply after_checks_throw].
    eapply Hstream. reflexivity.
  - destruct (OpenRouter_model p request);
      [|now apply after_checks_throw].
    destruct (config p) eqn:Hc; [|now apply after_checks_throw].
    eapply Hstream. reflexivity.
Qed.






Lemma getModel_Ok_nonempty p c requestModel m :
  getModel p c requestModel = Ok m ->
  (forall first rest, getModels (adapter p) c = first :: rest -> first <> "") ->
  m <> "".
Proof.
  unfold getModel. intros H Hfirst.
  destruct (JS.truthy requestModel) as [m'|] eqn:E.
  - injection H as <-. destruct requestModel as [[|? ?]|]; try discriminate.
    injection E as <-. discriminate.
  - destruct (config p) as [cfg|]; [|discriminate].
    destruct (configModels ← models cfg;
              JS.truthy (configModels_get configModels
                           (if decide (c = embedding) then text else c)))
      as [m'|] eqn:E'.
    + injection H as <-.
      destruct (models cfg) as [cm|]; [|discriminate]. cbn in E'.
      destruct (configModels_get cm _) as [[|? ?]|]; try discriminate.
      injection E' as <-. discriminate.
    + destruct (getModels (adapter p) c) as [|first rest] eqn:Hm; [discriminate|].
      injection H as <-. eapply Hfirst. reflexivity.
Qed.

Lemma and_then_Ok {E A B : Type} (r : Result E A) (f : A -> Result E B) b :
  and_then r f = Ok b -> exists a, r = Ok a /\ f a = Ok b.
Proof. destruct r as [a|e]; [now exists a | discriminate]. Qed.

(** X21.  A [generateText] of the Google or the OpenRouter provider
    that succeeds returns data that is truthy, so never an empty text;
    the model it reports is the one the request was made for.  The
    OpenRouter provider takes the model of the request as it is, also
    when it is the empty string, and resolves a model only when the
    request has none; the OpenAI provider never reports an empty model
    name. *)
Theorem generateText_answer
    (stringify_chat : ChatCompletionsBody -> string)
    (stringify_content : GenerateContentBody -> string)
    (stringify : json -> string) (network : nat -> FetchOutcome)
    (cfg : option ProviderConfig) (ready : bool)
    (request : TextGenerationRequest) :
  let openai := {| adapter := Adapters.OpenAIProvider; config := cfg;
                   initialized := ready |} in
  let google := {| adapter := Adapters.GoogleProvider; config := cfg;
                   initialized := ready |} in
  let openrouter := {| adapter := Adapters.OpenRouterProvider; config := cfg;
                       initialized := ready |} in
  (forall r evs,
     Google_generateText stringify_content stringify network google request
     = Some (Ok r, evs) ->
     (exists v, data r = Some v /\ truthy v = true)
     /\ getModel google text (model request) = Ok (meta_model (response_meta r))
     /\ meta_model (response_meta r) <> ""
     /\ meta_provider (response_meta r) = "google")
  /\ (forall r evs,
        OpenRouter_generateText stringify_chat stringify network openrouter request
        = Some (Ok r, evs) ->
        (exists v, data r = Some v /\ truthy v = true)
        /\ (forall m, model request = Some m -> meta_model (response_meta r) = m)
        /\ (model request = None ->
            getModel openrouter text None = Ok (meta_model (response_meta r)))
        /\ meta_provider (response_meta r) = "openrouter")
  /\ (forall r evs,
        OpenAI_generateText stringify_chat network openai request
        = Some (Ok r, evs) ->
        getModel openai text (model request) = Ok (meta_model (response_meta r))
        /\ meta_model (response_meta r) <> ""
        /\ meta_provider (response_meta r) = "openai").
Proof.
  intros openai google openrouter.
  split; [|split].
  - intros r evs. unfold Google_generateText.
    destruct (guard google text); [|discriminate].
    destruct (getModel google text (model request)) as [m|] eqn:Hm; [|discriminate].
    destruct (config google); [|discriminate].
    destruct (fetchWithRetry _ _ _ _ _) as [[[response|e] evs']|]; try discriminate.
    intros [= H _].
    apply and_then_Ok in H as (data0 & _ & H).
    apply and_then_Ok in H as (t & _ & H).
    destruct t as [v|]; [|discriminate].
    destruct (truthy v) eqn:Hv; [|discriminate].
    injection H as <-. cbn.
    split; [now exists v|]. split; [reflexivity|]. split; [|reflexivity].
    eapply getModel_Ok_nonempty; [exact Hm|].
    intros first rest. cbn. now intros [= <- _].
  - intros r evs. unfold OpenRouter_generateText.
    destruct (guard openrouter text); [|discriminate].
    destruct (OpenRouter_model openrouter request) as [m|] eqn:Hm; [|discriminate].
    destruct (config openrouter); [|discriminate].
    destruct (fetchWithRetry _ _ _ _ _) as [[[response|e] evs']|]; try discriminate.
    intros [= H _].
    apply and_then_Ok in H as (data0 & _ & H).
    apply and_then_Ok in H as (t & _ & H).
    destruct t as [v|]; [|discriminate].
    destruct (truthy v) eqn:Hv; [|discriminate].
    injection H as <-. cbn.
    split; [now exists v|]. unfold OpenRouter_model in Hm.
    split; [|split; [|reflexivity]].
    + intros m' Hreq. rewrite Hreq in Hm. now injection Hm.
    + intros Hreq. now rewrite Hreq in Hm.
  - intros r evs. unfold OpenAI_generateText.
    destruct (guard openai text); [|discriminate].
    destruct (getModel openai text (model request)) as [m|] eqn:Hm; [|discriminate].
    destruct (config openai); [|discriminate].
    destruct (fetchWithRetry _ _ _ _ _) as [[[response|e] evs']|]; try discriminate.
    intros [= H _].
    apply and_then_Ok in H as (data0 & _ & H).
    apply and_then_Ok in H as (content & _ & H).
    injection H as <-. cbn.
    split; [reflexivity|]. split; [|reflexivity].
    eapply getModel_Ok_nonempty; [exact Hm|].
    intros first rest. cbn. now intros [= <- _].
Qed.

Lemma generateText_answer_witness :
  exists r evs,
    Google_generateText no_content no_json
      (answering (JS.slice 6 SSESpec.google_hi_line))
      (initialize (new Adapters.GoogleProvider) (config_text None)) hello
    = Some (Ok r, evs)
    /\ data r = Some (JString "Hi")
    /\ getModel (initialize (new Adapters.GoogleProvider) (config_text None))
         text (Some "") = Ok (meta_model (response_meta r)).
Proof.
  eexists. eexists. split; [vm_compute; reflexivity|].
  split; [reflexivity|].
  destruct (generateText_answer no_chat no_content no_json
              (answering (JS.slice 6 SSESpec.google_hi_line))
              (Some (config_text None)) true hello) as (H & _ & _).
  eapply H. vm_compute. reflexivity.
Defined.

Lemma attempt_reconfigured network p b o pr r url options i :
  attempt network (reconfigured p b o pr r) url options i
  = attempt network p url options i.
Proof. unfold attempt, reconfigured. cbn. now destruct (config p). Qed.

Lemma retry_loop_reconfigured network p b o pr r url options N fuel :
  forall i lastError,
    retry_loop network fuel (reconfigured p b o pr r) url options N i lastError
    = retry_loop network fuel p url options N i lastError.
Proof.
  induction fuel as [|fuel IH]; intros i lastError; cbn [retry_loop].
  - reflexivity.
  - rewrite attempt_reconfigured.
    destruct (Z.of_nat i <? N); [|reflexivity].
    destruct (attempt network p url options i) as [[response|e] evs];
      [reflexivity|].
    now rewrite IH.
Qed.

Lemma fetchWithRetry_reconfigured network p b o pr r url options retries :
  fetchWithRetry network (reconfigured p b o pr r) url options retries
  = fetchWithRetry network p url options retries.
Proof.
  unfold fetchWithRetry. destruct retries as [n|].
  - apply retry_loop_reconfigured.
  - cbn [config reconfigured]. destruct (config p) as [cfg|]; [|reflexivity].
    cbn. apply retry_loop_reconfigured.
Qed.

Lemma getModel_reconfigured p b o pr r c requestModel :
  getModel (reconfigured p b o pr r) c requestModel = getModel p c requestModel.
Proof. unfold getModel, reconfigured. cbn. now destruct (config p). Qed.

(** X22.  The fields [baseUrl], [organization], [projectId] and [region]
    of the configuration of a provider have no effect on text
    generation: with other values there, each of the six text methods
    makes the same requests, to the same addresses, and gives the same
    answer. *)
Theorem text_generation_ignores_endpoint_fields
    (stringify_chat : ChatCompletionsBody -> string)
    (stringify_content : GenerateContentBody -> string)
    (stringify : json -> string) (network : nat -> FetchOutcome)
    (p : Provider) (b o pr r : option string)
    (request : TextGenerationRequest)
    (outcome : FetchOutcome) (reads : list ReadResult) :
  let p' := reconfigured p b o pr r in
  OpenAI_generateText stringify_chat network p' request
  = OpenAI_generateText stringify_chat network p request
  /\ Google_generateText stringify_content stringify network p' request
     = Google_generateText stringify_content stringify network p request
  /\ OpenRouter_generateText stringify_chat stringify network p' request
     = OpenRouter_generateText stringify_chat stringify network p request
  /\ OpenAI_generateTextStream stringify_chat p' request outcome reads
     = OpenAI_generateTextStream stringify_chat p request outcome reads
  /\ Google_generateTextStream stringify_content p' request outcome reads
     = Google_generateTextStream stringify_content p request outcome reads
  /\ OpenRouter_generateTextStream stringify_chat p' request outcome reads
     = OpenRouter_generateTextStream stringify_chat p request outcome reads.
Proof.
  intros p'. subst p'.
  unfold OpenAI_generateText, Google_generateText, OpenRouter_generateText,
    OpenAI_generateTextStream, Google_generateTextStream,
    OpenRouter_generateTextStream, OpenRouter_model.
  change (guard (reconfigured p b o pr r) text) with (guard p text).
  rewrite !getModel_reconfigured.
  assert (Hcfg : config (reconfigured p b o pr r)
                 = (fun cfg => with_endpoint cfg b o pr r) <$> config p)
    by reflexivity.
  rewrite !Hcfg. clear Hcfg.
  destruct (guard p text); [|repeat split].
  destruct (config p) as [cfg|] eqn:Hc; cbn [fmap option_fmap option_map];
    (split; [|split; [|split; [|split; [|split]]]]);
    try (destruct (getModel p text (model request)) as [m|];
         rewrite ?fetchWithRetry_reconfigured; reflexivity);
    destruct (model request) as [m|];
    try (rewrite ?fetchWithRetry_reconfigured; reflexivity);
    destruct (getModel p text None) as [m|];
    rewrite ?fetchWithRetry_reconfigured; reflexivity.
Qed.

End TextGenerationProps.

(** ** Facts about the command line *)

Module CliProps.
Import Base BaseSpec Cli CliNotions.

Lemma take_app a b : JS.take (String.length a) (a +:+ b) = a.
Proof.
  induction a as [|c a IH]; [now destruct b|].
  change (String c a +:+ b) with (String c (a +:+ b)). cbn. now rewrite IH.
Qed.

Lemma slice_app a b : JS.slice (String.length a) (a +:+ b) = b.
Proof.
  induction a as [|c a IH]; [reflexivity|].
  change (String c a +:+ b) with (String c (a +:+ b)). cbn. exact IH.
Qed.

Lemma take_slice n s : JS.take n s +:+ JS.slice n s = s.
Proof.
  revert s. induction n as [|n IH]; intros s.
  - now destruct s.
  - destruct s as [|c s]; [reflexivity|]. cbn [JS.take JS.slice].
    change (String c (JS.take n s) +:+ JS.slice n s)
      with (String c (JS.take n s +:+ JS.slice n s)).
    now rewrite IH.
Qed.

Lemma slice_slice a b s : JS.slice a (JS.slice b s) = JS.slice (a + b) s.
Proof.
  revert s. induction b as [|b IH]; intros s.
  - now rewrite Nat.add_0_r.
  - rewrite Nat.add_succ_r. destruct s as [|c s].
    + cbn. now destruct a.
    + cbn [JS.slice]. apply IH.
Qed.

Lemma take_all n s : (String.length s <= n)%nat -> JS.take n s = s.
Proof.
  revert s. induction n as [|n IH]; intros [|c s] H; cbn in *;
    try reflexivity; try lia.
  rewrite IH by lia. reflexivity.
Qed.

Lemma all_chars_app test a b :
  all_chars test (a +:+ b) = all_chars test a && all_chars test b.
Proof.
  induction a as [|c a IH]; [reflexivity|].
  change (String c a +:+ b) with (String c (a +:+ b)). cbn [all_chars].
  now rewrite IH, andb_assoc.
Qed.

Lemma all_chars_impl (test test' : ascii -> bool) s :
  (forall c, test c = true -> test' c = true) ->
  all_chars test s = true -> all_chars test' s = true.
Proof.
  intros H. induction s as [|c s IH]; [reflexivity|]. cbn [all_chars].
  intros [Hc Hs]%andb_true_iff. now rewrite (H c Hc), IH.
Qed.

Lemma plain_char_escape c : plain_char c = true -> JSON_escape c = String c "".
Proof.
  destruct c as [[] [] [] [] [] [] [] []]; intros H; vm_compute in H;
    try discriminate H; reflexivity.
Qed.

Lemma plain_char_lex c acc :
  plain_char c = true ->
  Json.str_char acc Json.SPlain c
  = Some (Json.LString (Json.Plain c :: acc) Json.SPlain, []).
Proof.
  destruct c as [[] [] [] [] [] [] [] []]; intros H; vm_compute in H;
    try discriminate H; reflexivity.
Qed.

Lemma word_char_plain c : is_word_char c = true -> plain_char c = true.
Proof.
  destruct c as [[] [] [] [] [] [] [] []]; intros H; vm_compute in H;
    try discriminate H; reflexivity.
Qed.

Lemma escape_plain s : plain s = true -> JSON_escape_all s = s.
Proof.
  induction s as [|c s IH]; [reflexivity|]. unfold plain. cbn [all_chars].
  intros [Hc Hs]%andb_true_iff. cbn [JSON_escape_all].
  rewrite (plain_char_escape c Hc), (IH Hs). reflexivity.
Qed.

Lemma decode_plain_units s : Json.decode_units (plain_units s) = s.
Proof.
  induction s as [|c s IH]; [reflexivity|]. cbn. now rewrite IH.
Qed.

Lemma lex_plain v :
  plain v = true ->
  forall acc,
    Json.lex (Json.LString acc Json.SPlain) (v +:+ String "034"%char "")
    = Some [Json.TValue (Json.JString (Json.decode_units (rev acc ++ plain_units v)))].
Proof.
  induction v as [|c v IH]; intros Hp acc.
  - cbn. now rewrite app_nil_r.
  - unfold plain in Hp. cbn [all_chars] in Hp.
    apply andb_true_iff in Hp as [Hc Hv].
    change (String c v +:+ String "034"%char "")
      with (String c (v +:+ String "034"%char "")).
    cbn [Json.lex Json.lex_step]. rewrite (plain_char_lex c acc Hc).
    rewrite (IH Hv (Json.Plain c :: acc)). cbn [rev plain_units app].
    now rewrite <- app_assoc.
Qed.

(** [JSON.parse] reads back what [JSON.stringify] writes for a text of
    plain characters. *)
Lemma parse_quoted v :
  plain v = true ->
  Json.JSON_parse (String "034"%char (v +:+ String "034"%char ""))
  = Some (Json.JString v).
Proof.
  intros Hp. unfold Json.JSON_parse. cbn [Json.lex Json.lex_step Json.start_char].
  rewrite (lex_plain v Hp []). cbn [rev app]. rewrite decode_plain_units.
  reflexivity.
Qed.

Lemma copied_plain v : plain v = true -> copied_string v = Some v.
Proof.
  intros Hp. unfold copied_string, JSON_stringify_string.
  now rewrite (escape_plain v Hp), (parse_quoted v Hp).
Qed.

Lemma replace_no_dollar env s :
  no_dollar s = true -> replace_vars env VOutside s = s.
Proof.
  induction s as [|c s IH]; [reflexivity|]. unfold no_dollar. cbn [all_chars].
  intros [Hc Hs]%andb_true_iff. cbn [replace_vars].
  apply negb_true_iff in Hc. rewrite Hc. now rewrite (IH Hs).
Qed.

Lemma replace_placeholder env variable :
  all_chars is_word_char variable = true ->
  forall acc rest,
    acc +:+ variable <> "" ->
    replace_vars env (VName acc) (variable +:+ String "}"%char rest)
    = default "" (env (acc +:+ variable)) +:+ replace_vars env VOutside rest.
Proof.
  induction variable as [|c variable IH]; intros Hw acc rest Hne.
  - rewrite SSEFacts.append_nil_r in *. cbn [String.append replace_vars].
    change ("" +:+ String "}"%char rest) with (String "}"%char rest).
    cbn [replace_vars].
    change (is_word_char "}"%char) with false. cbv beta iota.
    change (Ascii.eqb "}"%char "}"%char) with true.
    destruct (String.eqb_spec acc "") as [->|_]; [now destruct Hne | reflexivity].
  - cbn [all_chars] in Hw. apply andb_true_iff in Hw as [Hc Hv].
    change (String c variable +:+ String "}"%char rest)
      with (String c (variable +:+ String "}"%char rest)).
    cbn [replace_vars]. rewrite Hc.
    assert (Hassoc : (acc +:+ String c "") +:+ variable = acc +:+ String c variable).
    { now rewrite SSEFacts.append_assoc. }
    rewrite (IH Hv (acc +:+ String c "") rest) by (now rewrite Hassoc).
    now rewrite Hassoc.
Qed.

(** What [loadConfig] makes of a key that is a placeholder, and of a key
    without a dollar sign. *)
Lemma resolve_placeholder env variable :
  variable <> "" -> all_chars is_word_char variable = true ->
  plain (default "" (env variable)) = true ->
  resolveEnvVars_string env ("${" +:+ variable +:+ "}")
  = Some (default "" (env variable)).
Proof.
  intros Hne Hw Hp. unfold resolveEnvVars_string, JSON_stringify_string.
  assert (Hplain : plain ("${" +:+ variable +:+ "}") = true).
  { unfold plain. rewrite !all_chars_app.
    rewrite (all_chars_impl _ _ variable word_char_plain Hw). reflexivity. }
  rewrite (escape_plain _ Hplain).
  change ("${" +:+ variable +:+ "}") with (String "$" (String "{" (variable +:+ "}"))).
  change (String "$" (String "{" (variable +:+ "}")) +:+ String "034"%char "")
    with (String "$" (String "{" ((variable +:+ "}") +:+ String "034"%char ""))).
  rewrite SSEFacts.append_assoc.
  change ("}" +:+ String "034"%char "") with (String "}"%char (String "034"%char "")).
  cbn [replace_vars]. change (Ascii.eqb "034"%char "$"%char) with false.
  cbv beta iota. change (Ascii.eqb "$"%char "$"%char) with true.
  change (Ascii.eqb "{"%char "{"%char) with true. cbv beta iota.
  rewrite (replace_placeholder env variable Hw "" (String "034"%char ""))
    by exact Hne.
  change ("" +:+ variable) with variable.
  change (replace_vars env VOutside (String "034"%char ""))
    with (String "034"%char "").
  now rewrite (parse_quoted _ Hp).
Qed.

Lemma resolve_no_dollar env k :
  plain k = true -> no_dollar k = true -> resolveEnvVars_string env k = Some k.
Proof.
  intros Hp Hd. unfold resolveEnvVars_string, JSON_stringify_string.
  rewrite (escape_plain k Hp).
  rewrite replace_no_dollar.
  - now rewrite (parse_quoted k Hp).
  - unfold no_dollar in *. cbn [all_chars].
    change (Ascii.eqb "034"%char "$"%char) with false. cbn [negb andb].
    rewrite all_chars_app, Hd. reflexivity.
Qed.

Lemma mask_ends first middle last :
  String.length first = 8%nat -> String.length last = 4%nat ->
  mask (first +:+ middle +:+ last) = first +:+ "..." +:+ last.
Proof.
  intros Hf Hl. unfold mask, slice_last.
  rewrite <- Hf at 1. rewrite take_app.
  rewrite <- (SSEFacts.append_assoc first middle last).
  replace (String.length ((first +:+ middle) +:+ last) - 4)%nat
    with (String.length (first +:+ middle))
    by (rewrite !ImagesFacts.length_append; lia).
  now rewrite slice_app.
Qed.

(** X23.  [config show] prints the keys of the configuration that
    [loadConfig] returns, in which every placeholder has been replaced.
    A key stored as a dollar sign, a brace, the name of a variable and a
    brace is printed as the empty text when the variable is not set, and
    otherwise like the value of the variable, the secret itself.  A key
    stored without a dollar sign is printed like that key.  Here a
    non-empty key is printed as its first 8 and its last 4 characters
    around three dots, unless it starts with a dollar sign and a brace,
    which prints it whole; the empty key is printed as it is.  Two keys
    that differ only between their first 8 and their last 4 characters
    are printed alike; but a key of at most 12 characters is printed with
    every one of its characters, and one of at most 8 characters is
    printed whole before the dots.  Keys and values are texts of
    printable ASCII characters without quote or backslash, as the keys
    of the three services are. *)
Theorem displayed_apiKey_reveals (env : string -> option string)
    (variable value k : string) :
  (variable <> "" -> all_chars is_word_char variable = true ->
   (env variable = None ->
    displayed_apiKey env ("${" +:+ variable +:+ "}") = Some (Some ""))
   /\ (env variable = Some value -> plain value = true ->
       displayed_apiKey env ("${" +:+ variable +:+ "}")
       = Some (masked (Some value))))
  /\ (plain k = true -> no_dollar k = true ->
      displayed_apiKey env k = Some (masked (Some k)))
  /\ masked (Some "") = Some ""
  /\ (plain k = true -> k <> "" -> JS.startsWith k "${" = false ->
      masked (Some k) = Some (mask k))
  /\ (JS.startsWith k "${" = true -> masked (Some k) = Some k)
  /\ (forall first middle middle' last,
        plain (first +:+ middle +:+ last) = true ->
        plain (first +:+ middle' +:+ last) = true ->
        String.length first = 8%nat -> String.length last = 4%nat ->
        mask (first +:+ middle +:+ last) = mask (first +:+ middle' +:+ last)
        /\ mask (first +:+ middle +:+ last) = first +:+ "..." +:+ last)
  /\ (plain k = true -> (String.length k <= 8)%nat ->
      mask k = k +:+ "..." +:+ slice_last 4 k)
  /\ (plain k = true -> (8 <= String.length k <= 12)%nat ->
      k = JS.take 8 k +:+ JS.slice (12 - String.length k) (slice_last 4 k)).
Proof.
  split; [|split; [|split; [|split; [|split; [|split; [|split]]]]]].
  - intros Hne Hw. split.
    + intros Henv. unfold displayed_apiKey.
      rewrite (resolve_placeholder env variable Hne Hw) by (now rewrite Henv).
      rewrite Henv. reflexivity.
    + intros Henv Hp. unfold displayed_apiKey.
      rewrite (resolve_placeholder env variable Hne Hw) by (now rewrite Henv).
      rewrite Henv. cbn [default from_option option_bind mbind].
      unfold Datatypes.id. cbn [mbind option_bind].
      now rewrite (copied_plain value Hp).
  - intros Hp Hd. unfold displayed_apiKey.
    rewrite (resolve_no_dollar env k Hp Hd). cbn [mbind option_bind].
    now rewrite (copied_plain k Hp).
  - reflexivity.
  - intros _ Hne Hs. unfold masked.
    rewrite (BaseFacts.truthy_nonempty k Hne), Hs. reflexivity.
  - intros Hs. unfold masked.
    destruct k as [|c k]; [discriminate|]. cbn [JS.truthy]. now rewrite Hs.
  - intros first middle middle' last _ _ Hf Hl.
    rewrite !mask_ends by assumption. now split.
  - intros _ Hlen. unfold mask. now rewrite take_all.
  - intros _ Hlen. unfold slice_last. rewrite slice_slice.
    replace (12 - String.length k + (String.length k - 4))%nat with 8%nat by lia.
    symmetry. apply take_slice.
Qed.

Lemma displayed_apiKey_reveals_witness :
  displayed_apiKey example_env "${OPENAI_API_KEY}" = Some (Some "sk-proj-...1234")
  /\ displayed_apiKey example_env "${GOOGLE_API_KEY}" = Some (Some "")
  /\ displayed_apiKey example_env "sk-12345" = Some (Some "sk-12345...2345")
  /\ "sk-123456789"
     = JS.take 8 "sk-123456789" +:+ JS.slice 0 (slice_last 4 "sk-123456789").
Proof.
  destruct (displayed_apiKey_reveals example_env "OPENAI_API_KEY"
              "sk-proj-abcdefghijklmnop1234" "sk-proj-abcdefghijklmnop1234")
    as (H1 & _ & _ & H4 & _).
  destruct (displayed_apiKey_reveals example_env "GOOGLE_API_KEY" "" "sk-12345")
    as (H1' & H2 & _ & H4' & _ & _ & H7 & _).
  destruct (displayed_apiKey_reveals example_env "" "" "sk-123456789")
    as (_ & _ & _ & _ & _ & _ & _ & H8).
  split; [|split; [|split]].
  - destruct (H1 ltac:(discriminate) eq_refl) as [_ H].
    pose proof (H eq_refl eq_refl) as E.
    rewrite H4 in E; [exact E | reflexivity | discriminate | reflexivity].
  - destruct (H1' ltac:(discriminate) eq_refl) as [H _]. exact (H eq_refl).
  - rewrite (H2 eq_refl eq_refl).
    rewrite H4'; [|reflexivity|discriminate|reflexivity].
    rewrite H7; [reflexivity | reflexivity |]. cbn. lia.
  - apply H8; [reflexivity|]. cbn. lia.
Defined.

(** X24.  The model whose cost [handleGenerateText] estimates is the
    model that the provider will call, as long as neither the [--model]
    option nor the configured text model is the empty string and the
    provider has a built-in text model.  An empty [--model] breaks this
    for the OpenAI and Google providers: the estimate is made for the
    empty name, under the id of the provider and a slash, while the call
    goes to the configured or built-in model.  The OpenRouter provider
    is called with the model priced whenever [--model] is given, empty or
    not. *)
Theorem priced_model_is_called_model (a : Adapter) (cfg : ProviderConfig)
    (options_model : option string) :
  let p := initialize (new a) cfg in
  let configured := cm ← models cfg; models_text cm in
  (options_model <> Some "" -> configured <> Some "" ->
   getModels a text <> [] ->
   getModel p text options_model = Ok (selected_model options_model cfg p))
  /\ (options_model = Some "" ->
      selected_model options_model cfg p = ""
      /\ fullModel (id (meta a)) (selected_model options_model cfg p)
         = (if String.eqb (id (meta a)) "openrouter" then ""
            else id (meta a) +:+ "/")
      /\ getModel p text options_model = getModel p text None
      /\ ((forall first rest, getModels a text = first :: rest -> first <> "") ->
          forall m, getModel p text options_model = Ok m ->
                    m <> selected_model options_model cfg p))
  /\ (forall request,
        TextGeneration.model request = options_model ->
        is_Some options_model
        \/ (configured <> Some "" /\ getModels a text <> []) ->
        TextGeneration.OpenRouter_model p request
        = Ok (selected_model options_model cfg p)).
Proof.
  intros p configured. subst p configured.
  assert (Hcalled : options_model <> Some "" ->
            (cm ← models cfg; models_text cm) <> Some "" ->
            getModels a text <> [] ->
            getModel (initialize (new a) cfg) text options_model
            = Ok (selected_model options_model cfg (initialize (new a) cfg))).
  2:{ split; [exact Hcalled|]. split.
      - intros ->. split; [reflexivity|]. split; [|split].
        + unfold fullModel, selected_model.
          destruct (String.eqb (id (meta a)) "openrouter"); reflexivity.
        + reflexivity.
        + intros Hfirst m H. cbn [selected_model].
          exact (TextGenerationProps.getModel_Ok_nonempty _ _ _ _ H Hfirst).
      - intros request Hreq Hor. unfold TextGeneration.OpenRouter_model.
        rewrite Hreq. destruct options_model as [m|]; [reflexivity|].
        destruct Hor as [[? ?]|[Hc Hm]]; [discriminate|].
        apply Hcalled; [discriminate | assumption..]. }
  - intros Hopt Hcfg Hm. unfold getModel, selected_model.
    change (adapter (initialize (new a) cfg)) with a.
    destruct options_model as [[|c m]|]; [congruence | reflexivity |].
    cbn [JS.truthy config initialize]. destruct (decide (text = embedding));
      [discriminate|].
    destruct (models cfg) as [cm|]; cbn [mbind option_bind] in *.
    + cbn [configModels_get].
      destruct (models_text cm) as [[|c m]|]; [congruence | reflexivity |].
      cbn [JS.truthy]. destruct (getModels a text); [congruence|].
      reflexivity.
    + destruct (getModels a text); [congruence|]. reflexivity.
Qed.

Lemma priced_model_is_called_model_witness :
  getModel (initialize (new Adapters.GoogleProvider) (config_text (Some "gemini-pro")))
    text None
  = Ok (selected_model None (config_text (Some "gemini-pro"))
          (initialize (new Adapters.GoogleProvider) (config_text (Some "gemini-pro"))))
  /\ fullModel "openai"
       (selected_model (Some "") (config_text None)
          (initialize (new Adapters.OpenAIProvider) (config_text None)))
     = "openai/"
  /\ getModel (initialize (new Adapters.OpenAIProvider) (config_text None))
       text (Some "")
     = Ok "gpt-4o".
Proof.
  destruct (priced_model_is_called_model Adapters.GoogleProvider
              (config_text (Some "gemini-pro")) None) as (H1 & _).
  destruct (priced_model_is_called_model Adapters.OpenAIProvider
              (config_text None) (Some "")) as (_ & H2).
  destruct H2 as (H2 & _). destruct (H2 eq_refl) as (_ & Hfull & Hsame & _).
  split; [|split].
  - apply H1; discriminate.
  - exact Hfull.
  - rewrite Hsame. reflexivity.
Defined.

(** X25.  The command [generate-video] cannot succeed with the three
    providers of the registry: without a prompt, or for a provider that
    the configuration does not hold, it is refused; an OpenAI or
    OpenRouter provider does not support video; and the Google provider,
    the only one that does, throws [not yet fully implemented]. *)
Theorem generate_video_never_succeeds (config : RouterConfig)
    (options : CLIOptions) :
  let providerId := default (defaultProvider config) (provider options) in
  exists e st',
    handleGenerateVideo Registry.init config options = (Throw e, st')
    /\ (e = CLIError "--prompt is required for generate-video"
        \/ e = CLIError ("Provider '" +:+ providerId +:+ "' not configured")
        \/ e = ProviderError ("Unknown provider: " +:+ providerId)
                 (Some providerId) None
        \/ e = CLIError ("Provider '" +:+ providerId
                         +:+ "' does not support video generation")
        \/ (providerId = "google"
            /\ e = ProviderError
                     ("Video generation with Google Veo is not yet fully implemented. "
                      +:+ "Please check Google's API documentation for the latest endpoints.")
                     (Some "google") None)).
Proof.
  intros providerId. unfold handleGenerateVideo. fold providerId.
  destruct (JS.truthy (prompt options)); [|eexists _, _; split; [reflexivity|tauto]].
  destruct (getProviderConfig config providerId) as [cfg|];
    [|eexists _, _; split; [reflexivity|tauto]].
  unfold Registry.getProvider.
  change (Registry.providers Registry.init) with (∅ : gmap string Registry.ref).
  change (Registry.heap Registry.init) with (@nil Provider).
  change (Registry.factories Registry.init)
    with [("openai", Adapters.OpenAIProvider); ("google", Adapters.GoogleProvider);
          ("openrouter", Adapters.OpenRouterProvider)].
  rewrite lookup_empty. cbn [Registry.factories_get].
  destruct (decide ("openai" = providerId)) as [<-|_];
    [eexists _, _; split; [reflexivity|tauto]|].
  destruct (decide ("google" = providerId)) as [<-|_];
    [eexists _, _; split; [reflexivity|]; right; right; right; right; now split|].
  destruct (decide ("openrouter" = providerId)) as [<-|_];
    eexists _, _; (split; [reflexivity|tauto]).
Qed.

End CliProps.

(** ** Facts about [OpenRouterProvider.listAvailableModels] *)

Module OpenRouterModelsProps.
Import Base Json TextGeneration OpenRouterModels.

(** X26.  [listAvailableModels] asks the service at most once per call,
    and not at all once it holds a list: after a call that returned a
    truthy value, every later call returns that value without a request,
    however the network is.  A call that throws leaves the object as it
    was, so the next call asks again; and so does a call whose answer
    had no truthy [data], although it returned normally. *)
Theorem listAvailableModels_caches (st : State) (outcome outcome' : FetchOutcome) :
  let '(result, st', requests) := listAvailableModels st outcome in
  (length requests <= 1)%nat
  /\ OpenRouterModels.config st' = OpenRouterModels.config st
  /\ match result with
     | Ok models =>
         cachedModels st' = models
         /\ (truthy_opt models = true ->
             listAvailableModels st' outcome' = (Ok models, st', []))
         /\ (truthy_opt models = false -> is_Some (OpenRouterModels.config st) ->
             length (snd (listAvailableModels st' outcome')) = 1%nat)
     | Throw e =>
         st' = st /\ truthy_opt (cachedModels st) = false
     end.
Proof.
  unfold listAvailableModels at 1.
  destruct (truthy_opt (cachedModels st)) eqn:Hc.
  - split; [cbn; lia|]. split; [reflexivity|]. split; [reflexivity|].
    split; [|congruence].
    intros _. unfold listAvailableModels. now rewrite Hc.
  - destruct (OpenRouterModels.config st) as [cfg|] eqn:Hcfg;
      [|split; [cbn; lia|]; now repeat split].
    destruct outcome as [response|e]; [|split; [cbn; lia|]; now repeat split].
    destruct (negb (ok response)); [split; [cbn; lia|]; now repeat split|].
    destruct (Response_json response) as [data|e];
      [|split; [cbn; lia|]; now repeat split].
    destruct (strict "data.data" (Some data) (get "data")) as [models|e];
      [|split; [cbn; lia|]; now repeat split].
    split; [cbn; lia|]. split; [reflexivity|]. split; [reflexivity|]. split.
    + intros Hm. unfold listAvailableModels. cbn [cachedModels]. now rewrite Hm.
    + intros Hm _. unfold listAvailableModels. cbn [cachedModels OpenRouterModels.config].
      rewrite Hm. destruct outcome' as [response'|e']; [|reflexivity].
      destruct (negb (ok response')); [reflexivity|].
      destruct (Response_json response') as [data'|e']; [|reflexivity].
      now destruct (strict "data.data" (Some data') (get "data")).
Qed.

End OpenRouterModelsProps.

(** ** Facts about the printing of image results *)

Module OutputProps.
Import Images ImagesNotions Output.

Lemma pretty_items_ext data data' :
  map filePath data = map filePath data' ->
  map revisedPrompt data = map revisedPrompt data' ->
  pretty_items data = pretty_items data'.
Proof.
  revert data'. induction data as [|r data IH]; intros [|r' data'];
    try discriminate; [reflexivity|].
  cbn [map]. intros [= Hf Hfs] [= Hr Hrs]. unfold pretty_items. cbn [flat_map].
  rewrite Hf, Hr. f_equal. now apply IH.
Qed.

Lemma pretty_items_nil data :
  Forall (fun r => filePath r = None) data ->
  Forall (fun r => revisedPrompt r = None) data ->
  pretty_items data = [].
Proof.
  induction data as [|r data IH]; [reflexivity|].
  intros Hf Hr. inversion Hf as [|? ? Hf1 Hf2]; inversion Hr as [|? ? Hr1 Hr2]; subst.
  unfold pretty_items. cbn [flat_map]. rewrite Hf1, Hr1. cbn. now apply IH.
Qed.

Lemma pretty_items_unsaved items :
  pretty_items (map unsaved items)
  = flat_map (fun item => match JS.truthy (snd item) with
                          | Some r => ["Revised prompt: " +:+ r]
                          | None => []
                          end) items.
Proof.
  induction items as [|item items IH]; [reflexivity|].
  unfold pretty_items in *. cbn [map flat_map]. now rewrite IH.
Qed.

(** X27.  In the pretty format an image leaves a line only for the file
    it was saved to and for its revised prompt: neither [url] nor
    [base64] is printed.  So, when no [outputPath] is given, or an empty
    one, the Google and the OpenAI [generateImage] answer, having asked
    nothing of the file system, and the results of the Google and of the
    OpenRouter [generateImage] are printed as nothing, also when
    OpenRouter answered with the address of the image; and those of the
    OpenAI [generateImage] as their revised prompts only. *)
Theorem pretty_format_hides_unsaved_images {fs : FileSystem}
    (join : string -> string -> string) (timestamp : Z)
    (base64Match urlMatch : string -> option string)
    (outputPath : option string)
    (data : list (string * option string)) (predictions : list string)
    (message : Message) (raw : string) :
  (forall results results',
     map filePath results = map filePath results' ->
     map revisedPrompt results = map revisedPrompt results' ->
     pretty_items results = pretty_items results')
  /\ (JS.truthy outputPath = None ->
      (exists results,
         Google_generateImage_results join timestamp outputPath predictions
         = (Ok results, [])
         /\ pretty_items results = [])
      /\ (exists results,
            OpenAI_generateImage_results join timestamp outputPath data
            = (Ok results, [])
            /\ pretty_items results
               = flat_map (fun item => match JS.truthy (snd item) with
                                       | Some r => ["Revised prompt: " +:+ r]
                                       | None => []
                                       end) data)
      /\ forall results effects,
           OpenRouter_generateImage_results join timestamp base64Match urlMatch
             outputPath message raw = (Ok results, effects) ->
           pretty_items results = []).
Proof.
  split; [apply pretty_items_ext|]. intros Hnone. split; [|split].
  - destruct (ImagesProps.provider_results_spec join timestamp outputPath
                (map (fun b64 => (b64, None)) predictions)) as (H & _).
    cbv zeta in H. rewrite length_map in H.
    eexists. split; [exact (H Hnone)|].
    rewrite pretty_items_unsaved. clear.
    induction predictions as [|b64 predictions IH]; [reflexivity | exact IH].
  - destruct (ImagesProps.provider_results_spec join timestamp outputPath data)
      as (H & _).
    eexists. split; [exact (H Hnone)|]. apply pretty_items_unsaved.
  - intros results effects Hrun.
    pose proof (ImagesProps.OpenRouter_results_consistent join timestamp outputPath
                  base64Match urlMatch message raw) as H.
    rewrite Hrun in H. destruct H as (_ & _ & _ & Hfile & _ & _ & Hrev).
    apply pretty_items_nil; [|exact Hrev].
    eapply Forall_impl; [exact Hfile|]. intros r Hr. cbv beta in Hr.
    destruct (filePath r) as [f|]; [|reflexivity].
    destruct (Hr f eq_refl) as (requested & Hreq & _). congruence.
Qed.

Lemma pretty_format_hides_unsaved_images_witness :
  exists results,
    OpenAI_generateImage_results (fs := read_only) slash_join 0 None
      [("AAAA", Some "a cat"); ("BBBB", None)] = (Ok results, [])
    /\ pretty_items results = ["Revised prompt: a cat"].
Proof.
  destruct (pretty_format_hides_unsaved_images (fs := read_only) slash_join 0
              (fun _ => None) (fun _ => None) None
              [("AAAA", Some "a cat"); ("BBBB", None)] []
              {| content := None; images := None |} "")
    as (_ & H).
  destruct (H eq_refl) as (_ & H' & _). exact H'.
Defined.

End OutputProps.
